(** * Trading analytics automation: the recomputation cycle and its derivations

    A shallow embedding of [trading_analytics_automation_final.py] (module
    [Final]) and [trading_analytics_automation_fixed.py] (module [Fixed]):
    the checkpoint reader, the change detector, the cycle with its snapshot
    bookkeeping, and the eight derivations that rewrite the analytics tables.

    Conventions of the embedding.
    - SQLite [REAL] columns and Python floats are exact rationals ([Q]);
      [INTEGER] columns are [Z]; a nullable column is an [option].
    - A row of an analytics table is the list of the values the engine
      writes, in the order of the column list of its [INSERT].
    - The database file is [disk]; the open connection sees [conn]; the two
      differ exactly by the statements of the pending transaction.
    - A Python exception is [Raise e], [e] being [str(e)].
    - The schema and SQLite's [SQRT] are not part of the sources: the
      [UNIQUE] constraints of the analytics tables and the square root are
      parameters of the development. *)

From Stdlib Require Import ZArith QArith Qminmax Qabs List String Bool Lia Permutation.
From stdpp Require Import gmap strings list fin_maps.

Local Open Scope Z_scope.

(** ** SQLite values *)

Inductive value :=
| NULL
| INTEGER (z : Z)
| REAL (q : Q)
| TEXT (s : string).

Definition row := list value.
Definition table := list row.

(** Column [i] of a row ([NULL] past its end). *)
Definition col (i : nat) (r : row) : value := nth i r NULL.

Definition Qlt_bool (a b : Q) : bool := negb (Qle_bool b a).

(** A nullable number, and the way it is stored. *)
Definition num (x : option Q) : value :=
  match x with Some q => REAL q | None => NULL end.

Definition int (x : option Z) : value :=
  match x with Some z => INTEGER z | None => NULL end.

(** [a = b] in SQL, as a [WHERE] or a [UNIQUE] check reads it: [NULL] is
    equal to nothing, numbers compare by value. *)
Definition value_eqb (a b : value) : bool :=
  match a, b with
  | INTEGER x, INTEGER y => Z.eqb x y
  | INTEGER x, REAL y => Qeq_bool (inject_Z x) y
  | REAL x, INTEGER y => Qeq_bool x (inject_Z y)
  | REAL x, REAL y => Qeq_bool x y
  | TEXT x, TEXT y => bool_decide (x = y)
  | _, _ => false
  end.

(** *** Scalar expressions over nullable numbers *)

(** [x > y] inside a [CASE WHEN]: a [NULL] operand selects the [ELSE]. *)
Definition sql_gt (x : option Q) (y : Q) : bool :=
  match x with Some a => Qlt_bool y a | None => false end.

Definition sql_ne (x : option Q) (y : Q) : bool :=
  match x with Some a => negb (Qeq_bool a y) | None => false end.

Definition NULLIF (x : option Q) (y : Q) : option Q :=
  match x with
  | Some a => if Qeq_bool a y then None else Some a
  | None => None
  end.

Definition sql_mul (x y : option Q) : option Q :=
  match x, y with Some a, Some b => Some (a * b)%Q | _, _ => None end.

Definition sql_sub (x y : option Q) : option Q :=
  match x, y with Some a, Some b => Some (a - b)%Q | _, _ => None end.

(** Division by zero is [NULL] in SQLite. *)
Definition sql_div (x y : option Q) : option Q :=
  match x, y with
  | Some a, Some b => if Qeq_bool b 0 then None else Some (a / b)%Q
  | _, _ => None
  end.

Definition ABS (q : Q) : Q := Qabs q.

(** *** Aggregates

    Each takes the non-[NULL] values of its argument over the rows of the
    group; over no value at all [SUM], [AVG], [MIN] and [MAX] are [NULL]. *)

Definition total (l : list Q) : Q := fold_right Qplus 0%Q l.

Definition COUNT {A} (l : list A) : Z := Z.of_nat (length l).

Definition SUM (l : list Q) : option Q :=
  match l with [] => None | _ => Some (total l) end.

Definition AVG (l : list Q) : option Q :=
  match l with [] => None | _ => Some (total l / inject_Z (COUNT l))%Q end.

Definition MAX (l : list Q) : option Q :=
  match l with [] => None | x :: xs => Some (fold_left Qmax xs x) end.

Definition MIN (l : list Q) : option Q :=
  match l with [] => None | x :: xs => Some (fold_left Qmin xs x) end.

(** The same over integers ([SUM] of a [CASE] of 1 and 0, [MAX] of an id). *)
Definition SUMi (l : list Z) : option Z :=
  match l with [] => None | _ => Some (fold_right Z.add 0 l) end.

Definition MAXi (l : list Z) : option Z :=
  match l with [] => None | x :: xs => Some (fold_left Z.max xs x) end.

Definition MINi (l : list Z) : option Z :=
  match l with [] => None | x :: xs => Some (fold_left Z.min xs x) end.

(** [GROUP BY key]: one group per distinct key, holding the rows of that
    key in table order. *)
Definition group_by {A K} `{EqDecision K} (key : A -> K) (l : list A)
  : list (K * list A) :=
  map (fun k => (k, List.filter (fun x => bool_decide (key x = k)) l))
      (remove_dups (map key l)).

(** [ORDER BY f DESC], stable: rows of equal [f] keep their order. *)
Fixpoint insert_desc {A} (f : A -> option Q) (x : A) (l : list A) : list A :=
  match l with
  | [] => [x]
  | y :: ys =>
      match f x, f y with
      | Some a, Some b =>
          if Qlt_bool b a then x :: y :: ys else y :: insert_desc f x ys
      | Some _, None => x :: y :: ys
      | None, _ => y :: insert_desc f x ys
      end
  end.

Definition order_by_desc {A} (f : A -> option Q) (l : list A) : list A :=
  fold_right (insert_desc f) [] l.

(** [ROW_NUMBER()] over an ordered list: 1, 2, 3, ... *)
Fixpoint row_number_from {A} (n : Z) (l : list A) : list (Z * A) :=
  match l with
  | [] => []
  | x :: xs => (n, x) :: row_number_from (n + 1) xs
  end.

Definition ROW_NUMBER {A} (l : list A) : list (Z * A) := row_number_from 1 l.

(** *** [UNIQUE] constraints

    A constraint is the list of the columns it spans; two rows collide on
    it when they agree on every one of them ([NULL] agrees with nothing). *)
Definition collide (cols : list nat) (r1 r2 : row) : bool :=
  forallb (fun c => value_eqb (col c r1) (col c r2)) cols.

Definition conflicts (ucs : list (list nat)) (r1 r2 : row) : bool :=
  existsb (fun cols => collide cols r1 r2) ucs.

(** ** The trade store and the snapshot log *)

Record trade := {
  trade_id : Z;
  pair : string;
  base_currency : string;
  quote_currency : string;
  strategy : string;
  stake_amount : Q;
  profit_ratio : Q;
  profit_pct : Q;
  profit_abs : Q;
  open_date : option Z;        (* seconds since 1970-01-01 00:00:00 *)
  close_date : option Z;
  trade_duration : option Z;   (* minutes *)
  exit_reason : string;
  stop_loss_pct : option Q;
  is_open : bool
}.

Record snapshot := {
  snapshot_id : Z;
  snapshot_type : string;
  records_processed : Z;
  status : string;
  last_trade_id : option Z;
  error_message : option string
}.

Record database := {
  trades : option (list trade);
  analysis_snapshots : option (list snapshot);
  analytics : gmap string (list (list value))
}.

(** [WHERE is_open = 0] *)
Definition closed (ts : list trade) : list trade :=
  List.filter (fun t => negb (is_open t)) ts.

(** [strftime('%H', d)] and [strftime('%w', d)] on a date. *)
Definition hour_of (d : Z) : Z := (d / 3600) mod 24.
Definition weekday_of (d : Z) : Z := (d / 86400 + 4) mod 7.

(** ** Python state, exceptions, and the connection *)

Record world := {
  last_processed_trade_id : option Z;  (* self.last_processed_trade_id *)
  disk : database;                     (* the file self.analytics_db *)
  conn : database;                     (* what the connection sees *)
  in_transaction : bool;               (* conn.in_transaction *)
  CURRENT_TIMESTAMP : string
}.

Inductive res (A : Type) :=
| Ok (a : A)
| Raise (e : string).
Arguments Ok {A} a.
Arguments Raise {A} e.

Definition M (A : Type) : Type := world -> res A * world.

Definition ret {A} (a : A) : M A := fun w => (Ok a, w).

Definition bind {A B} (m : M A) (k : A -> M B) : M B :=
  fun w => match m w with
           | (Ok a, w') => k a w'
           | (Raise e, w') => (Raise e, w')
           end.

Definition raise {A} (e : string) : M A := fun w => (Raise e, w).

(** [try: body except Exception as e: handler e]; the handler runs in the
    state the body left behind. *)
Definition try_except {A} (body : M A) (handler : string -> M A) : M A :=
  fun w => match body w with
           | (Ok a, w') => (Ok a, w')
           | (Raise e, w') => handler e w'
           end.

Declare Scope py_scope.
Delimit Scope py_scope with py.
Notation "x <- m ;; k" := (bind m (fun x => k))
  (at level 100, m at next level, right associativity) : py_scope.
Notation "m ;; k" := (bind m (fun _ => k))
  (at level 100, right associativity) : py_scope.
Local Open Scope py_scope.

Definition set_conn (d : database) (txn : bool) (w : world) : world :=
  {| last_processed_trade_id := last_processed_trade_id w;
     disk := disk w; conn := d; in_transaction := txn;
     CURRENT_TIMESTAMP := CURRENT_TIMESTAMP w |}.

(** [conn.commit()] *)
Definition commit : M unit := fun w =>
  (Ok tt, {| last_processed_trade_id := last_processed_trade_id w;
             disk := conn w; conn := conn w; in_transaction := false;
             CURRENT_TIMESTAMP := CURRENT_TIMESTAMP w |}).

Definition rollback (w : world) : world := set_conn (disk w) false w.

(** [with sqlite3.connect(self.analytics_db) as conn: body]: a fresh
    connection on the file; on leaving the block the pending transaction is
    committed, or rolled back when the block raised. *)
Definition with_connect {A} (body : M A) : M A := fun w =>
  match body (set_conn (disk w) false w) with
  | (Ok a, w') => (Ok a, snd (commit w'))
  | (Raise e, w') => (Raise e, rollback w')
  end.

(** [self.last_processed_trade_id = v] *)
Definition set_last_processed_trade_id (v : option Z) : M unit := fun w =>
  (Ok tt, {| last_processed_trade_id := v;
             disk := disk w; conn := conn w;
             in_transaction := in_transaction w;
             CURRENT_TIMESTAMP := CURRENT_TIMESTAMP w |}).

Definition get_self_last_processed_trade_id : M (option Z) :=
  fun w => (Ok (last_processed_trade_id w), w).

(** *** Statements *)

Definition no_such_table (name : string) : string :=
  "no such table: " +:+ name.

Definition unique_failed (name : string) : string :=
  "UNIQUE constraint failed: " +:+ name.

(** [SELECT ... FROM trades]: the rows of the trade store. *)
Definition select_trades : M (list trade) := fun w =>
  match trades (conn w) with
  | Some ts => (Ok ts, w)
  | None => (Raise (no_such_table "trades"), w)
  end.

Definition select_snapshots : M (list snapshot) := fun w =>
  match analysis_snapshots (conn w) with
  | Some ss => (Ok ss, w)
  | None => (Raise (no_such_table "analysis_snapshots"), w)
  end.

Definition set_table (name : string) (t : table) (d : database) : database :=
  {| trades := trades d; analysis_snapshots := analysis_snapshots d;
     analytics := <[name := t]> (analytics d) |}.

Definition set_snapshots (ss : list snapshot) (d : database) : database :=
  {| trades := trades d; analysis_snapshots := Some ss;
     analytics := analytics d |}.

(** [DELETE FROM name WHERE p]; a data-changing statement opens the
    transaction when none is pending. *)
Definition execute_delete (name : string) (p : row -> bool) : M unit := fun w =>
  match analytics (conn w) !! name with
  | Some t =>
      (Ok tt, set_conn (set_table name (List.filter (fun r => negb (p r)) t) (conn w)) true w)
  | None => (Raise (no_such_table name), w)
  end.

(** The rows of one [INSERT], taken in order; a row colliding with one
    already there makes the statement fail. *)
Fixpoint insert_rows (ucs : list (list nat)) (name : string)
    (new : list row) (t : table) : res table :=
  match new with
  | [] => Ok t
  | r :: rs =>
      if existsb (conflicts ucs r) t then Raise (unique_failed name)
      else insert_rows ucs name rs (t ++ [r])
  end.

(** [INSERT OR REPLACE]: the rows a new row collides with are deleted,
    then the new row is inserted. *)
Definition replace_row (ucs : list (list nat)) (t : table) (r : row) : table :=
  List.filter (fun x => negb (conflicts ucs r x)) t ++ [r].

Definition replace_rows (ucs : list (list nat)) (new : list row) (t : table)
  : table :=
  fold_left (replace_row ucs) new t.

(** [INSERT INTO name (...) VALUES ...]: the statement is atomic, so a
    collision leaves the table as it was (the transaction stays open). *)
Definition execute_insert (ucs : list (list nat)) (name : string)
    (new : list row) : M unit := fun w =>
  match analytics (conn w) !! name with
  | Some t =>
      match insert_rows ucs name new t with
      | Ok t' => (Ok tt, set_conn (set_table name t' (conn w)) true w)
      | Raise e => (Raise e, set_conn (conn w) true w)
      end
  | None => (Raise (no_such_table name), w)
  end.

Definition execute_insert_or_replace (ucs : list (list nat)) (name : string)
    (new : list row) : M unit := fun w =>
  match analytics (conn w) !! name with
  | Some t =>
      (Ok tt, set_conn (set_table name (replace_rows ucs new t) (conn w)) true w)
  | None => (Raise (no_such_table name), w)
  end.

(** [INSERT INTO name (...) SELECT ... FROM trades ...]: [q] is the
    [SELECT], a function of the trade store and of [CURRENT_TIMESTAMP]. *)
Definition execute_insert_select (ucs : list (list nat)) (name : string)
    (q : list trade -> string -> list row) : M unit := fun w =>
  match analytics (conn w) !! name, trades (conn w) with
  | None, _ => (Raise (no_such_table name), w)
  | Some _, None => (Raise (no_such_table "trades"), w)
  | Some _, Some ts => execute_insert ucs name (q ts (CURRENT_TIMESTAMP w)) w
  end.

Definition execute_insert_or_replace_select (ucs : list (list nat))
    (name : string) (q : list trade -> string -> list row) : M unit := fun w =>
  match analytics (conn w) !! name, trades (conn w) with
  | None, _ => (Raise (no_such_table name), w)
  | Some _, None => (Raise (no_such_table "trades"), w)
  | Some _, Some ts =>
      execute_insert_or_replace ucs name (q ts (CURRENT_TIMESTAMP w)) w
  end.

(** [cursor.lastrowid] of the next insert. *)
Definition next_rowid (ss : list snapshot) : Z :=
  1 + fold_right Z.max 0 (map snapshot_id ss).

(** [INSERT INTO analysis_snapshots (snapshot_type, records_processed,
    status, last_trade_id) VALUES (?, ?, ?, ?)], returning
    [cursor.lastrowid]. *)
Definition insert_snapshot (ty : string) (n : Z) (st : string)
    (last : option Z) : M Z := fun w =>
  match analysis_snapshots (conn w) with
  | Some ss =>
      let i := next_rowid ss in
      let s := {| snapshot_id := i; snapshot_type := ty;
                  records_processed := n; status := st;
                  last_trade_id := last; error_message := None |} in
      (Ok i, set_conn (set_snapshots (ss ++ [s]) (conn w)) true w)
  | None => (Raise (no_such_table "analysis_snapshots"), w)
  end.

(** [UPDATE analysis_snapshots SET ... WHERE id = i] *)
Definition update_snapshot (i : Z) (f : snapshot -> snapshot) : M unit :=
  fun w =>
  match analysis_snapshots (conn w) with
  | Some ss =>
      (Ok tt,
       set_conn (set_snapshots
                   (map (fun s => if Z.eqb (snapshot_id s) i then f s else s) ss)
                   (conn w)) true w)
  | None => (Raise (no_such_table "analysis_snapshots"), w)
  end.

Definition mark_completed (last : option Z) (s : snapshot) : snapshot :=
  {| snapshot_id := snapshot_id s; snapshot_type := snapshot_type s;
     records_processed := records_processed s; status := "completed";
     last_trade_id := last; error_message := error_message s |}.

Definition mark_failed (e : string) (s : snapshot) : snapshot :=
  {| snapshot_id := snapshot_id s; snapshot_type := snapshot_type s;
     records_processed := records_processed s; status := "failed";
     last_trade_id := last_trade_id s; error_message := Some e |}.

(** ** Column expressions shared by the derivations *)

(** [CASE WHEN profit_pct > 0 THEN 1.0 ELSE 0.0 END] *)
Definition win (t : trade) : Q := if Qlt_bool 0 (profit_pct t) then 1%Q else 0%Q.

(** [CASE WHEN profit_pct > 0 THEN 1 ELSE 0 END] and its complement
    [CASE WHEN profit_pct <= 0 THEN 1 ELSE 0 END] *)
Definition win_i (t : trade) : Z := if Qlt_bool 0 (profit_pct t) then 1 else 0.
Definition loss_i (t : trade) : Z := if Qle_bool (profit_pct t) 0 then 1 else 0.

Definition win_rate (g : list trade) : option Q := AVG (map win g).

(** The non-[NULL] durations of a group, as [AVG(trade_duration)] sees them. *)
Definition durations (g : list trade) : list Z := omap trade_duration g.
Definition avg_duration (g : list trade) : option Q :=
  AVG (map inject_Z (durations g)).

(** [exit_reason = 'stop_loss'] *)
Definition stop_loss_hit (t : trade) : bool :=
  bool_decide (exit_reason t = "stop_loss").

(** [CASE WHEN exit_reason = 'stop_loss' THEN 1 ELSE 0 END] *)
Definition sl_i (t : trade) : Z := if stop_loss_hit t then 1 else 0.

(** [CASE WHEN profit_abs < 0 THEN ABS(profit_abs) ELSE 0 END] *)
Definition loss_abs (t : trade) : Q :=
  if Qlt_bool (profit_abs t) 0 then ABS (profit_abs t) else 0%Q.

(** [CASE WHEN profit_abs > 0 THEN profit_abs ELSE 0 END] *)
Definition gain_abs (t : trade) : Q :=
  if Qlt_bool 0 (profit_abs t) then profit_abs t else 0%Q.

(** [CASE WHEN exit_reason = 'stop_loss' AND profit_abs < 0
         THEN ABS(profit_abs) ELSE 0 END] *)
Definition sl_loss_abs (t : trade) : Q :=
  if stop_loss_hit t && Qlt_bool (profit_abs t) 0 then ABS (profit_abs t)
  else 0%Q.

(** [CASE WHEN exit_reason = 'stop_loss' AND profit_pct > -10
         THEN 1 ELSE 0 END] *)
Definition sl_contained_i (t : trade) : Z :=
  if stop_loss_hit t && Qlt_bool (-10) (profit_pct t) then 1 else 0.

Definition to_real (x : option Z) : option Q :=
  match x with Some z => Some (inject_Z z) | None => None end.

(** The profit factor of the strategy table. *)
Definition profit_factor (g : list trade) : option Q :=
  if sql_gt (SUM (map loss_abs g)) 0
  then sql_div (SUM (map gain_abs g)) (SUM (map loss_abs g))
  else Some 0%Q.

(** The stop-loss effectiveness of the overall risk row. *)
Definition stop_loss_effectiveness_pct (g : list trade) : option Q :=
  if sql_gt (to_real (SUMi (map sl_i g))) 0
  then sql_mul (sql_div (SUM (map sl_loss_abs g))
                        (NULLIF (SUM (map loss_abs g)) 0))
               (Some 100%Q)
  else Some 0%Q.

(** The stop-loss effectiveness score of the per-pair stop-loss table. *)
Definition sl_effectiveness_pct (g : list trade) : option Q :=
  if sql_gt (to_real (SUMi (map sl_i g))) 0
  then sql_mul (sql_div (sql_mul (to_real (SUMi (map sl_contained_i g)))
                                 (Some 1%Q))
                        (to_real (SUMi (map sl_i g))))
               (Some 100%Q)
  else Some 0%Q.

(** [SQRT(AVG(profit_pct * profit_pct) - AVG(profit_pct) * AVG(profit_pct))] *)
Definition stdev_pct (SQRT : Q -> Q) (g : list trade) : option Q :=
  option_map SQRT
    (sql_sub (AVG (map (fun t => profit_pct t * profit_pct t)%Q g))
             (sql_mul (AVG (map profit_pct g)) (AVG (map profit_pct g)))).

(** The volatility proxy of the pair table. *)
Definition volatility (SQRT : Q -> Q) (g : list trade) : option Q :=
  if 1 <? COUNT g then stdev_pct SQRT g else Some 0%Q.

(** A nullable text, and the way it is stored. *)
Definition text_or_null (x : option string) : value :=
  match x with Some s => TEXT s | None => NULL end.

(** The bucket of a duration in minutes. *)
Definition duration_category (trade_duration : Z) : string :=
  if trade_duration <=? 60 then "scalp"
  else if trade_duration <=? 480 then "short_term"
  else if trade_duration <=? 1440 then "day_trade"
  else "swing_trade".

(** The overall health status of the bot, and the tag of its worst loss. *)
Definition health_status (win_rate avg_profit_pct : Q) : string :=
  if Qle_bool (7 # 10) win_rate && Qle_bool (1 # 2) avg_profit_pct then "HEALTHY"
  else if Qle_bool (1 # 2) win_rate && Qle_bool 0 avg_profit_pct then "WARNING"
  else "CRITICAL".

Definition worst_loss_status (worst_loss : Q) : string :=
  if Qlt_bool (-20) worst_loss then "HEALTHY" else "WARNING".

(** [WHERE trade_id > ? AND is_open = 0], the parameter being the
    watermark; against [None] the comparison is [NULL] and selects nothing. *)
Definition new_closed (watermark : option Z) (ts : list trade) : list trade :=
  List.filter
    (fun t => match watermark with
              | Some w => (w <? trade_id t) && negb (is_open t)
              | None => false
              end) ts.

(** [SELECT MAX(trade_id) FROM trades WHERE is_open = 0] *)
Definition max_closed_trade_id (ts : list trade) : option Z :=
  MAXi (map trade_id (closed ts)).

(** [SELECT MAX(last_trade_id) FROM analysis_snapshots
     WHERE status = 'completed'] *)
Definition completed (ss : list snapshot) : list snapshot :=
  List.filter (fun s => bool_decide (status s = "completed")) ss.

Definition max_completed_trade_id (ss : list snapshot) : option Z :=
  MAXi (omap last_trade_id (completed ss)).

(** [for x in l: f x] *)
Fixpoint for_each {A} (f : A -> M unit) (l : list A) : M unit :=
  match l with
  | [] => ret tt
  | x :: xs => f x ;; for_each f xs
  end.

Definition current_timestamp : M string :=
  fun w => (Ok (CURRENT_TIMESTAMP w), w).

(** The rows the bot-health derivation inserts, one [INSERT] each. *)
Definition health_metrics (total_trades : Z) (win_rate avg_profit_pct : Q)
    (total_profit : option Q) (worst_loss : Q) (best_win : option Q)
    (now : string) : list row :=
  let status := health_status win_rate avg_profit_pct in
  [ [TEXT "overall_win_rate"; REAL (win_rate * 100)%Q; TEXT "%"; TEXT status;
     REAL 60%Q; REAL 40%Q; TEXT now; TEXT now];
    [TEXT "avg_profit_pct"; REAL avg_profit_pct; TEXT "%"; TEXT status;
     REAL (1 # 2)%Q; REAL 0%Q; TEXT now; TEXT now];
    [TEXT "total_trades"; INTEGER total_trades; TEXT "count"; TEXT "HEALTHY";
     NULL; NULL; TEXT now; TEXT now];
    [TEXT "total_profit"; num total_profit; TEXT "abs"; TEXT status;
     NULL; NULL; TEXT now; TEXT now];
    [TEXT "worst_loss"; REAL worst_loss; TEXT "%";
     TEXT (worst_loss_status worst_loss); REAL (-10)%Q; REAL (-20)%Q;
     TEXT now; TEXT now];
    [TEXT "best_win"; num best_win; TEXT "%"; TEXT "HEALTHY";
     NULL; NULL; TEXT now; TEXT now] ].

(** [SELECT COUNT( * ), AVG(win), AVG(profit_pct), SUM(profit_abs),
     MIN(profit_pct), MAX(profit_pct) FROM trades WHERE is_open = 0], and
    the Python that follows it, up to the list [health_metrics]; comparing
    [None] with a number is a [TypeError]. *)
Definition bot_health_rows (ts : list trade) (now : string) : res (list row) :=
  let stats := closed ts in
  if 0 <? COUNT stats then
    match win_rate stats, AVG (map profit_pct stats),
          MIN (map profit_pct stats) with
    | Some wr, Some ap, Some worst_loss =>
        Ok (health_metrics (COUNT stats) wr ap (SUM (map profit_abs stats))
              worst_loss (MAX (map profit_pct stats)) now)
    | _, _, _ =>
        Raise "'>=' not supported between instances of 'NoneType' and 'float'"
    end
  else Ok [].

(** ** [trading_analytics_automation_final.py] *)
Module Final.
Section Engine.

(** The [UNIQUE] constraints of each analytics table, and SQLite's [SQRT]. *)
Variable UNIQUE : string -> list (list nat).
Variable SQRT : Q -> Q.

(** *** 1. Performance rankings *)

Definition ranking_row (now : string) (x : Z * (string * list trade)) : row :=
  let g := snd (snd x) in
  [ TEXT "by_pair"; TEXT (fst (snd x)); TEXT "trading_pair";
    num (AVG (map profit_ratio g)); num (AVG (map profit_pct g));
    num (SUM (map profit_abs g)); INTEGER (COUNT g); num (win_rate g);
    num (avg_duration g); num (MAX (map profit_pct g));
    num (MIN (map profit_pct g)); num (SUM (map stake_amount g));
    INTEGER (fst x); TEXT now ].

Definition performance_rankings_select (ts : list trade) (now : string)
  : list row :=
  map (ranking_row now)
      (ROW_NUMBER
         (order_by_desc (fun kg => AVG (map profit_pct (snd kg)))
            (group_by pair (closed ts)))).

Definition update_performance_rankings : M unit :=
  execute_delete "performance_rankings"
    (fun r => value_eqb (col 0 r) (TEXT "by_pair")) ;;
  execute_insert_select (UNIQUE "performance_rankings") "performance_rankings"
    performance_rankings_select.

(** *** 2. Risk metrics *)

Definition risk_metrics_select (ts : list trade) (now : string) : list row :=
  let g := closed ts in
  [ [ TEXT "overall"; int (SUMi (map sl_i g));
      num (stop_loss_effectiveness_pct g); REAL 0%Q;
      num (MIN (map profit_pct g)); TEXT now ] ].

Definition update_risk_metrics : M unit :=
  execute_delete "risk_metrics"
    (fun r => value_eqb (col 0 r) (TEXT "overall")) ;;
  execute_insert_select (UNIQUE "risk_metrics") "risk_metrics"
    risk_metrics_select.

(** *** 3. Strategy performance *)

Definition strategy_row (now : string) (kg : string * list trade) : row :=
  let g := snd kg in
  [ TEXT (fst kg); INTEGER (COUNT g); int (SUMi (map win_i g));
    int (SUMi (map loss_i g)); num (win_rate g); num (AVG (map profit_pct g));
    num (SUM (map profit_abs g)); num (profit_factor g);
    num (sql_mul (AVG (map profit_pct g)) (win_rate g));
    num (MAX (map profit_pct g)); num (MIN (map profit_pct g));
    REAL (1 # 2)%Q; num (avg_duration g); TEXT now ].

Definition strategy_performance_select (ts : list trade) (now : string)
  : list row :=
  map (strategy_row now) (group_by strategy (closed ts)).

Definition update_strategy_performance : M unit :=
  execute_delete "strategy_performance" (fun _ => true) ;;
  execute_insert_select (UNIQUE "strategy_performance") "strategy_performance"
    strategy_performance_select.

(** *** 4. Timing analysis *)

(** [WHERE is_open = 0 AND open_date IS NOT NULL] *)
Definition dated (ts : list trade) : list trade :=
  List.filter (fun t => bool_decide (is_Some (open_date t))) (closed ts).

(** The hourly query: groups by [strftime('%H', open_date)], ordered by
    mean profit, best first. *)
Definition hourly_data (ts : list trade) : list (option Z * list trade) :=
  order_by_desc (fun kg => AVG (map profit_pct (snd kg)))
    (group_by (fun t => option_map hour_of (open_date t)) (dated ts)).

(** [int(h) if h else 0] on the hour column of a row. *)
Definition hour_or_0 (h : option Z) : Z :=
  match h with Some h => h | None => 0 end.

Definition period_type (t : trade) : string :=
  match option_map weekday_of (open_date t) with
  | Some 0 | Some 6 => "weekend"
  | _ => "weekday"
  end.

Definition period_data (ts : list trade) : list (string * option Q) :=
  map (fun kg => (fst kg, AVG (map profit_pct (snd kg))))
      (group_by period_type (dated ts)).

(** [next((row[1] for row in period_data if row[0] == p), 0.0)] *)
Definition period_perf (p : string) (rows : list (string * option Q))
  : option Q :=
  match List.find (fun r => bool_decide (fst r = p)) rows with
  | Some r => snd r
  | None => Some 0%Q
  end.

Definition timing_params (ts : list trade) : Z * Z * option Q * option Q :=
  match hourly_data ts with
  | [] => (0, 0, Some 0%Q, Some 0%Q)
  | first :: rest =>
      (hour_or_0 (fst first), hour_or_0 (fst (List.last rest first)),
       period_perf "weekend" (period_data ts),
       period_perf "weekday" (period_data ts))
  end.

Definition timing_analysis_select (params : Z * Z * option Q * option Q)
    (ts : list trade) (now : string) : list row :=
  let g := closed ts in
  let '(best_hour, worst_hour, weekend_perf, weekday_perf) := params in
  [ [ TEXT "overall"; INTEGER (COUNT g); num (win_rate g);
      num (AVG (map profit_pct g)); num (SUM (map profit_abs g));
      INTEGER best_hour; INTEGER worst_hour; num weekend_perf;
      num weekday_perf; num (avg_duration g); TEXT now ] ].

Definition update_timing_analysis : M unit :=
  execute_delete "timing_analysis" (fun _ => true) ;;
  ts <- select_trades ;;
  execute_insert_select (UNIQUE "timing_analysis") "timing_analysis"
    (timing_analysis_select (timing_params ts)).

(** *** 5. Pair analytics *)

Definition pair_key (t : trade) : string * string * string :=
  (pair t, base_currency t, quote_currency t).

Definition pair_row (now : string) (kg : string * string * string * list trade)
  : row :=
  let g := snd kg in
  [ TEXT (fst (fst (fst kg))); TEXT (snd (fst (fst kg))); TEXT (snd (fst kg));
    INTEGER (COUNT g); int (SUMi (map win_i g)); int (SUMi (map loss_i g));
    num (win_rate g); num (AVG (map profit_pct g));
    num (SUM (map profit_abs g)); num (avg_duration g);
    num (volatility SQRT g); TEXT now ].

Definition pair_analytics_select (ts : list trade) (now : string) : list row :=
  map (pair_row now) (group_by pair_key (closed ts)).

Definition update_pair_analytics : M unit :=
  execute_delete "pair_analytics" (fun _ => true) ;;
  execute_insert_select (UNIQUE "pair_analytics") "pair_analytics"
    pair_analytics_select.

(** *** 6. Stop-loss analytics *)

(** [WHERE is_open = 0 AND stop_loss_pct IS NOT NULL] *)
Definition with_stop_loss (ts : list trade) : list trade :=
  List.filter (fun t => bool_decide (is_Some (stop_loss_pct t))) (closed ts).

Definition stop_loss_row (now : string) (kg : string * list trade) : row :=
  let g := snd kg in
  [ TEXT "by_pair"; TEXT (fst kg); num (AVG (omap stop_loss_pct g));
    INTEGER (COUNT g); int (SUMi (map sl_i g)); num (sl_effectiveness_pct g);
    num (AVG (map profit_pct (List.filter stop_loss_hit g)));
    num (AVG (map profit_pct (List.filter (fun t => negb (stop_loss_hit t)) g)));
    TEXT now ].

Definition stop_loss_analytics_select (ts : list trade) (now : string)
  : list row :=
  map (stop_loss_row now) (group_by pair (with_stop_loss ts)).

Definition update_stop_loss_analytics : M unit :=
  execute_delete "stop_loss_analytics" (fun _ => true) ;;
  execute_insert_select (UNIQUE "stop_loss_analytics") "stop_loss_analytics"
    stop_loss_analytics_select.

(** *** 7. Duration patterns *)

(** [WHERE is_open = 0 AND trade_duration IS NOT NULL] *)
Definition timed (ts : list trade) : list trade :=
  List.filter (fun t => bool_decide (is_Some (trade_duration t))) (closed ts).

Definition category_of (t : trade) : option string :=
  option_map duration_category (trade_duration t).

Definition duration_row (now : string) (kg : option string * list trade) : row :=
  let g := snd kg in
  [ TEXT "duration_based"; text_or_null (fst kg);
    int (MINi (durations g)); int (MAXi (durations g)); INTEGER (COUNT g);
    num (win_rate g); num (AVG (map profit_pct g));
    num (SUM (map profit_abs g)); num (avg_duration g); TEXT now ].

Definition duration_patterns_select (ts : list trade) (now : string)
  : list row :=
  map (duration_row now) (group_by category_of (timed ts)).

Definition update_duration_patterns : M unit :=
  execute_delete "duration_patterns" (fun _ => true) ;;
  execute_insert_select (UNIQUE "duration_patterns") "duration_patterns"
    duration_patterns_select.

(** *** 8. Bot health metrics *)

Definition update_bot_health_metrics : M unit :=
  execute_delete "bot_health_metrics" (fun _ => true) ;;
  ts <- select_trades ;;
  now <- current_timestamp ;;
  match bot_health_rows ts now with
  | Ok rows =>
      for_each (fun r => execute_insert (UNIQUE "bot_health_metrics")
                           "bot_health_metrics" [r]) rows
  | Raise e => raise e
  end.

(** *** The checkpoint, the detector and the cycle *)

Definition get_last_processed_trade_id : M Z :=
  try_except
    (with_connect
       (ss <- select_snapshots ;;
        match max_completed_trade_id ss with
        | Some r => if Z.eqb r 0 then ret 0 else ret r
        | None => ret 0
        end))
    (fun _ => ret 0).

(** [__init__] *)
Definition init : M unit :=
  v <- get_last_processed_trade_id ;;
  set_last_processed_trade_id (Some v).

Definition update_all : M unit :=
  update_performance_rankings ;;
  update_risk_metrics ;;
  update_strategy_performance ;;
  update_timing_analysis ;;
  update_pair_analytics ;;
  update_stop_loss_analytics ;;
  update_duration_patterns ;;
  update_bot_health_metrics.

Definition process_new_trades (trade_count : Z) : M unit :=
  try_except
    (with_connect
       (ts <- select_trades ;;
        let max_trade_id := max_closed_trade_id ts in
        snapshot_id <- insert_snapshot "automated_analysis" trade_count
                         "processing" max_trade_id ;;
        try_except
          (update_all ;;
           set_last_processed_trade_id max_trade_id ;;
           last <- get_self_last_processed_trade_id ;;
           update_snapshot snapshot_id (mark_completed last) ;;
           commit)
          (fun e =>
             update_snapshot snapshot_id (mark_failed e) ;;
             commit ;;
             raise e)))
    (fun _ => ret tt).

(** The block under [with] in [check_for_new_trades]. *)
Definition check_block : M bool :=
  ts <- select_trades ;;
  watermark <- get_self_last_processed_trade_id ;;
  let count := COUNT (new_closed watermark ts) in
  if 0 <? count
  then process_new_trades count ;; ret true
  else ret false.

Definition check_for_new_trades : M bool :=
  try_except (with_connect check_block) (fun _ => ret false).

Definition run_scheduled_analysis : M unit :=
  check_for_new_trades ;; ret tt.

End Engine.
End Final.

(** ** [trading_analytics_automation_fixed.py] *)
Module Fixed.
Section Engine.

Variable UNIQUE : string -> list (list nat).
Variable SQRT : Q -> Q.

(** *** 1. Performance rankings: the [SELECT] of the other file, written
    with [INSERT OR REPLACE] and no [DELETE] *)

Definition performance_rankings_select (ts : list trade) (now : string)
  : list row :=
  map (Final.ranking_row now)
      (ROW_NUMBER
         (order_by_desc (fun kg => AVG (map profit_pct (snd kg)))
            (group_by pair (closed ts)))).

Definition update_performance_rankings : M unit :=
  execute_insert_or_replace_select (UNIQUE "performance_rankings")
    "performance_rankings" performance_rankings_select.

(** *** 2. Risk metrics *)

(** [CASE WHEN AVG(profit_pct) != 0 AND (SELECT COUNT( * ) ...) > 1
     THEN AVG(profit_pct) / NULLIF(SQRT(...), 0) ELSE 0 END] *)
Definition sharpe_ratio (g : list trade) : option Q :=
  if sql_ne (AVG (map profit_pct g)) 0 && (1 <? COUNT g)
  then sql_div (AVG (map profit_pct g)) (NULLIF (stdev_pct SQRT g) 0)
  else Some 0%Q.

(** [WHERE is_open = 0 AND close_date IS NOT NULL] *)
Definition settled (ts : list trade) : list trade :=
  List.filter (fun t => bool_decide (is_Some (close_date t))) (closed ts).

Definition not_after (t u : trade) : bool :=
  match close_date u, close_date t with
  | Some a, Some b => a <=? b
  | _, _ => false
  end.

(** [SUM(profit_abs) OVER (ORDER BY close_date)]: at each row, the sum
    over the rows that do not come after it. *)
Definition running_total (l : list trade) : list Q :=
  map (fun t => total (map profit_abs (List.filter (not_after t) l))) l.

Definition risk_metrics_select (ts : list trade) (now : string) : list row :=
  let g := closed ts in
  [ [ TEXT "overall"; int (SUMi (map sl_i g));
      num (stop_loss_effectiveness_pct g); num (sharpe_ratio g);
      num (MIN (running_total (settled ts))); TEXT now ] ].

Definition update_risk_metrics : M unit :=
  execute_insert_or_replace_select (UNIQUE "risk_metrics") "risk_metrics"
    risk_metrics_select.

(** *** 3. Strategy performance *)

(** [CASE WHEN AVG(ABS(profit_pct)) > 0
     THEN 1.0 - (SQRT(...) / AVG(ABS(profit_pct))) ELSE 0 END] *)
Definition consistency_score (g : list trade) : option Q :=
  if sql_gt (AVG (map (fun t => ABS (profit_pct t)) g)) 0
  then sql_sub (Some 1%Q)
         (sql_div (stdev_pct SQRT g)
                  (AVG (map (fun t => ABS (profit_pct t)) g)))
  else Some 0%Q.

Definition strategy_row (now : string) (kg : string * list trade) : row :=
  let g := snd kg in
  [ TEXT (fst kg); INTEGER (COUNT g); int (SUMi (map win_i g));
    int (SUMi (map loss_i g)); num (win_rate g); num (AVG (map profit_pct g));
    num (SUM (map profit_abs g)); num (profit_factor g);
    num (sql_mul (AVG (map profit_pct g)) (win_rate g));
    num (MAX (map profit_pct g)); num (MIN (map profit_pct g));
    num (consistency_score g); num (avg_duration g); TEXT now ].

Definition strategy_performance_select (ts : list trade) (now : string)
  : list row :=
  map (strategy_row now) (group_by strategy (closed ts)).

Definition update_strategy_performance : M unit :=
  execute_insert_or_replace_select (UNIQUE "strategy_performance")
    "strategy_performance" strategy_performance_select.

(** *** 4. Timing analysis *)

Definition dated (ts : list trade) : list trade :=
  List.filter (fun t => bool_decide (is_Some (open_date t))) (closed ts).

(** The text [strftime('%H', d)] returns. *)
Definition two_digits (h : Z) : string :=
  String (Ascii.ascii_of_nat (48 + Z.to_nat (h / 10)))
    (String (Ascii.ascii_of_nat (48 + Z.to_nat (h mod 10))) EmptyString).

Definition hour_row (now : string) (kg : option Z * list trade) : row :=
  let g := snd kg in
  [ TEXT "hour_of_day"; text_or_null (option_map two_digits (fst kg));
    INTEGER (COUNT g); num (AVG (map profit_pct g)); num (win_rate g);
    TEXT now ].

Definition hour_of_day_select (ts : list trade) (now : string) : list row :=
  map (hour_row now)
      (group_by (fun t => option_map hour_of (open_date t)) (dated ts)).

(** [CASE strftime('%w', open_date) WHEN '0' THEN 'Sunday' ... END] *)
Definition day_name (w : option Z) : option string :=
  match w with
  | Some 0 => Some "Sunday"
  | Some 1 => Some "Monday"
  | Some 2 => Some "Tuesday"
  | Some 3 => Some "Wednesday"
  | Some 4 => Some "Thursday"
  | Some 5 => Some "Friday"
  | Some 6 => Some "Saturday"
  | _ => None
  end.

Definition day_row (now : string) (kg : option Z * list trade) : row :=
  let g := snd kg in
  [ TEXT "day_of_week"; text_or_null (day_name (fst kg));
    INTEGER (COUNT g); num (AVG (map profit_pct g)); num (win_rate g);
    TEXT now ].

Definition day_of_week_select (ts : list trade) (now : string) : list row :=
  map (day_row now)
      (group_by (fun t => option_map weekday_of (open_date t)) (dated ts)).

Definition update_timing_analysis : M unit :=
  execute_insert_or_replace_select (UNIQUE "timing_analysis")
    "timing_analysis" hour_of_day_select ;;
  execute_insert_or_replace_select (UNIQUE "timing_analysis")
    "timing_analysis" day_of_week_select.

(** *** 5. Pair analytics *)

Definition pair_row (now : string) (kg : string * list trade) : row :=
  let g := snd kg in
  [ TEXT (fst kg); INTEGER (COUNT g); num (SUM (map profit_abs g));
    num (AVG (map profit_pct g)); num (win_rate g); num (avg_duration g);
    num (volatility SQRT g); TEXT now ].

Definition pair_analytics_select (ts : list trade) (now : string) : list row :=
  map (pair_row now) (group_by pair (closed ts)).

Definition update_pair_analytics : M unit :=
  execute_insert_or_replace_select (UNIQUE "pair_analytics") "pair_analytics"
    pair_analytics_select.

(** *** 6. Stop-loss analytics *)

Definition stop_loss_row (now : string) (kg : string * list trade) : row :=
  let g := snd kg in
  [ TEXT (fst kg); INTEGER (COUNT g); int (SUMi (map sl_i g));
    num (AVG (map (fun t => inject_Z (sl_i t)) g));
    num (AVG (map profit_pct (List.filter stop_loss_hit g)));
    num (sl_effectiveness_pct g); TEXT now ].

Definition stop_loss_analytics_select (ts : list trade) (now : string)
  : list row :=
  map (stop_loss_row now) (group_by pair (closed ts)).

Definition update_stop_loss_analytics : M unit :=
  execute_insert_or_replace_select (UNIQUE "stop_loss_analytics")
    "stop_loss_analytics" stop_loss_analytics_select.

(** *** 7. Duration patterns *)

Definition duration_row (now : string) (kg : option string * list trade) : row :=
  let g := snd kg in
  [ text_or_null (fst kg); INTEGER (COUNT g); num (AVG (map profit_pct g));
    num (win_rate g); num (avg_duration g); TEXT now ].

Definition duration_patterns_select (ts : list trade) (now : string)
  : list row :=
  map (duration_row now) (group_by Final.category_of (Final.timed ts)).

Definition update_duration_patterns : M unit :=
  execute_insert_or_replace_select (UNIQUE "duration_patterns")
    "duration_patterns" duration_patterns_select.

(** *** 8. Bot health metrics *)

Definition update_bot_health_metrics : M unit :=
  ts <- select_trades ;;
  now <- current_timestamp ;;
  match bot_health_rows ts now with
  | Ok rows =>
      for_each (fun r => execute_insert_or_replace (UNIQUE "bot_health_metrics")
                           "bot_health_metrics" [r]) rows
  | Raise e => raise e
  end.

(** *** The checkpoint, the detector and the cycle *)

Definition get_last_processed_trade_id : M Z :=
  try_except
    (with_connect
       (ss <- select_snapshots ;;
        match max_completed_trade_id ss with
        | Some r => if Z.eqb r 0 then ret 0 else ret r
        | None => ret 0
        end))
    (fun _ => ret 0).

Definition init : M unit :=
  v <- get_last_processed_trade_id ;;
  set_last_processed_trade_id (Some v).

Definition update_all : M unit :=
  update_performance_rankings ;;
  update_risk_metrics ;;
  update_strategy_performance ;;
  update_timing_analysis ;;
  update_pair_analytics ;;
  update_stop_loss_analytics ;;
  update_duration_patterns ;;
  update_bot_health_metrics.

(** [max([trade[0] for trade in new_trades])] *)
Definition py_max (new_trades : list trade) : M Z :=
  match MAXi (map trade_id new_trades) with
  | Some m => ret m
  | None => raise "max() arg is an empty sequence"
  end.

Definition process_new_trades (new_trades : list trade) : M unit :=
  try_except
    (with_connect
       (target <- py_max new_trades ;;
        snapshot_id <- insert_snapshot "automated_analysis" (COUNT new_trades)
                         "processing" (Some target) ;;
        try_except
          (update_all ;;
           m <- py_max new_trades ;;
           set_last_processed_trade_id (Some m) ;;
           last <- get_self_last_processed_trade_id ;;
           update_snapshot snapshot_id (mark_completed last) ;;
           commit)
          (fun e =>
             update_snapshot snapshot_id (mark_failed e) ;;
             commit ;;
             raise e)))
    (fun _ => ret tt).

(** The block under [with] in [check_for_new_trades]; [ORDER BY trade_id]
    orders rows of which only the number and the greatest id are used. *)
Definition check_block : M bool :=
  ts <- select_trades ;;
  watermark <- get_self_last_processed_trade_id ;;
  let new_trades := new_closed watermark ts in
  match new_trades with
  | [] => ret false
  | _ :: _ => process_new_trades new_trades ;; ret true
  end.

Definition check_for_new_trades : M bool :=
  try_except (with_connect check_block) (fun _ => ret false).

Definition run_scheduled_analysis : M unit :=
  check_for_new_trades ;; ret tt.

End Engine.
End Fixed.

(** ** Vocabulary of the statements *)

(** The two source files. *)
Inductive version := final | fixed.

Definition cycle_of (U : string -> list (list nat)) (S : Q -> Q) (v : version)
  : M bool :=
  match v with
  | final => Final.check_for_new_trades U S
  | fixed => Fixed.check_for_new_trades U S
  end.

Definition update_all_of (U : string -> list (list nat)) (S : Q -> Q)
    (v : version) : M unit :=
  match v with
  | final => Final.update_all U S
  | fixed => Fixed.update_all U S
  end.

Definition read_watermark_of (v : version) : M Z :=
  match v with
  | final => Final.get_last_processed_trade_id
  | fixed => Fixed.get_last_processed_trade_id
  end.

(** The block a cycle runs on its connection, under [with]. *)
Definition check_block_of (U : string -> list (list nat)) (S : Q -> Q)
    (v : version) : M bool :=
  match v with
  | final => Final.check_block U S
  | fixed => Fixed.check_block U S
  end.

(** The checkpoint a cycle aims at: the greatest closed id of the store in
    one file, the greatest id among the new trades in the other. *)
Definition target_of (v : version) (watermark : option Z) (ts : list trade)
  : option Z :=
  match v with
  | final => max_closed_trade_id ts
  | fixed => MAXi (map trade_id (new_closed watermark ts))
  end.

(** A world whose connection is fresh: nothing pending. *)
Definition idle (w : world) : world := set_conn (disk w) false w.

(** What a statement on the analytics tables leaves alone. *)
Definition frame (w w' : world) : Prop :=
  last_processed_trade_id w' = last_processed_trade_id w /\
  disk w' = disk w /\
  trades (conn w') = trades (conn w) /\
  analysis_snapshots (conn w') = analysis_snapshots (conn w) /\
  CURRENT_TIMESTAMP w' = CURRENT_TIMESTAMP w.

Definition analytics_only {A} (m : M A) : Prop :=
  forall w, frame w (snd (m w)) /\ forall e, fst (m w) = Raise e -> e <> EmptyString.

(** The snapshot row a cycle inserts, and the world in which its eight
    derivations start. *)
Definition attempt (ss : list snapshot) (n : Z) (target : option Z) : snapshot :=
  {| snapshot_id := next_rowid ss; snapshot_type := "automated_analysis";
     records_processed := n; status := "processing";
     last_trade_id := target; error_message := None |}.

Definition opening (w : world) (n : Z) (target : option Z) : world :=
  snd (insert_snapshot "automated_analysis" n "processing" target
         (set_conn (disk w) false w)).

(** The world a cycle leaves once the snapshot log [ss] and the tables the
    connection holds in [wf] are committed. *)
Definition settled_world (last : option Z) (ss : list snapshot) (wf : world)
  : world :=
  {| last_processed_trade_id := last;
     disk := set_snapshots ss (conn wf);
     conn := set_snapshots ss (conn wf);
     in_transaction := false;
     CURRENT_TIMESTAMP := CURRENT_TIMESTAMP wf |}.

(** The greatest [last_trade_id] of a completed snapshot, 0 without one. *)
Definition greatest_completed (d : database) : Z :=
  match analysis_snapshots d with
  | Some ss => match max_completed_trade_id ss with Some r => r | None => 0 end
  | None => 0
  end.

(** The persisted checkpoint: what reading the watermark returns. *)
Definition checkpoint (w : world) : Z :=
  match fst (Final.get_last_processed_trade_id w) with
  | Ok v => v
  | Raise _ => 0
  end.

(** The completed snapshot inserted last. *)
Definition most_recent_completed (ss : list snapshot) : option snapshot :=
  List.last (map Some (completed ss)) None.

(** Reading the watermark as the specification words it: the
    [last_trade_id] of the completed snapshot inserted last. *)
Definition reads_most_recent_completed (v : version) (w : world) : Prop :=
  forall ss s z,
    analysis_snapshots (disk w) = Some ss ->
    most_recent_completed ss = Some s ->
    last_trade_id s = Some z ->
    fst (read_watermark_of v w) = Ok z.

(** ** Worked examples *)

(** A schema without [UNIQUE] constraints. *)
Definition no_unique : string -> list (list nat) := fun _ => [].

(** A stand-in for SQLite's [SQRT] in the examples: the square root
    rounded down to six decimals. *)
Definition sqrt6 (q : Q) : Q :=
  Z.sqrt (Qnum q * Zpos (Qden q) * 1000000000000) # (Qden q * 1000000).

Definition log_entry (i : Z) (st : string) (last : option Z) : snapshot :=
  {| snapshot_id := i; snapshot_type := "automated_analysis";
     records_processed := 1; status := st; last_trade_id := last;
     error_message := None |}.

Definition table_names : list string :=
  [ "performance_rankings"; "risk_metrics"; "strategy_performance";
    "timing_analysis"; "pair_analytics"; "stop_loss_analytics";
    "duration_patterns"; "bot_health_metrics" ].

Definition empty_tables : gmap string (list (list value)) :=
  list_to_map (map (fun n => (n, [])) table_names).

Definition world_of (last : option Z) (d : database) : world :=
  {| last_processed_trade_id := last; disk := d; conn := d;
     in_transaction := false; CURRENT_TIMESTAMP := "2024-01-01 00:00:00" |}.

(** A log whose later completed snapshot targets a smaller id. *)
Definition log_out_of_order : world :=
  world_of None
    {| trades := Some [];
       analysis_snapshots :=
         Some [log_entry 1 "completed" (Some 10); log_entry 2 "completed" (Some 5)];
       analytics := empty_tables |}.

(** A log in order, closed by a failed attempt. *)
Definition log_in_order : world :=
  world_of None
    {| trades := Some [];
       analysis_snapshots :=
         Some [log_entry 1 "completed" (Some 4); log_entry 2 "completed" (Some 7);
               log_entry 3 "failed" (Some 9)];
       analytics := empty_tables |}.

(** ** Runs of the scheduler *)

(** What happens between two looks at the engine: the scheduler runs a
    cycle, the trading system rewrites the trade table, or time passes. *)
Inductive event :=
| tick
| trade_store (ts : option (list trade))
| clock (now : string).

Definition set_trades (ts : option (list trade)) (d : database) : database :=
  {| trades := ts; analysis_snapshots := analysis_snapshots d;
     analytics := analytics d |}.

Definition step (U : string -> list (list nat)) (S : Q -> Q) (v : version)
    (w : world) (ev : event) : world :=
  match ev with
  | tick => snd (cycle_of U S v w)
  | trade_store ts =>
      {| last_processed_trade_id := last_processed_trade_id w;
         disk := set_trades ts (disk w); conn := conn w;
         in_transaction := in_transaction w;
         CURRENT_TIMESTAMP := CURRENT_TIMESTAMP w |}
  | clock now =>
      {| last_processed_trade_id := last_processed_trade_id w;
         disk := disk w; conn := conn w;
         in_transaction := in_transaction w;
         CURRENT_TIMESTAMP := now |}
  end.

Definition run (U : string -> list (list nat)) (S : Q -> Q) (v : version)
    (evs : list event) (w : world) : world :=
  fold_left (step U S v) evs w.

(** The automator as [__init__] leaves it on a database. *)
Definition init_of (v : version) : M unit :=
  match v with
  | final => Final.init
  | fixed => Fixed.init
  end.

Definition started (v : version) (d : database) (now : string) : world :=
  snd (init_of v
         {| last_processed_trade_id := None; disk := d; conn := d;
            in_transaction := false; CURRENT_TIMESTAMP := now |}).



(** A closed trade on [base]/USD. *)
Definition sample_trade (i : Z) (base : string) (pct : Q) (minutes : Z)
  : trade :=
  {| trade_id := i; pair := base +:+ "/USD"; base_currency := base;
     quote_currency := "USD"; strategy := "trend"; stake_amount := 100%Q;
     profit_ratio := (pct / 100)%Q; profit_pct := pct; profit_abs := pct;
     open_date := Some (86400 * i); close_date := Some (86400 * i + 60 * minutes);
     trade_duration := Some minutes; exit_reason := "roi";
     stop_loss_pct := Some (-10)%Q; is_open := false |}.

(** Three closed trades on one pair: +5, -3, +2. *)
Definition three_trades : list trade :=
  [ sample_trade 1 "BTC" 5%Q 30; sample_trade 2 "BTC" (-3)%Q 200;
    sample_trade 3 "BTC" 2%Q 1000 ].

(** A fresh database holding them, and the same without the table
    [bot_health_metrics]. *)
Definition fresh_db : database :=
  {| trades := Some three_trades; analysis_snapshots := Some [];
     analytics := empty_tables |}.

Definition broken_db : database :=
  {| trades := Some three_trades; analysis_snapshots := Some [];
     analytics := delete "bot_health_metrics" empty_tables |}.

(** ** A pair leaves the trade store *)

(** A schema for the column layout of [Fixed], each table [UNIQUE] on its
    group-key columns: the type and the name for the rankings and the
    timing rows, the first column elsewhere. *)
Definition keyed (name : string) : list (list nat) :=
  if String.eqb name "performance_rankings" then [[0; 1]%nat]
  else if String.eqb name "timing_analysis" then [[0; 1]%nat]
  else [[0%nat]].

(** Two closed trades on two pairs; then the trading system prunes the
    ETH trade and closes another BTC trade. *)
Definition two_pairs : list trade :=
  [ sample_trade 1 "ETH" 1%Q 30; sample_trade 2 "BTC" 5%Q 30 ].

Definition pruned : list trade :=
  [ sample_trade 2 "BTC" 5%Q 30; sample_trade 3 "BTC" 2%Q 30 ].

Definition two_pairs_db : database :=
  {| trades := Some two_pairs; analysis_snapshots := Some [];
     analytics := empty_tables |}.

(** A cycle, the rewrite of the trade store, a second cycle. *)
Definition pruning : list event :=
  [ tick; trade_store (Some pruned); tick ].

Definition after_pruning (U : string -> list (list nat)) (v : version)
  : world :=
  run U sqrt6 v pruning (started v two_pairs_db "t").

(** The values of column [c] in the table [name], top to bottom. *)
Definition column (c : nat) (name : string) (w : world)
  : option (list value) :=
  option_map (map (col c)) (analytics (disk w) !! name).

(** One row per group key of the current computation: no key twice, and
    the keys in the table are those of the current groups. *)
Definition one_row_per_key {K} (current found : list K) : Prop :=
  NoDup found /\ forall k, In k found <-> In k current.

(** The status column of the snapshot log, oldest first. *)
Definition statuses (w : world) : option (list string) :=
  option_map (map status) (analysis_snapshots (disk w)).

(** The pairs of the current recomputation after the pruning. *)
Definition current_pairs : list value :=
  map (fun kg => TEXT (fst kg)) (group_by pair (closed pruned)).

(** A database whose trade table is missing. *)
Definition no_trades_db : database :=
  {| trades := None; analysis_snapshots := Some [];
     analytics := empty_tables |}.

(** One winning trade that no stop-loss closed. *)
Definition one_win : list trade := [ sample_trade 1 "BTC" 5%Q 30 ].

(** A derivation that, whenever it succeeds, sets the table [name] to
    [f old ts now] -- [old] the rows it found there, [ts] the trade store,
    [now] the clock -- and leaves the other tables, the trade store and the
    clock as they were. *)
Definition rewrites (m : M unit) (name : string)
    (f : table -> list trade -> string -> table) : Prop :=
  forall w w',
    m w = (Ok tt, w') ->
    exists old ts,
      analytics (conn w) !! name = Some old /\
      trades (conn w) = Some ts /\
      analytics (conn w') = <[name := f old ts (CURRENT_TIMESTAMP w)]> (analytics (conn w)) /\
      trades (conn w') = Some ts /\
      CURRENT_TIMESTAMP w' = CURRENT_TIMESTAMP w.

(** The rows a [DELETE ... WHERE p] leaves. *)
Definition kept (p : row -> bool) (old : table) : table :=
  List.filter (fun r => negb (p r)) old.

(** The table [name] of [d] holds, among its rows selected by [pick], one
    row per key of [current], [key] reading the key of a row. *)
Definition table_keyed {V} (d : database) (name : string) (pick : row -> bool)
    (key : row -> V) (current : list V) : Prop :=
  exists t, analytics d !! name = Some t /\
            one_row_per_key current (map key (List.filter pick t)).

(** [WHERE <first column> = ty] *)
Definition of_type (ty : string) (r : row) : bool :=
  value_eqb (col 0 r) (TEXT ty).

Definition every_row (r : row) : bool := true.

(** The engine of [Final] after its first cycle on the two pairs and the
    pruning of the ETH trade, about to run its second cycle. *)
Definition before_second_cycle : world :=
  run no_unique sqrt6 final [tick; trade_store (Some pruned)]
    (started final two_pairs_db "t").

Definition log_of (w : world) : list snapshot :=
  match analysis_snapshots (disk w) with Some ss => ss | None => [] end.

(** A snapshot as a cycle leaves it: completed at a target and without
    error message, or failed with the text of the exception. *)
Definition finished (s : snapshot) : Prop :=
  snapshot_type s = "automated_analysis" /\
  (status s = "completed" /\ error_message s = None /\
     (exists m, last_trade_id s = Some m) \/
   status s = "failed" /\
     exists e, error_message s = Some e /\ e <> EmptyString).

(** The operator creates the table [name], empty, between two cycles. *)
Definition create_table (name : string) (w : world) : world :=
  {| last_processed_trade_id := last_processed_trade_id w;
     disk := set_table name [] (disk w);
     conn := set_table name [] (conn w);
     in_transaction := in_transaction w;
     CURRENT_TIMESTAMP := CURRENT_TIMESTAMP w |}.

(** The rows of [old] whose key, read by [k], is the key of no row of
    [new]: the rows an [INSERT OR REPLACE] of [new] leaves in place. *)
Definition stale {K} `{EqDecision K} (k : row -> K) (new old : list row)
  : list row :=
  List.filter (fun x => negb (bool_decide (k x ∈ map k new))) old.

(** A derivation that cannot fail once its table and the trade table
    exist: it sets the table [name] to [f old ts now] and leaves the other
    tables, the trade store and the clock as they were. *)
Definition upserts (m : M unit) (name : string)
    (f : table -> list trade -> string -> table) : Prop :=
  forall w old ts,
    analytics (conn w) !! name = Some old ->
    trades (conn w) = Some ts ->
    exists w',
      m w = (Ok tt, w') /\
      analytics (conn w') =
        <[name := f old ts (CURRENT_TIMESTAMP w)]> (analytics (conn w)) /\
      trades (conn w') = Some ts /\
      CURRENT_TIMESTAMP w' = CURRENT_TIMESTAMP w.

(** The rows of the bot-health derivation, none when they cannot be
    computed. *)
Definition health_rows (ts : list trade) (now : string) : list row :=
  match bot_health_rows ts now with Ok rows => rows | Raise _ => [] end.

(** The eight analytics tables exist. *)
Definition has_tables (d : database) : Prop :=
  forall name, In name table_names -> is_Some (analytics d !! name).

(** Equality of stored values is decidable. *)
#[global] Instance Q_eq_dec : EqDecision Q.
Proof. solve_decision. Defined.

#[global] Instance value_eq_dec : EqDecision value.
Proof. solve_decision. Defined.

(** Between [d] and [d'] the table [name] went through an
    [INSERT OR REPLACE] of the rows [new] on the key [k]: the rows whose
    key is not among the new ones stayed, the rows [new] follow them, and
    no two of those share a key. *)
Definition upserted {K} `{EqDecision K} (d d' : database) (name : string)
    (k : row -> K) (new : list row) : Prop :=
  exists old,
    analytics d !! name = Some old /\
    analytics d' !! name = Some (stale k new old ++ new)%list /\
    NoDup (map k new).

(** The first column, and the first two columns, as the key of a row. *)
Definition key0 (r : row) : value := col 0 r.
Definition key01 (r : row) : value * value := (col 0 r, col 1 r).

(** [ORDER BY f DESC] as a property of a list: every row is no less than
    the rows after it, [NULL] counting as the least value. *)
Definition no_less {A} (f : A -> option Q) (x y : A) : Prop :=
  match f x, f y with
  | Some a, Some b => (b <= a)%Q
  | _, None => True
  | None, Some _ => False
  end.

Fixpoint descending {A} (f : A -> option Q) (l : list A) : Prop :=
  match l with
  | [] => True
  | x :: xs => Forall (no_less f x) xs /\ descending f xs
  end.

(** The number a [REAL] column holds. *)
Definition real_of (v : value) : option Q :=
  match v with REAL q => Some q | _ => None end.

(** The integer an [INTEGER] column holds, and the total of such a column
    over the rows of a table. *)
Definition int_of (v : value) : Z :=
  match v with INTEGER z => z | _ => 0 end.

Definition column_total (c : nat) (rows : list row) : Z :=
  fold_right Z.add 0 (map (fun r => int_of (col c r)) rows).

(** ** Vocabulary of the timing analysis *)

(** The mean profit pct of the dated closed trades opened in hour [h], and
    of those of one period type; [None] where there is no such trade. *)
Definition hour_mean (ts : list trade) (h : Z) : option Q :=
  AVG (map profit_pct
         (List.filter
            (fun t => bool_decide (option_map hour_of (open_date t) = Some h))
            (Final.dated ts))).

Definition period_mean (ts : list trade) (p : string) : option Q :=
  AVG (map profit_pct
         (List.filter (fun t => bool_decide (Final.period_type t = p))
            (Final.dated ts))).

(** [x] is the mean of period type [p] where a dated closed trade has that
    type, and 0 where none has. *)
Definition mean_or_zero (ts : list trade) (p : string) (x : option Q) : Prop :=
  ((exists t, In t (Final.dated ts) /\ Final.period_type t = p) ->
   x = period_mean ts p) /\
  ((forall t, In t (Final.dated ts) -> Final.period_type t <> p) ->
   x = Some 0%Q).

(** * Properties *)

Local Open Scope py_scope.





Lemma Qlt_bool_iff a b : Qlt_bool a b = true <-> (a < b)%Q.
Proof.
  unfold Qlt_bool. rewrite negb_true_iff. split.
  - intros H. apply Qnot_le_lt. intros Hle. apply Qle_bool_iff in Hle. congruence.
  - intros H. destruct (Qle_bool b a) eqn:E; [|reflexivity].
    apply Qle_bool_iff in E. exfalso. exact (Qlt_not_le _ _ H E).
Qed.

Lemma frame_refl w : frame w w.
Proof. unfold frame. auto. Qed.

Lemma frame_trans w1 w2 w3 : frame w1 w2 -> frame w2 w3 -> frame w1 w3.
Proof. unfold frame. intros (?&?&?&?&?) (?&?&?&?&?). repeat split; congruence. Qed.

Lemma frame_set_table w name t txn :
  frame w (set_conn (set_table name t (conn w)) txn w).
Proof. unfold frame. simpl. auto. Qed.

Lemma frame_set_txn w txn : frame w (set_conn (conn w) txn w).
Proof. unfold frame. simpl. auto. Qed.

Lemma no_such_table_nonempty name : no_such_table name <> EmptyString.
Proof. unfold no_such_table. simpl. discriminate. Qed.

Lemma unique_failed_nonempty name : unique_failed name <> EmptyString.
Proof. unfold unique_failed. simpl. discriminate. Qed.

Lemma insert_rows_raise ucs name new t e :
  insert_rows ucs name new t = Raise e -> e = unique_failed name.
Proof.
  revert t. induction new as [|r rs IH]; intros t; simpl.
  - discriminate.
  - destruct (existsb _ t); [congruence | apply IH].
Qed.

Lemma insert_rows_ok ucs name new t t' :
  insert_rows ucs name new t = Ok t' -> t' = (t ++ new)%list.
Proof.
  revert t. induction new as [|r rs IH]; intros t; simpl.
  - intros [= <-]. now rewrite app_nil_r.
  - destruct (existsb _ t); [discriminate|].
    intros H. apply IH in H. rewrite H, <- app_assoc. reflexivity.
Qed.

Lemma analytics_only_ret {A} (a : A) : analytics_only (ret a).
Proof. intros w. split; [apply frame_refl | discriminate]. Qed.

Lemma analytics_only_raise {A} e : e <> EmptyString -> analytics_only (@raise A e).
Proof. intros He w. split; [apply frame_refl | simpl; congruence]. Qed.

Lemma analytics_only_bind {A B} (m : M A) (k : A -> M B) :
  analytics_only m -> (forall a, analytics_only (k a)) -> analytics_only (bind m k).
Proof.
  intros Hm Hk w. unfold bind. destruct (Hm w) as [Hf He].
  destruct (m w) as [[a|e] w'] eqn:E; simpl in *.
  - destruct (Hk a w') as [Hf' He']. split; [eapply frame_trans; eauto | exact He'].
  - split; [exact Hf |]. intros e0 [= <-]. apply He. reflexivity.
Qed.

Lemma analytics_only_for_each {A} (f : A -> M unit) l :
  (forall a, analytics_only (f a)) -> analytics_only (for_each f l).
Proof.
  intros Hf. induction l as [|x xs IH]; simpl.
  - apply analytics_only_ret.
  - apply analytics_only_bind; auto.
Qed.

Lemma analytics_only_select_trades : analytics_only select_trades.
Proof.
  intros w. unfold select_trades. destruct (trades (conn w)); simpl.
  - split; [apply frame_refl | discriminate].
  - split; [apply frame_refl |]. intros e [= <-]. apply no_such_table_nonempty.
Qed.

Lemma analytics_only_current_timestamp : analytics_only current_timestamp.
Proof. intros w. split; [apply frame_refl | discriminate]. Qed.

Lemma analytics_only_execute_delete name p : analytics_only (execute_delete name p).
Proof.
  intros w. unfold execute_delete. destruct (analytics (conn w) !! name); simpl.
  - split; [apply frame_set_table | discriminate].
  - split; [apply frame_refl |]. intros e [= <-]. apply no_such_table_nonempty.
Qed.

Lemma analytics_only_execute_insert ucs name new : analytics_only (execute_insert ucs name new).
Proof.
  intros w. unfold execute_insert. destruct (analytics (conn w) !! name) as [t|]; simpl.
  - destruct (insert_rows ucs name new t) eqn:E; simpl.
    + split; [apply frame_set_table | discriminate].
    + split; [apply frame_set_txn |]. intros e' [= <-].
      apply insert_rows_raise in E. subst. apply unique_failed_nonempty.
  - split; [apply frame_refl |]. intros e [= <-]. apply no_such_table_nonempty.
Qed.

Lemma analytics_only_execute_insert_or_replace ucs name new :
  analytics_only (execute_insert_or_replace ucs name new).
Proof.
  intros w. unfold execute_insert_or_replace. destruct (analytics (conn w) !! name); simpl.
  - split; [apply frame_set_table | discriminate].
  - split; [apply frame_refl |]. intros e [= <-]. apply no_such_table_nonempty.
Qed.

Lemma analytics_only_execute_insert_select ucs name q :
  analytics_only (execute_insert_select ucs name q).
Proof.
  intros w. unfold execute_insert_select.
  destruct (analytics (conn w) !! name) eqn:E1; simpl.
  - destruct (trades (conn w)) eqn:E2.
    + apply analytics_only_execute_insert.
    + split; [apply frame_refl |]. intros e [= <-]. apply no_such_table_nonempty.
  - split; [apply frame_refl |]. intros e [= <-]. apply no_such_table_nonempty.
Qed.

Lemma analytics_only_execute_insert_or_replace_select ucs name q :
  analytics_only (execute_insert_or_replace_select ucs name q).
Proof.
  intros w. unfold execute_insert_or_replace_select.
  destruct (analytics (conn w) !! name) eqn:E1; simpl.
  - destruct (trades (conn w)) eqn:E2.
    + apply analytics_only_execute_insert_or_replace.
    + split; [apply frame_refl |]. intros e [= <-]. apply no_such_table_nonempty.
  - split; [apply frame_refl |]. intros e [= <-]. apply no_such_table_nonempty.
Qed.

Lemma bot_health_rows_raise ts now e : bot_health_rows ts now = Raise e -> e <> EmptyString.
Proof.
  unfold bot_health_rows. destruct (0 <? COUNT (closed ts)); [|discriminate].
  destruct (win_rate _); [|intros [= <-]; discriminate].
  destruct (AVG _); [|intros [= <-]; discriminate].
  destruct (MIN _); [discriminate | intros [= <-]; discriminate].
Qed.

Create HintDb frame_db.
#[export] Hint Resolve analytics_only_ret analytics_only_select_trades
  analytics_only_current_timestamp analytics_only_execute_delete
  analytics_only_execute_insert analytics_only_execute_insert_or_replace
  analytics_only_execute_insert_select
  analytics_only_execute_insert_or_replace_select : frame_db.

Ltac frame_tac :=
  repeat first
    [ apply analytics_only_bind; [|intros ?]
    | apply analytics_only_for_each; intros ?
    | solve [auto with frame_db]
    | match goal with
      | |- analytics_only (match bot_health_rows ?ts ?now with _ => _ end) =>
          let E := fresh "E" in
          destruct (bot_health_rows ts now) eqn:E;
          [| apply analytics_only_raise; eapply bot_health_rows_raise; eauto]
      end ].

Section Frames.
Variable UNIQUE : string -> list (list nat).
Variable SQRT : Q -> Q.

Lemma final_bot_health_only : analytics_only (Final.update_bot_health_metrics UNIQUE).
Proof.
  unfold Final.update_bot_health_metrics. frame_tac.
Qed.

Lemma final_update_all_only : analytics_only (Final.update_all UNIQUE SQRT).
Proof.
  unfold Final.update_all, Final.update_performance_rankings, Final.update_risk_metrics,
    Final.update_strategy_performance, Final.update_timing_analysis,
    Final.update_pair_analytics, Final.update_stop_loss_analytics,
    Final.update_duration_patterns.
  frame_tac.
Qed.

Lemma fixed_bot_health_only : analytics_only (Fixed.update_bot_health_metrics UNIQUE).
Proof.
  unfold Fixed.update_bot_health_metrics. frame_tac.
Qed.

Lemma fixed_update_all_only : analytics_only (Fixed.update_all UNIQUE SQRT).
Proof.
  unfold Fixed.update_all, Fixed.update_performance_rankings, Fixed.update_risk_metrics,
    Fixed.update_strategy_performance, Fixed.update_timing_analysis,
    Fixed.update_pair_analytics, Fixed.update_stop_loss_analytics,
    Fixed.update_duration_patterns.
  frame_tac.
Qed.
End Frames.





Lemma next_rowid_fresh ss s : In s ss -> snapshot_id s < next_rowid ss.
Proof.
  unfold next_rowid. induction ss as [|a ss IH]; simpl; [tauto|].
  intros [<-|H]; [lia|]. specialize (IH H). lia.
Qed.

Lemma update_last_only ss a f :
  snapshot_id a = next_rowid ss ->
  map (fun s => if Z.eqb (snapshot_id s) (next_rowid ss) then f s else s)
      (ss ++ [a]) = (ss ++ [f a])%list.
Proof.
  intros Ha. rewrite map_app. simpl. rewrite Ha, Z.eqb_refl. f_equal.
  rewrite <- (map_id ss) at 2. apply map_ext_in. intros s Hs.
  apply next_rowid_fresh in Hs. destruct (Z.eqb_spec (snapshot_id s) (next_rowid ss)); [lia|reflexivity].
Qed.

Section FinalCycle.
Variable UNIQUE : string -> list (list nat).
Variable SQRT : Q -> Q.

Lemma final_process_failed w n ts ss e wf :
  trades (disk w) = Some ts ->
  analysis_snapshots (disk w) = Some ss ->
  Final.update_all UNIQUE SQRT (opening w n (max_closed_trade_id ts)) = (Raise e, wf) ->
  Final.process_new_trades UNIQUE SQRT n w =
    (Ok tt, settled_world (last_processed_trade_id w)
              (ss ++ [mark_failed e (attempt ss n (max_closed_trade_id ts))]) wf).
Proof.
  intros Ht Hs Hu.
  destruct (final_update_all_only UNIQUE SQRT (opening w n (max_closed_trade_id ts))) as [Hf _].
  rewrite Hu in Hf. simpl in Hf. destruct Hf as (Hl & Hd & Htr & Hsn & Hct).
  unfold opening, insert_snapshot in *. simpl in *. rewrite Hs in *. simpl in *.
  unfold Final.process_new_trades, try_except, with_connect, bind, select_trades,
    insert_snapshot. simpl. rewrite ?Ht; simpl. rewrite ?Hs; simpl.
  rewrite Hu. unfold update_snapshot. rewrite Hsn. simpl.
  rewrite (update_last_only ss (attempt ss n (max_closed_trade_id ts))) by reflexivity.
  unfold settled_world, rollback. simpl. rewrite Hl. reflexivity.
Qed.

Lemma final_process_completed w n ts ss wf :
  trades (disk w) = Some ts ->
  analysis_snapshots (disk w) = Some ss ->
  Final.update_all UNIQUE SQRT (opening w n (max_closed_trade_id ts)) = (Ok tt, wf) ->
  Final.process_new_trades UNIQUE SQRT n w =
    (Ok tt, settled_world (max_closed_trade_id ts)
              (ss ++ [mark_completed (max_closed_trade_id ts)
                        (attempt ss n (max_closed_trade_id ts))]) wf).
Proof.
  intros Ht Hs Hu.
  destruct (final_update_all_only UNIQUE SQRT (opening w n (max_closed_trade_id ts))) as [Hf _].
  rewrite Hu in Hf. simpl in Hf. destruct Hf as (Hl & Hd & Htr & Hsn & Hct).
  unfold opening, insert_snapshot in *. simpl in *. rewrite Hs in *. simpl in *.
  unfold Final.process_new_trades, try_except, with_connect, bind, select_trades,
    insert_snapshot. simpl. rewrite ?Ht; simpl. rewrite ?Hs; simpl.
  rewrite Hu. unfold update_snapshot. simpl. rewrite Hsn. simpl.
  rewrite (update_last_only ss (attempt ss n (max_closed_trade_id ts))) by reflexivity.
  reflexivity.
Qed.

Lemma final_process_no_log w n :
  analysis_snapshots (disk w) = None ->
  Final.process_new_trades UNIQUE SQRT n w = (Ok tt, idle w).
Proof.
  intros Hs.
  unfold Final.process_new_trades, try_except, with_connect, bind, select_trades,
    insert_snapshot. simpl. destruct (trades (disk w)); simpl; rewrite ?Hs; reflexivity.
Qed.

Lemma final_check_query_fails w :
  trades (disk w) = None ->
  Final.check_for_new_trades UNIQUE SQRT w = (Ok false, idle w).
Proof.
  intros Ht. unfold Final.check_for_new_trades, Final.check_block, try_except,
    with_connect, bind, select_trades. simpl. rewrite Ht. reflexivity.
Qed.

Lemma final_check_noop w ts :
  trades (disk w) = Some ts ->
  COUNT (new_closed (last_processed_trade_id w) ts) <= 0 ->
  Final.check_for_new_trades UNIQUE SQRT w = (Ok false, idle w) /\
  in_transaction (snd (Final.check_block UNIQUE SQRT (idle w))) = false.
Proof.
  intros Ht Hc. unfold Final.check_for_new_trades, Final.check_block, try_except,
    with_connect, bind, select_trades, get_self_last_processed_trade_id. simpl.
  rewrite Ht. simpl.
  destruct (Z.ltb_spec 0 (COUNT (new_closed (last_processed_trade_id w) ts))); [lia|].
  split; reflexivity.
Qed.

Lemma final_check_runs w ts r w1 :
  trades (disk w) = Some ts ->
  0 < COUNT (new_closed (last_processed_trade_id w) ts) ->
  Final.process_new_trades UNIQUE SQRT
    (COUNT (new_closed (last_processed_trade_id w) ts)) (idle w) = (Ok r, w1) ->
  Final.check_for_new_trades UNIQUE SQRT w = (Ok true, snd (commit w1)).
Proof.
  intros Ht Hc Hp. unfold Final.check_for_new_trades, Final.check_block, try_except,
    with_connect, bind, select_trades, get_self_last_processed_trade_id. simpl.
  rewrite Ht. simpl.
  destruct (Z.ltb_spec 0 (COUNT (new_closed (last_processed_trade_id w) ts))); [|lia].
  unfold idle in Hp. rewrite Hp. reflexivity.
Qed.

Lemma final_check_no_log w ts :
  trades (disk w) = Some ts ->
  0 < COUNT (new_closed (last_processed_trade_id w) ts) ->
  analysis_snapshots (disk w) = None ->
  Final.check_for_new_trades UNIQUE SQRT w = (Ok true, idle w).
Proof.
  intros Ht Hc Hs. erewrite final_check_runs; eauto.
  2: apply final_process_no_log; exact Hs. reflexivity.
Qed.

Lemma final_check_failed w ts ss e wf :
  let n := COUNT (new_closed (last_processed_trade_id w) ts) in
  trades (disk w) = Some ts ->
  0 < n ->
  analysis_snapshots (disk w) = Some ss ->
  Final.update_all UNIQUE SQRT (opening w n (max_closed_trade_id ts)) = (Raise e, wf) ->
  Final.check_for_new_trades UNIQUE SQRT w =
    (Ok true, settled_world (last_processed_trade_id w)
                (ss ++ [mark_failed e (attempt ss n (max_closed_trade_id ts))]) wf).
Proof.
  intros n Ht Hc Hs Hu. erewrite final_check_runs; eauto.
  2: apply (final_process_failed (idle w) n ts ss e wf); auto.
  reflexivity.
Qed.

Lemma final_check_completed w ts ss wf :
  let n := COUNT (new_closed (last_processed_trade_id w) ts) in
  trades (disk w) = Some ts ->
  0 < n ->
  analysis_snapshots (disk w) = Some ss ->
  Final.update_all UNIQUE SQRT (opening w n (max_closed_trade_id ts)) = (Ok tt, wf) ->
  Final.check_for_new_trades UNIQUE SQRT w =
    (Ok true, settled_world (max_closed_trade_id ts)
                (ss ++ [mark_completed (max_closed_trade_id ts)
                          (attempt ss n (max_closed_trade_id ts))]) wf).
Proof.
  intros n Ht Hc Hs Hu. erewrite final_check_runs; eauto.
  2: apply (final_process_completed (idle w) n ts ss wf); auto.
  reflexivity.
Qed.
End FinalCycle.


Section FixedCycle.
Variable UNIQUE : string -> list (list nat).
Variable SQRT : Q -> Q.

Lemma fixed_process_failed w new m ss e wf :
  MAXi (map trade_id new) = Some m ->
  analysis_snapshots (disk w) = Some ss ->
  Fixed.update_all UNIQUE SQRT (opening w (COUNT new) (Some m)) = (Raise e, wf) ->
  Fixed.process_new_trades UNIQUE SQRT new w =
    (Ok tt, settled_world (last_processed_trade_id w)
              (ss ++ [mark_failed e (attempt ss (COUNT new) (Some m))]) wf).
Proof.
  intros Hm Hs Hu.
  destruct (fixed_update_all_only UNIQUE SQRT (opening w (COUNT new) (Some m))) as [Hf _].
  rewrite Hu in Hf. simpl in Hf. destruct Hf as (Hl & Hd & Htr & Hsn & Hct).
  unfold opening, insert_snapshot in *. simpl in *. rewrite Hs in *. simpl in *.
  unfold Fixed.process_new_trades, Fixed.py_max, try_except, with_connect, bind,
    insert_snapshot. rewrite Hm. simpl. rewrite ?Hs; simpl.
  rewrite Hu. unfold update_snapshot. rewrite Hsn. simpl.
  rewrite (update_last_only ss (attempt ss (COUNT new) (Some m))) by reflexivity.
  unfold settled_world, rollback. simpl. rewrite Hl. reflexivity.
Qed.

Lemma fixed_process_completed w new m ss wf :
  MAXi (map trade_id new) = Some m ->
  analysis_snapshots (disk w) = Some ss ->
  Fixed.update_all UNIQUE SQRT (opening w (COUNT new) (Some m)) = (Ok tt, wf) ->
  Fixed.process_new_trades UNIQUE SQRT new w =
    (Ok tt, settled_world (Some m)
              (ss ++ [mark_completed (Some m) (attempt ss (COUNT new) (Some m))]) wf).
Proof.
  intros Hm Hs Hu.
  destruct (fixed_update_all_only UNIQUE SQRT (opening w (COUNT new) (Some m))) as [Hf _].
  rewrite Hu in Hf. simpl in Hf. destruct Hf as (Hl & Hd & Htr & Hsn & Hct).
  unfold opening, insert_snapshot in *. simpl in *. rewrite Hs in *. simpl in *.
  unfold Fixed.process_new_trades, Fixed.py_max, try_except, with_connect, bind,
    insert_snapshot. rewrite Hm. simpl. rewrite ?Hs; simpl.
  rewrite Hu. unfold update_snapshot. simpl. rewrite Hsn. simpl.
  rewrite (update_last_only ss (attempt ss (COUNT new) (Some m))) by reflexivity.
  reflexivity.
Qed.

Lemma fixed_process_no_log w new :
  analysis_snapshots (disk w) = None ->
  Fixed.process_new_trades UNIQUE SQRT new w = (Ok tt, idle w).
Proof.
  intros Hs.
  unfold Fixed.process_new_trades, Fixed.py_max, try_except, with_connect, bind,
    insert_snapshot.
  destruct (MAXi (map trade_id new)); simpl; rewrite ?Hs; reflexivity.
Qed.

Lemma fixed_check_query_fails w :
  trades (disk w) = None ->
  Fixed.check_for_new_trades UNIQUE SQRT w = (Ok false, idle w).
Proof.
  intros Ht. unfold Fixed.check_for_new_trades, Fixed.check_block, try_except,
    with_connect, bind, select_trades. simpl. rewrite Ht. reflexivity.
Qed.

Lemma fixed_check_noop w ts :
  trades (disk w) = Some ts ->
  new_closed (last_processed_trade_id w) ts = [] ->
  Fixed.check_for_new_trades UNIQUE SQRT w = (Ok false, idle w).
Proof.
  intros Ht Hc. unfold Fixed.check_for_new_trades, Fixed.check_block, try_except,
    with_connect, bind, select_trades, get_self_last_processed_trade_id. simpl.
  rewrite Ht. simpl. rewrite Hc. reflexivity.
Qed.

Lemma fixed_check_runs w ts r w1 :
  trades (disk w) = Some ts ->
  new_closed (last_processed_trade_id w) ts <> [] ->
  Fixed.process_new_trades UNIQUE SQRT
    (new_closed (last_processed_trade_id w) ts) (idle w) = (Ok r, w1) ->
  Fixed.check_for_new_trades UNIQUE SQRT w = (Ok true, snd (commit w1)).
Proof.
  intros Ht Hc Hp. unfold Fixed.check_for_new_trades, Fixed.check_block, try_except,
    with_connect, bind, select_trades, get_self_last_processed_trade_id. simpl.
  rewrite Ht. simpl.
  destruct (new_closed (last_processed_trade_id w) ts) eqn:E; [congruence|].
  unfold idle in Hp. rewrite Hp. reflexivity.
Qed.

Lemma fixed_check_no_log w ts :
  trades (disk w) = Some ts ->
  new_closed (last_processed_trade_id w) ts <> [] ->
  analysis_snapshots (disk w) = None ->
  Fixed.check_for_new_trades UNIQUE SQRT w = (Ok true, idle w).
Proof.
  intros Ht Hc Hs.
  pose proof (fixed_process_no_log (idle w)
                (new_closed (last_processed_trade_id w) ts) Hs) as Hp.
  rewrite (fixed_check_runs w ts tt _ Ht Hc Hp). reflexivity.
Qed.

Lemma fixed_check_failed w ts m ss e wf :
  let new := new_closed (last_processed_trade_id w) ts in
  trades (disk w) = Some ts ->
  MAXi (map trade_id new) = Some m ->
  analysis_snapshots (disk w) = Some ss ->
  Fixed.update_all UNIQUE SQRT (opening w (COUNT new) (Some m)) = (Raise e, wf) ->
  Fixed.check_for_new_trades UNIQUE SQRT w =
    (Ok true, settled_world (last_processed_trade_id w)
                (ss ++ [mark_failed e (attempt ss (COUNT new) (Some m))]) wf).
Proof.
  intros new Ht Hm Hs Hu.
  assert (Hne : new <> []) by (intros E; rewrite E in Hm; discriminate).
  pose proof (fixed_process_failed (idle w) new m ss e wf Hm Hs Hu) as Hp.
  rewrite (fixed_check_runs w ts tt _ Ht Hne Hp). reflexivity.
Qed.

Lemma fixed_check_completed w ts m ss wf :
  let new := new_closed (last_processed_trade_id w) ts in
  trades (disk w) = Some ts ->
  MAXi (map trade_id new) = Some m ->
  analysis_snapshots (disk w) = Some ss ->
  Fixed.update_all UNIQUE SQRT (opening w (COUNT new) (Some m)) = (Ok tt, wf) ->
  Fixed.check_for_new_trades UNIQUE SQRT w =
    (Ok true, settled_world (Some m)
                (ss ++ [mark_completed (Some m) (attempt ss (COUNT new) (Some m))]) wf).
Proof.
  intros new Ht Hm Hs Hu.
  assert (Hne : new <> []) by (intros E; rewrite E in Hm; discriminate).
  pose proof (fixed_process_completed (idle w) new m ss wf Hm Hs Hu) as Hp.
  rewrite (fixed_check_runs w ts tt _ Ht Hne Hp). reflexivity.
Qed.
End FixedCycle.


Lemma fold_max_ge l a : a <= fold_left Z.max l a.
Proof. revert a. induction l as [|x xs IH]; intros a; simpl; [lia|]. specialize (IH (Z.max a x)). lia. Qed.

Lemma fold_max_upper l a x : In x l -> x <= fold_left Z.max l a.
Proof.
  revert a. induction l as [|y ys IH]; intros a; simpl; [tauto|].
  intros [->|H]; [|apply IH; exact H].
  pose proof (fold_max_ge ys (Z.max a x)). lia.
Qed.

Lemma fold_max_attained l a : fold_left Z.max l a = a \/ In (fold_left Z.max l a) l.
Proof.
  revert a. induction l as [|y ys IH]; intros a; simpl; [auto|].
  destruct (IH (Z.max a y)) as [H|H]; [|auto].
  rewrite H. destruct (Z.max_spec a y) as [[_ ->]|[_ ->]]; auto.
Qed.

Lemma MAXi_upper l m x : MAXi l = Some m -> In x l -> x <= m.
Proof.
  destruct l as [|a l]; simpl; [discriminate|]. intros [= <-] [->|H].
  - apply fold_max_ge.
  - apply fold_max_upper; exact H.
Qed.

Lemma MAXi_attained l m : MAXi l = Some m -> In m l.
Proof.
  destruct l as [|a l]; simpl; [discriminate|]. intros [= <-].
  destruct (fold_max_attained l a) as [->|H]; auto.
Qed.

Lemma MAXi_nonempty l : l <> [] -> exists m, MAXi l = Some m.
Proof. destruct l; [congruence|]. simpl. eauto. Qed.


Lemma get_last_spec w :
  Final.get_last_processed_trade_id w = (Ok (greatest_completed (disk w)), idle w).
Proof.
  unfold Final.get_last_processed_trade_id, greatest_completed, try_except, with_connect,
    bind, select_snapshots. simpl.
  destruct (analysis_snapshots (disk w)) as [ss|]; simpl; [|reflexivity].
  destruct (max_completed_trade_id ss) as [r|]; simpl; [|reflexivity].
  destruct (Z.eqb_spec r 0); subst; reflexivity.
Qed.

Lemma fixed_get_last_spec w :
  Fixed.get_last_processed_trade_id w = (Ok (greatest_completed (disk w)), idle w).
Proof.
  unfold Fixed.get_last_processed_trade_id, greatest_completed, try_except, with_connect,
    bind, select_snapshots. simpl.
  destruct (analysis_snapshots (disk w)) as [ss|]; simpl; [|reflexivity].
  destruct (max_completed_trade_id ss) as [r|]; simpl; [|reflexivity].
  destruct (Z.eqb_spec r 0); subst; reflexivity.
Qed.

Lemma checkpoint_spec w : checkpoint w = greatest_completed (disk w).
Proof. unfold checkpoint. rewrite get_last_spec. reflexivity. Qed.

Lemma new_closed_spec wm ts t :
  In t (new_closed wm ts) <->
  In t ts /\ exists x, wm = Some x /\ x < trade_id t /\ is_open t = false.
Proof.
  unfold new_closed. rewrite filter_In. destruct wm as [x|].
  - rewrite andb_true_iff, Z.ltb_lt, negb_true_iff. split.
    + intros (H & H1 & H2). eauto 6.
    + intros (H & y & [= <-] & H1 & H2). auto.
  - split; [intros [_ H]; discriminate | intros (_ & y & H & _); discriminate].
Qed.

Lemma closed_spec ts t : In t (closed ts) <-> In t ts /\ is_open t = false.
Proof. unfold closed. rewrite filter_In, negb_true_iff. reflexivity. Qed.

Lemma caught_up ts m : max_closed_trade_id ts = Some m -> new_closed (Some m) ts = [].
Proof.
  intros Hm. destruct (new_closed (Some m) ts) as [|t l] eqn:E; [reflexivity|].
  assert (Ht : In t (new_closed (Some m) ts)) by (rewrite E; left; reflexivity).
  apply new_closed_spec in Ht. destruct Ht as (Hin & x & [= <-] & Hlt & Hop).
  assert (trade_id t <= m).
  { eapply MAXi_upper; [exact Hm|]. apply in_map. apply closed_spec. auto. }
  lia.
Qed.

Lemma new_trades_raise_target ts x :
  0 < COUNT (new_closed (Some x) ts) ->
  exists m, max_closed_trade_id ts = Some m /\ x < m /\
            MAXi (map trade_id (new_closed (Some x) ts)) = Some m.
Proof.
  intros Hc. destruct (new_closed (Some x) ts) as [|t l] eqn:E; [unfold COUNT in Hc; simpl in Hc; lia|].
  assert (Ht : In t (new_closed (Some x) ts)) by (rewrite E; left; reflexivity).
  pose proof Ht as Ht'. apply new_closed_spec in Ht'.
  destruct Ht' as (Hin & y & [= <-] & Hlt & Hop).
  assert (Hc' : In t (closed ts)) by (apply closed_spec; auto).
  destruct (MAXi_nonempty (map trade_id (closed ts))) as [m Hm].
  { intros H. apply map_eq_nil in H. rewrite H in Hc'. destruct Hc'. }
  exists m. split; [exact Hm|].
  assert (trade_id t <= m) by (eapply MAXi_upper; [exact Hm | apply in_map; exact Hc']).
  split; [lia|].
  destruct (MAXi_nonempty (map trade_id (t :: l))) as [m' Hm']; [discriminate|].
  rewrite Hm'. f_equal.
  pose proof (MAXi_attained _ _ Hm) as Ha. apply in_map_iff in Ha.
  destruct Ha as (tm & Htm & Hin_m). apply closed_spec in Hin_m.
  pose proof (MAXi_attained _ _ Hm') as Ha'. apply in_map_iff in Ha'.
  destruct Ha' as (tm' & Htm' & Hin_m'). rewrite <- E in Hin_m'.
  apply new_closed_spec in Hin_m'. destruct Hin_m' as (Hin' & y & [= <-] & Hlt' & Hop').
  assert (m' <= m).
  { rewrite <- Htm'. eapply MAXi_upper; [exact Hm|]. apply in_map. apply closed_spec. auto. }
  assert (m <= m').
  { rewrite <- Htm. eapply MAXi_upper; [exact Hm'|]. apply in_map. rewrite <- E.
    apply new_closed_spec. split; [tauto|]. exists x. repeat split; try tauto. lia. }
  lia.
Qed.

Section Claims.
Variable UNIQUE : string -> list (list nat).
Variable SQRT : Q -> Q.

(** C10.  When the query that looks for new closed trades raises, the
    cycle of either file catches the exception and returns [False]; the
    database on disk is what it was -- no snapshot row, no analytics
    write -- and the in-memory watermark keeps its value: nothing is
    reprocessed. *)
Theorem C10_failed_detection_reports_no_new_trades (v : version) (w : world) (e : string) :
  fst (select_trades (idle w)) = Raise e ->
  let r := cycle_of UNIQUE SQRT v w in
  fst r = Ok false /\
  disk (snd r) = disk w /\
  analysis_snapshots (disk (snd r)) = analysis_snapshots (disk w) /\
  analytics (disk (snd r)) = analytics (disk w) /\
  last_processed_trade_id (snd r) = last_processed_trade_id w.
Proof.
  intros Hq r.
  assert (Ht : trades (disk w) = None).
  { unfold select_trades in Hq. simpl in Hq. destruct (trades (disk w)); [discriminate|reflexivity]. }
  assert (Hr : r = (Ok false, idle w)).
  { subst r. destruct v; simpl.
    - apply final_check_query_fails; exact Ht.
    - apply fixed_check_query_fails; exact Ht. }
  rewrite Hr. simpl. auto.
Qed.

Lemma check_block_noop v w ts :
  trades (disk w) = Some ts ->
  new_closed (last_processed_trade_id w) ts = [] ->
  cycle_of UNIQUE SQRT v w = (Ok false, idle w) /\
  in_transaction (snd (check_block_of UNIQUE SQRT v (idle w))) = false.
Proof.
  intros Ht Hc. destruct v; simpl.
  - apply final_check_noop with (ts := ts); [exact Ht|].
    rewrite Hc. unfold COUNT. simpl. lia.
  - split; [apply fixed_check_noop with (ts := ts); assumption|].
    unfold Fixed.check_block, bind, select_trades,
      get_self_last_processed_trade_id. simpl. rewrite Ht. simpl.
    rewrite Hc. reflexivity.
Qed.

(** C4.  When the watermark is the greatest closed trade id of the store,
    no closed trade lies above it and the cycle of either file is a no-op:
    it returns [False], the block under [with] leaves no transaction open,
    and the database on disk -- snapshot log, analytics tables, persisted
    checkpoint -- and the in-memory watermark are what they were.  A second
    cycle right after it does the same, so the tables and the checkpoint
    after two cycles are those before the first. *)
Theorem C4_caught_up_cycle_is_a_noop (v : version) (w : world)
    (ts : list trade) (m : Z) :
  trades (disk w) = Some ts ->
  last_processed_trade_id w = Some m ->
  max_closed_trade_id ts = Some m ->
  let r1 := cycle_of UNIQUE SQRT v w in
  let r2 := cycle_of UNIQUE SQRT v (snd r1) in
  COUNT (new_closed (last_processed_trade_id w) ts) = 0 /\
  fst r1 = Ok false /\
  in_transaction (snd (check_block_of UNIQUE SQRT v (idle w))) = false /\
  in_transaction (snd r1) = false /\
  disk (snd r1) = disk w /\
  analysis_snapshots (disk (snd r1)) = analysis_snapshots (disk w) /\
  analytics (disk (snd r1)) = analytics (disk w) /\
  last_processed_trade_id (snd r1) = Some m /\
  checkpoint (snd r1) = checkpoint w /\
  fst r2 = Ok false /\
  disk (snd r2) = disk w /\
  analytics (disk (snd r2)) = analytics (disk w) /\
  last_processed_trade_id (snd r2) = Some m /\
  checkpoint (snd r2) = checkpoint w.
Proof.
  intros Ht Hl Hm r1 r2.
  assert (Hn : new_closed (last_processed_trade_id w) ts = []).
  { rewrite Hl. apply caught_up. exact Hm. }
  destruct (check_block_noop v w ts Ht Hn) as [H1 Htx].
  assert (Hr1 : r1 = (Ok false, idle w)) by exact H1.
  assert (Hr2 : r2 = (Ok false, idle w)).
  { subst r2. rewrite Hr1. simpl.
    destruct (check_block_noop v (idle w) ts Ht Hn) as [H2 _]. exact H2. }
  rewrite Hr1, Hr2, Hn. simpl. rewrite !checkpoint_spec. simpl.
  repeat split; auto.
Qed.

End Claims.

Section Watermark.

Lemma completed_spec ss s :
  In s (completed ss) <-> In s ss /\ status s = "completed".
Proof.
  unfold completed. rewrite filter_In, bool_decide_eq_true. reflexivity.
Qed.

Lemma In_omap {A B} (f : A -> option B) l y :
  In y (omap f l) <-> exists x, In x l /\ f x = Some y.
Proof.
  rewrite <- list_elem_of_In, list_elem_of_omap.
  split; intros (x & H1 & H2); exists x; split; auto; apply list_elem_of_In; auto.
Qed.

Lemma last_Some {A} (l : list A) x :
  List.last (map Some l) None = Some x -> exists l', l = (l' ++ [x])%list.
Proof.
  induction l as [|a l IH]; simpl; [discriminate|].
  destruct l as [|b l].
  - simpl. intros [= <-]. exists []. reflexivity.
  - intros H. destruct (IH H) as [l' Hl']. exists (a :: l'). rewrite Hl'. reflexivity.
Qed.

Lemma read_watermark_spec v w :
  read_watermark_of v w = (Ok (greatest_completed (disk w)), idle w).
Proof. destruct v; [apply get_last_spec | apply fixed_get_last_spec]. Qed.

(** C5 (as amended).  Reading the watermark never raises and leaves the
    database alone.  It returns the greatest [last_trade_id] among the
    snapshots with status [completed] -- an id no completed snapshot
    exceeds, and 0 or the id of one of them -- and 0 when the snapshot table
    cannot be queried or holds no completed snapshot.  It is the id of the
    most recent completed snapshot whenever no other completed snapshot
    carries a greater one. *)
Theorem C5_watermark_is_greatest_completed (v : version) (w : world) :
  exists z,
    fst (read_watermark_of v w) = Ok z /\
    disk (snd (read_watermark_of v w)) = disk w /\
    (forall ss s x,
        analysis_snapshots (disk w) = Some ss ->
        In s ss -> status s = "completed" -> last_trade_id s = Some x ->
        x <= z) /\
    (z = 0 \/
     exists ss s, analysis_snapshots (disk w) = Some ss /\ In s ss /\
                  status s = "completed" /\ last_trade_id s = Some z) /\
    (analysis_snapshots (disk w) = None -> z = 0) /\
    (forall ss, analysis_snapshots (disk w) = Some ss -> completed ss = [] ->
                z = 0) /\
    (forall ss s x,
        analysis_snapshots (disk w) = Some ss ->
        most_recent_completed ss = Some s ->
        last_trade_id s = Some x ->
        (forall s' x', In s' (completed ss) -> last_trade_id s' = Some x' ->
                       x' <= x) ->
        z = x).
Proof.
  exists (greatest_completed (disk w)). rewrite read_watermark_spec. simpl.
  unfold greatest_completed, max_completed_trade_id.
  split; [reflexivity|]. split; [reflexivity|].
  destruct (analysis_snapshots (disk w)) as [ss|] eqn:Hss.
  2:{ repeat split; try discriminate; auto. }
  destruct (MAXi (omap last_trade_id (completed ss))) as [m|] eqn:Hm.
  - pose proof (MAXi_attained _ _ Hm) as Ha. apply In_omap in Ha.
    destruct Ha as (sm & Hsm & Hlm). apply completed_spec in Hsm.
    repeat split.
    + intros ss' s x [= <-] Hin Hst Hl. eapply MAXi_upper; [exact Hm|].
      apply In_omap. exists s. split; [apply completed_spec|]; auto.
    + right. exists ss, sm. tauto.
    + discriminate.
    + intros ss' [= <-] Hc. rewrite Hc in Hm. discriminate.
    + intros ss' s x [= <-] Hr Hl Hub.
      apply last_Some in Hr. destruct Hr as [l' Hl'].
      assert (Hs : In s (completed ss)) by (rewrite Hl'; apply in_or_app; right; left; reflexivity).
      assert (x <= m) by (eapply MAXi_upper; [exact Hm | apply In_omap; eauto]).
      assert (m <= x) by (apply (Hub sm m); [apply completed_spec; tauto | exact Hlm]).
      lia.
  - assert (Hnone : forall s x, In s (completed ss) -> last_trade_id s = Some x -> False).
    { intros s x Hs Hl.
      assert (Hin : In x (omap last_trade_id (completed ss))) by (apply In_omap; eauto).
      destruct (omap last_trade_id (completed ss)); [destruct Hin | discriminate]. }
    repeat split; auto; try discriminate.
    + intros ss' s x [= <-] Hin Hst Hl. exfalso. eapply Hnone; [apply completed_spec|]; eauto.
    + intros ss' s x [= <-] Hr Hl _. exfalso.
      apply last_Some in Hr. destruct Hr as [l' Hl'].
      eapply Hnone; [|exact Hl]. rewrite Hl'. apply in_or_app. right. left. reflexivity.
Qed.

Lemma C5_watermark_is_greatest_completed_witness :
  fst (read_watermark_of final log_in_order) = Ok 7.
Proof.
  destruct (C5_watermark_is_greatest_completed final log_in_order)
    as (z & Hz & _ & _ & _ & _ & _ & Hlast).
  rewrite Hz. f_equal.
  apply (Hlast _ (log_entry 2 "completed" (Some 7)) 7 eq_refl eq_refl eq_refl).
  intros s' x' Hs' Hx'. simpl in Hs'.
  destruct Hs' as [<-|[<-|[]]]; simpl in Hx'; injection Hx' as <-; lia.
Defined.

(** C5 (as stated) fails: with completed snapshots targeting 10 and then 5,
    the most recent one says 5 and the watermark read is 10. *)
Lemma C5_counterexample :
  ~ reads_most_recent_completed final log_out_of_order /\
  ~ reads_most_recent_completed fixed log_out_of_order.
Proof.
  split; intros H;
    specialize (H _ (log_entry 2 "completed" (Some 5)) 5 eq_refl eq_refl eq_refl);
    vm_compute in H; discriminate.
Qed.

End Watermark.

Section Checkpoint.
Variable UNIQUE : string -> list (list nat).
Variable SQRT : Q -> Q.






(** The cases of a cycle, for either file. *)
Lemma cycle_query_fails v w :
  trades (disk w) = None -> cycle_of UNIQUE SQRT v w = (Ok false, idle w).
Proof.
  intros Ht. destruct v; simpl;
    [apply final_check_query_fails | apply fixed_check_query_fails]; exact Ht.
Qed.

Lemma cycle_idle v w ts :
  trades (disk w) = Some ts ->
  COUNT (new_closed (last_processed_trade_id w) ts) <= 0 ->
  cycle_of UNIQUE SQRT v w = (Ok false, idle w).
Proof.
  intros Ht Hc. destruct v; simpl.
  - apply (final_check_noop UNIQUE SQRT w ts Ht Hc).
  - apply fixed_check_noop with (ts := ts); [exact Ht|].
    destruct (new_closed (last_processed_trade_id w) ts); [reflexivity|].
    unfold COUNT in Hc. simpl in Hc. lia.
Qed.

Lemma COUNT_pos_nonempty {A} (l : list A) : 0 < COUNT l -> l <> [].
Proof. intros H ->. unfold COUNT in H. simpl in H. lia. Qed.

Lemma cycle_no_log v w ts :
  trades (disk w) = Some ts ->
  0 < COUNT (new_closed (last_processed_trade_id w) ts) ->
  analysis_snapshots (disk w) = None ->
  cycle_of UNIQUE SQRT v w = (Ok true, idle w).
Proof.
  intros Ht Hc Hs. destruct v; simpl.
  - apply final_check_no_log with (ts := ts); assumption.
  - apply fixed_check_no_log with (ts := ts); auto using COUNT_pos_nonempty.
Qed.

Lemma cycle_completed v w ts ss m wf :
  let n := COUNT (new_closed (last_processed_trade_id w) ts) in
  trades (disk w) = Some ts ->
  0 < n ->
  analysis_snapshots (disk w) = Some ss ->
  target_of v (last_processed_trade_id w) ts = Some m ->
  update_all_of UNIQUE SQRT v (opening w n (Some m)) = (Ok tt, wf) ->
  cycle_of UNIQUE SQRT v w =
    (Ok true, settled_world (Some m)
                (ss ++ [mark_completed (Some m) (attempt ss n (Some m))]) wf).
Proof.
  intros n Ht Hn Hs Htg Hu. destruct v; simpl in *.
  - rewrite <- Htg in *. apply final_check_completed; auto.
  - apply (fixed_check_completed UNIQUE SQRT w ts m ss wf); auto.
Qed.

Lemma cycle_raised v w ts ss m e wf :
  let n := COUNT (new_closed (last_processed_trade_id w) ts) in
  trades (disk w) = Some ts ->
  0 < n ->
  analysis_snapshots (disk w) = Some ss ->
  target_of v (last_processed_trade_id w) ts = Some m ->
  update_all_of UNIQUE SQRT v (opening w n (Some m)) = (Raise e, wf) ->
  cycle_of UNIQUE SQRT v w =
    (Ok true, settled_world (last_processed_trade_id w)
                (ss ++ [mark_failed e (attempt ss n (Some m))]) wf).
Proof.
  intros n Ht Hn Hs Htg Hu. destruct v; simpl in *.
  - rewrite <- Htg in *. apply final_check_failed; auto.
  - apply (fixed_check_failed UNIQUE SQRT w ts m ss e wf); auto.
Qed.





End Checkpoint.

Section FailedCycle.
Variable UNIQUE : string -> list (list nat).
Variable SQRT : Q -> Q.

Lemma update_all_of_only v : analytics_only (update_all_of UNIQUE SQRT v).
Proof. destruct v; [apply final_update_all_only | apply fixed_update_all_only]. Qed.

(** The cycle of either file when one of its derivations raises. *)
Lemma cycle_failed v w ts ss x e wf :
  let n := COUNT (new_closed (Some x) ts) in
  trades (disk w) = Some ts ->
  analysis_snapshots (disk w) = Some ss ->
  last_processed_trade_id w = Some x ->
  0 < n ->
  update_all_of UNIQUE SQRT v (opening w n (target_of v (Some x) ts))
  = (Raise e, wf) ->
  cycle_of UNIQUE SQRT v w =
    (Ok true,
     settled_world (Some x)
       (ss ++ [mark_failed e (attempt ss n (target_of v (Some x) ts))]) wf).
Proof.
  intros n Ht Hs Hx Hn Hu.
  destruct (new_trades_raise_target ts x Hn) as (m & Hm & Hxm & Hm').
  subst n. destruct v; simpl in *; rewrite <- Hx in *.
  - apply final_check_failed; auto.
  - rewrite Hm' in *.
    apply (fixed_check_failed UNIQUE SQRT w ts m ss e wf); auto.
Qed.

(** The tables a failed cycle commits are those its connection held when
    the derivation raised. *)
Lemma failed_cycle_commits_pending_writes v w ts ss x e wf :
  let n := COUNT (new_closed (Some x) ts) in
  trades (disk w) = Some ts ->
  analysis_snapshots (disk w) = Some ss ->
  last_processed_trade_id w = Some x ->
  0 < n ->
  update_all_of UNIQUE SQRT v (opening w n (target_of v (Some x) ts))
  = (Raise e, wf) ->
  analytics (disk (snd (cycle_of UNIQUE SQRT v w))) = analytics (conn wf).
Proof.
  intros n Ht Hs Hx Hn Hu.
  rewrite (cycle_failed v w ts ss x e wf Ht Hs Hx Hn Hu). reflexivity.
Qed.


End FailedCycle.




Section Formulas.
Variable SQRT : Q -> Q.

Lemma Qle_bool_false_iff a b : Qle_bool a b = false <-> (b < a)%Q.
Proof.
  split.
  - intros H. apply Qnot_le_lt. intros Hle. apply Qle_bool_iff in Hle. congruence.
  - intros H. destruct (Qle_bool a b) eqn:E; [|reflexivity].
    apply Qle_bool_iff in E. exfalso. exact (Qlt_not_le _ _ H E).
Qed.

Lemma bot_health_rows_spec ts now :
  0 < COUNT (closed ts) ->
  exists wr ap worst,
    win_rate (closed ts) = Some wr /\
    AVG (map profit_pct (closed ts)) = Some ap /\
    MIN (map profit_pct (closed ts)) = Some worst /\
    bot_health_rows ts now =
      Ok (health_metrics (COUNT (closed ts)) wr ap
            (SUM (map profit_abs (closed ts))) worst
            (MAX (map profit_pct (closed ts))) now).
Proof.
  intros Hc. unfold bot_health_rows.
  destruct (Z.ltb_spec 0 (COUNT (closed ts))) as [_|]; [|lia].
  destruct (closed ts) as [|t l]; [unfold COUNT in Hc; simpl in Hc; lia|].
  unfold win_rate. simpl. eexists _, _, _. repeat split.
Qed.


(** The boundary of C9: 0.70 and 0.5 are HEALTHY, 0.69 is WARNING. *)
Example health_status_boundary :
  health_status (7 # 10) (1 # 2) = "HEALTHY" /\
  health_status (69 # 100) (1 # 2) = "WARNING" /\
  health_status (69 # 100) (-1 # 2) = "CRITICAL".
Proof. repeat split. Qed.

(** *** Zero denominators *)

(** C7.  The profit factor is 0 when the losing volume of the group is
    absent or zero, the stop-loss effectiveness (of the overall risk row and
    of the per-pair stop-loss row) is 0 when the count of stop-loss exits is
    absent or zero, and the volatility proxy is 0 for a group of at most
    one trade: each is the number 0, not [NULL], and no evaluation fails.
    These are the expressions the rows of both files hold. *)
Theorem C7_zero_denominator_guards (g : list trade) (k : string)
    (k3 : string * string * string) (now : string) :
  ((forall s, SUM (map loss_abs g) = Some s -> (s == 0)%Q) ->
   profit_factor g = Some 0%Q) /\
  ((forall c, SUMi (map sl_i g) = Some c -> c = 0) ->
   stop_loss_effectiveness_pct g = Some 0%Q /\
   sl_effectiveness_pct g = Some 0%Q) /\
  (COUNT g <= 1 -> volatility SQRT g = Some 0%Q) /\
  col 7 (Final.strategy_row now (k, g)) = num (profit_factor g) /\
  col 7 (Fixed.strategy_row SQRT now (k, g)) = num (profit_factor g) /\
  col 5 (Final.stop_loss_row now (k, g)) = num (sl_effectiveness_pct g) /\
  col 5 (Fixed.stop_loss_row now (k, g)) = num (sl_effectiveness_pct g) /\
  col 10 (Final.pair_row SQRT now (k3, g)) = num (volatility SQRT g) /\
  col 6 (Fixed.pair_row SQRT now (k, g)) = num (volatility SQRT g) /\
  (forall ts, exists r,
      Final.risk_metrics_select ts now = [r] /\
      col 2 r = num (stop_loss_effectiveness_pct (closed ts))) /\
  (forall ts, exists r,
      Fixed.risk_metrics_select SQRT ts now = [r] /\
      col 2 r = num (stop_loss_effectiveness_pct (closed ts))).
Proof.
  split; [|split; [|split]].
  - intros H. unfold profit_factor.
    destruct (SUM (map loss_abs g)) as [s|] eqn:E; simpl; [|reflexivity].
    specialize (H s eq_refl).
    destruct (Qlt_bool 0 s) eqn:E'; [|reflexivity].
    apply Qlt_bool_iff in E'. rewrite H in E'. exfalso. exact (Qlt_irrefl 0 E').
  - intros H. unfold stop_loss_effectiveness_pct, sl_effectiveness_pct.
    destruct (SUMi (map sl_i g)) as [c|] eqn:E; simpl; [|split; reflexivity].
    rewrite (H c eq_refl). split; reflexivity.
  - intros H. unfold volatility.
    destruct (Z.ltb_spec 1 (COUNT g)); [lia | reflexivity].
  - repeat split; try reflexivity; intros ts; eexists; split; reflexivity.
Qed.

End Formulas.

Section Grouping.
Context {A K : Type} `{EqDecision K}.
Variable key : A -> K.

Lemma group_by_keys (l : list A) :
  map fst (group_by key l) = remove_dups (map key l).
Proof.
  unfold group_by. rewrite map_map. simpl. apply map_id.
Qed.

Lemma group_by_NoDup (l : list A) : NoDup (map fst (group_by key l)).
Proof. rewrite group_by_keys. apply NoDup_remove_dups. Qed.

Lemma group_by_In (l : list A) k g :
  In (k, g) (group_by key l) <->
  In k (map key l) /\ g = List.filter (fun x => bool_decide (key x = k)) l.
Proof.
  unfold group_by. rewrite in_map_iff. split.
  - intros (k' & [= <- <-] & Hk). split; [|reflexivity].
    apply list_elem_of_In. apply list_elem_of_In in Hk.
    rewrite elem_of_remove_dups in Hk. exact Hk.
  - intros (Hk & ->). exists k. split; [reflexivity|].
    apply list_elem_of_In. rewrite elem_of_remove_dups. apply list_elem_of_In. exact Hk.
Qed.

(** Every row is in the group of its key, and in no other. *)
Lemma group_by_partition (l : list A) x :
  In x l ->
  (exists g, In (key x, g) (group_by key l) /\ In x g) /\
  (forall k g, In (k, g) (group_by key l) -> In x g -> k = key x).
Proof.
  intros Hx. split.
  - eexists. split.
    + apply group_by_In. split; [apply in_map; exact Hx | reflexivity].
    + apply filter_In. split; [exact Hx | apply bool_decide_eq_true; reflexivity].
  - intros k g Hg Hin. apply group_by_In in Hg. destruct Hg as [_ ->].
    apply filter_In in Hin. destruct Hin as [_ Hk].
    apply bool_decide_eq_true in Hk. congruence.
Qed.

End Grouping.

Section Buckets.

Lemma timed_spec ts t :
  In t (Final.timed ts) <->
  In t ts /\ is_open t = false /\ exists d, trade_duration t = Some d.
Proof.
  unfold Final.timed. rewrite filter_In, closed_spec, bool_decide_eq_true.
  unfold is_Some. tauto.
Qed.

(** C8.  A duration of at most 60 minutes is a [scalp], of at most 480 a
    [short_term], of at most 1440 a [day_trade], any longer one a
    [swing_trade]; 30, 200, 1000 and 2000 fall in these four buckets in
    this order, and 60, 61, 480, 1440 in scalp, short_term, short_term,
    day_trade.  In the grouping that both files feed to the duration table,
    a closed trade with a duration is in the group of its bucket and in no
    other, no bucket has two groups, and each file writes one row per
    group, carrying the bucket. *)
Theorem C8_duration_buckets (ts : list trade) (t : trade) (d : Z) (now : string) :
  In t ts -> is_open t = false -> trade_duration t = Some d ->
  (duration_category d = "scalp" <-> d <= 60) /\
  (duration_category d = "short_term" <-> 60 < d <= 480) /\
  (duration_category d = "day_trade" <-> 480 < d <= 1440) /\
  (duration_category d = "swing_trade" <-> 1440 < d) /\
  map duration_category [30; 200; 1000; 2000] =
    ["scalp"; "short_term"; "day_trade"; "swing_trade"] /\
  map duration_category [60; 61; 480; 1440] =
    ["scalp"; "short_term"; "short_term"; "day_trade"] /\
  let groups := group_by Final.category_of (Final.timed ts) in
  (exists g, In (Some (duration_category d), g) groups /\ In t g) /\
  (forall k g, In (k, g) groups -> In t g -> k = Some (duration_category d)) /\
  NoDup (map fst groups) /\
  map (col 1) (Final.duration_patterns_select ts now) =
    map (fun kg => text_or_null (fst kg)) groups /\
  map (col 0) (Fixed.duration_patterns_select ts now) =
    map (fun kg => text_or_null (fst kg)) groups.
Proof.
  intros Hin Hop Hd.
  assert (Ht : In t (Final.timed ts)) by (apply timed_spec; eauto).
  assert (Hk : Final.category_of t = Some (duration_category d))
    by (unfold Final.category_of; rewrite Hd; reflexivity).
  destruct (group_by_partition Final.category_of (Final.timed ts) t Ht) as [H1 H2].
  rewrite Hk in H1, H2.
  unfold duration_category.
  repeat match goal with
         | |- _ /\ _ => split
         end; try reflexivity; auto;
    try (destruct (Z.leb_spec d 60); destruct (Z.leb_spec d 480);
         destruct (Z.leb_spec d 1440); split; intros; try discriminate;
         try reflexivity; lia).
  - apply group_by_NoDup.
  - unfold Final.duration_patterns_select. rewrite map_map. reflexivity.
  - unfold Fixed.duration_patterns_select. rewrite map_map. reflexivity.
Qed.

Lemma C8_duration_buckets_witness :
  exists g,
    In (Some "short_term", g) (group_by Final.category_of (Final.timed three_trades)) /\
    In (sample_trade 2 "BTC" (-3)%Q 200) g.
Proof.
  exact (proj1 (proj2 (proj2 (proj2 (proj2 (proj2 (proj2
    (C8_duration_buckets three_trades (sample_trade 2 "BTC" (-3)%Q 200) 200 "t"
       (or_intror (or_introl eq_refl)) eq_refl eq_refl)))))))).
Defined.

End Buckets.

Section Wins.
Variable SQRT : Q -> Q.

(** [WHERE profit_pct > 0] *)
Lemma total_win g :
  (total (map win g) ==
   inject_Z (COUNT (List.filter (fun t => Qlt_bool 0 (profit_pct t)) g)))%Q.
Proof.
  unfold COUNT. induction g as [|t g IH]; simpl; [reflexivity|].
  unfold win at 1. destruct (Qlt_bool 0 (profit_pct t)); simpl length.
  - rewrite IH, Nat2Z.inj_succ, <- Z.add_1_l, inject_Z_plus. reflexivity.
  - rewrite IH. apply Qplus_0_l.
Qed.

Lemma AVG_nonempty l :
  l <> [] -> AVG l = Some (total l / inject_Z (COUNT l))%Q.
Proof. destruct l; [congruence | reflexivity]. Qed.

Lemma win_rate_spec g :
  g <> [] ->
  exists q, win_rate g = Some q /\
    (q == inject_Z (COUNT (List.filter (fun t => Qlt_bool 0 (profit_pct t)) g))
          / inject_Z (COUNT g))%Q.
Proof.
  intros Hg. unfold win_rate. rewrite AVG_nonempty.
  - eexists. split; [reflexivity|].
    rewrite total_win. unfold COUNT. rewrite length_map. reflexivity.
  - destruct g; [congruence | discriminate].
Qed.


End Wins.


Section Replace.

(** C2.  The claim fails for [trading_analytics_automation_fixed.py],
    whose derivations write with [INSERT OR REPLACE] and never delete.
    Two cycles run on a store from which the trading system pruned the
    only ETH/USD trade in between; both cycles complete.  The current
    recomputation has the single group key BTC/USD, yet under a schema that
    is [UNIQUE] on the group keys the rankings, the pair analytics and the
    stop-loss analytics still hold the stale ETH/USD row, and under a
    schema with no [UNIQUE] constraint the rankings also hold BTC/USD
    twice.  [trading_analytics_automation_final.py], which deletes before
    it inserts, leaves exactly one row per current key on the same run. *)
Theorem C2_fixed_keeps_stale_rows :
  statuses (after_pruning keyed fixed) = Some ["completed"; "completed"] /\
  statuses (after_pruning no_unique fixed) = Some ["completed"; "completed"] /\
  statuses (after_pruning no_unique final) = Some ["completed"; "completed"] /\
  current_pairs = [TEXT "BTC/USD"] /\
  column 1 "performance_rankings" (after_pruning keyed fixed)
    = Some [TEXT "ETH/USD"; TEXT "BTC/USD"] /\
  column 0 "pair_analytics" (after_pruning keyed fixed)
    = Some [TEXT "ETH/USD"; TEXT "BTC/USD"] /\
  column 0 "stop_loss_analytics" (after_pruning keyed fixed)
    = Some [TEXT "ETH/USD"; TEXT "BTC/USD"] /\
  column 1 "performance_rankings" (after_pruning no_unique fixed)
    = Some [TEXT "BTC/USD"; TEXT "ETH/USD"; TEXT "BTC/USD"] /\
  column 1 "performance_rankings" (after_pruning no_unique final)
    = Some current_pairs /\
  column 0 "pair_analytics" (after_pruning no_unique final)
    = Some current_pairs /\
  (exists found,
      column 1 "performance_rankings" (after_pruning keyed fixed) = Some found /\
      ~ one_row_per_key current_pairs found) /\
  (exists found,
      column 1 "performance_rankings" (after_pruning no_unique fixed) = Some found /\
      ~ NoDup found) /\
  (exists found,
      column 1 "performance_rankings" (after_pruning no_unique final) = Some found /\
      one_row_per_key current_pairs found).
Proof.
  assert (Hc : current_pairs = [TEXT "BTC/USD"]) by (vm_compute; reflexivity).
  assert (H1 : column 1 "performance_rankings" (after_pruning keyed fixed)
               = Some [TEXT "ETH/USD"; TEXT "BTC/USD"]) by (vm_compute; reflexivity).
  assert (H2 : column 1 "performance_rankings" (after_pruning no_unique fixed)
               = Some [TEXT "BTC/USD"; TEXT "ETH/USD"; TEXT "BTC/USD"])
    by (vm_compute; reflexivity).
  assert (H3 : column 1 "performance_rankings" (after_pruning no_unique final)
               = Some current_pairs) by (vm_compute; reflexivity).
  split; [vm_compute; reflexivity|].
  split; [vm_compute; reflexivity|].
  split; [vm_compute; reflexivity|].
  split; [exact Hc|].
  split; [exact H1|].
  split; [vm_compute; reflexivity|].
  split; [vm_compute; reflexivity|].
  split; [exact H2|].
  split; [exact H3|].
  split; [vm_compute; reflexivity|].
  split; [|split].
  - eexists. split; [exact H1|]. rewrite Hc. intros [_ Hk].
    destruct (proj1 (Hk (TEXT "ETH/USD"))) as [H|[]]; [left; reflexivity|].
    discriminate H.
  - eexists. split; [exact H2|]. intros Hnd.
    apply NoDup_cons in Hnd. destruct Hnd as [Hn _].
    apply Hn. constructor 2. constructor 1.
  - eexists. split; [exact H3|]. rewrite Hc. split.
    + apply NoDup_singleton.
    + intros k. reflexivity.
Qed.

End Replace.

(** ** Delete, then insert *)

Lemma delete_insert_rewrites ucs name p q :
  rewrites (execute_delete name p ;; execute_insert_select ucs name q) name
    (fun old ts now => (kept p old ++ q ts now)%list).
Proof.
  intros w w'. unfold bind, execute_delete, execute_insert_select, execute_insert.
  destruct (analytics (conn w) !! name) as [old|] eqn:E; [|discriminate].
  simpl. rewrite !lookup_insert_eq.
  destruct (trades (conn w)) as [ts|] eqn:Et; [|discriminate].
  destruct (insert_rows ucs name (q ts (CURRENT_TIMESTAMP w)) _) as [t'|e] eqn:Ei;
    [|discriminate].
  intros [= <-]. apply insert_rows_ok in Ei. subst t'.
  exists old, ts. simpl. rewrite insert_insert_eq. auto.
Qed.

Lemma filter_false {A} (l : list A) : List.filter (fun _ => false) l = [].
Proof. induction l; simpl; auto. Qed.

Lemma kept_all_deleted old : kept (fun _ => true) old = [].
Proof. apply filter_false. Qed.

Lemma for_each_insert ucs name rows w w' t :
  for_each (fun r => execute_insert ucs name [r]) rows w = (Ok tt, w') ->
  analytics (conn w) !! name = Some t ->
  analytics (conn w') = <[name := (t ++ rows)%list]> (analytics (conn w)) /\
  trades (conn w') = trades (conn w) /\
  CURRENT_TIMESTAMP w' = CURRENT_TIMESTAMP w.
Proof.
  revert w t. induction rows as [|r rs IH]; intros w t; simpl.
  - intros [= <-] Ht. rewrite app_nil_r, insert_id by exact Ht. auto.
  - unfold bind at 1. unfold execute_insert at 1. intros H Ht. cbv beta in H.
    match type of H with
    | context [match ?x with Some _ => _ | None => _ end] =>
        destruct x as [t0|] eqn:E; [|discriminate]
    end.
    pose proof (eq_trans (eq_sym E) Ht) as Ett. injection Ett as ->.
    simpl in H. destruct (existsb (conflicts ucs r) t); [discriminate|].
    apply IH with (t := (t ++ [r])%list) in H.
    2:{ simpl. apply lookup_insert_eq. }
    simpl in H. rewrite insert_insert_eq, <- app_assoc in H. exact H.
Qed.

Section FinalReplace.
Variable UNIQUE : string -> list (list nat).
Variable SQRT : Q -> Q.

Lemma final_timing_rewrites :
  rewrites (Final.update_timing_analysis UNIQUE) "timing_analysis"
    (fun _ ts now => Final.timing_analysis_select (Final.timing_params ts) ts now).
Proof.
  intros w w'. unfold Final.update_timing_analysis, bind, execute_delete,
    select_trades, execute_insert_select, execute_insert.
  destruct (analytics (conn w) !! "timing_analysis") as [old|] eqn:E; [|discriminate].
  simpl. destruct (trades (conn w)) as [ts|] eqn:Et; [|discriminate].
  cbn [conn set_conn set_table analytics trades CURRENT_TIMESTAMP].
  rewrite !lookup_insert_eq, Et.
  destruct (insert_rows _ _ _ _) as [t'|e] eqn:Ei; [|discriminate].
  intros [= <-]. apply insert_rows_ok in Ei. subst t'.
  exists old, ts. simpl. rewrite insert_insert_eq, filter_false. auto.
Qed.

Lemma final_bot_health_rewrites :
  rewrites (Final.update_bot_health_metrics UNIQUE) "bot_health_metrics"
    (fun _ ts now =>
       match bot_health_rows ts now with Ok rows => rows | Raise _ => [] end).
Proof.
  intros w w'. unfold Final.update_bot_health_metrics, bind, execute_delete,
    select_trades, current_timestamp.
  destruct (analytics (conn w) !! "bot_health_metrics") as [old|] eqn:E;
    [|discriminate].
  destruct (trades (conn w)) as [ts|] eqn:Et;
    cbn [conn set_conn set_table analytics trades CURRENT_TIMESTAMP fst snd];
    rewrite ?Et; [|discriminate].
  cbn [conn set_conn set_table analytics trades CURRENT_TIMESTAMP fst snd].
  destruct (bot_health_rows ts (CURRENT_TIMESTAMP w)) as [rows|e] eqn:Eb;
    [|discriminate].
  intros H. eapply for_each_insert in H; [|simpl; apply lookup_insert_eq].
  simpl in H. rewrite insert_insert_eq, filter_false in H.
  destruct H as (H1 & H2 & H3).
  exists old, ts. rewrite Eb. repeat split; auto; congruence.
Qed.

Lemma final_bot_health_ok w w' ts :
  Final.update_bot_health_metrics UNIQUE w = (Ok tt, w') ->
  trades (conn w) = Some ts ->
  exists rows, bot_health_rows ts (CURRENT_TIMESTAMP w) = Ok rows.
Proof.
  unfold Final.update_bot_health_metrics, bind, execute_delete,
    select_trades, current_timestamp. intros H Et.
  destruct (analytics (conn w) !! "bot_health_metrics") as [old|]; [|discriminate].
  cbn [conn set_conn set_table analytics trades CURRENT_TIMESTAMP fst snd] in H.
  rewrite Et in H.
  cbn [conn set_conn set_table analytics trades CURRENT_TIMESTAMP fst snd] in H.
  destruct (bot_health_rows ts (CURRENT_TIMESTAMP w)) as [rows|e]; [|discriminate].
  eauto.
Qed.

Lemma rewrites_step m name f (k : M unit) w wf :
  rewrites m name f ->
  (m ;; k) w = (Ok tt, wf) ->
  exists w1 old ts,
    k w1 = (Ok tt, wf) /\
    analytics (conn w) !! name = Some old /\
    trades (conn w) = Some ts /\
    analytics (conn w1) =
      <[name := f old ts (CURRENT_TIMESTAMP w)]> (analytics (conn w)) /\
    trades (conn w1) = Some ts /\
    CURRENT_TIMESTAMP w1 = CURRENT_TIMESTAMP w.
Proof.
  intros Hr. unfold bind. destruct (m w) as [[[]|e] w1] eqn:E; [|discriminate].
  intros Hk. destruct (Hr w w1 E) as (old & ts & H).
  exists w1, old, ts. split; [exact Hk | exact H].
Qed.

(** What the tables hold when the eight derivations have all succeeded. *)
Lemma final_update_all_replaces w wf ts :
  trades (conn w) = Some ts ->
  Final.update_all UNIQUE SQRT w = (Ok tt, wf) ->
  let now := CURRENT_TIMESTAMP w in
  let a := analytics (conn wf) in
  (exists old,
      analytics (conn w) !! "performance_rankings" = Some old /\
      a !! "performance_rankings" =
        Some (kept (fun r => value_eqb (col 0 r) (TEXT "by_pair")) old
              ++ Final.performance_rankings_select ts now)%list) /\
  (exists old,
      analytics (conn w) !! "risk_metrics" = Some old /\
      a !! "risk_metrics" =
        Some (kept (fun r => value_eqb (col 0 r) (TEXT "overall")) old
              ++ Final.risk_metrics_select ts now)%list) /\
  a !! "strategy_performance" = Some (Final.strategy_performance_select ts now) /\
  a !! "timing_analysis" =
    Some (Final.timing_analysis_select (Final.timing_params ts) ts now) /\
  a !! "pair_analytics" = Some (Final.pair_analytics_select SQRT ts now) /\
  a !! "stop_loss_analytics" = Some (Final.stop_loss_analytics_select ts now) /\
  a !! "duration_patterns" = Some (Final.duration_patterns_select ts now) /\
  (exists rows,
      bot_health_rows ts now = Ok rows /\
      a !! "bot_health_metrics" = Some rows).
Proof.
  intros Et H now a. unfold Final.update_all in H.
  apply (rewrites_step _ _ _ _ _ _ (delete_insert_rewrites _ _ _ _)) in H.
  destruct H as (w1 & o1 & t1 & H & L1 & E1 & A1 & T1 & C1).
  apply (rewrites_step _ _ _ _ _ _ (delete_insert_rewrites _ _ _ _)) in H.
  destruct H as (w2 & o2 & t2 & H & L2 & E2 & A2 & T2 & C2).
  apply (rewrites_step _ _ _ _ _ _ (delete_insert_rewrites _ _ _ _)) in H.
  destruct H as (w3 & o3 & t3 & H & L3 & E3 & A3 & T3 & C3).
  apply (rewrites_step _ _ _ _ _ _ final_timing_rewrites) in H.
  destruct H as (w4 & o4 & t4 & H & L4 & E4 & A4 & T4 & C4).
  apply (rewrites_step _ _ _ _ _ _ (delete_insert_rewrites _ _ _ _)) in H.
  destruct H as (w5 & o5 & t5 & H & L5 & E5 & A5 & T5 & C5).
  apply (rewrites_step _ _ _ _ _ _ (delete_insert_rewrites _ _ _ _)) in H.
  destruct H as (w6 & o6 & t6 & H & L6 & E6 & A6 & T6 & C6).
  apply (rewrites_step _ _ _ _ _ _ (delete_insert_rewrites _ _ _ _)) in H.
  destruct H as (w7 & o7 & t7 & H & L7 & E7 & A7 & T7 & C7).
  destruct (final_bot_health_ok w7 wf ts H) as [rows Hrows]; [congruence|].
  destruct (final_bot_health_rewrites w7 wf H)
    as (o8 & t8 & L8 & E8 & A8 & T8 & C8).
  assert (t1 = ts /\ t2 = ts /\ t3 = ts /\ t4 = ts /\ t5 = ts /\ t6 = ts /\
          t7 = ts /\ t8 = ts) as (-> & -> & -> & -> & -> & -> & -> & ->)
    by (repeat split; congruence).
  rewrite C7, C6, C5, C4, C3, C2, C1 in *. fold now in A1, A2, A3, A4, A5, A6, A7, A8, Hrows.
  rewrite Hrows in A8.
  subst a. rewrite A8, A7, A6, A5, A4, A3, A2, A1.
  rewrite !kept_all_deleted. simpl.
  split; [exists o1; split; [exact L1|]|].
  { repeat (rewrite lookup_insert_ne by discriminate). apply lookup_insert_eq. }
  split; [exists o2; split|].
  { rewrite A1 in L2. rewrite lookup_insert_ne in L2 by discriminate. exact L2. }
  { repeat (rewrite lookup_insert_ne by discriminate). apply lookup_insert_eq. }
  repeat split;
    try (repeat (rewrite lookup_insert_ne by discriminate); apply lookup_insert_eq).
  exists rows. split; [exact Hrows | apply lookup_insert_eq].
Qed.

End FinalReplace.

(** ** One row per key *)

Lemma NoDup_map_inj {A B} (f : A -> B) (l : list A) :
  (forall x y, f x = f y -> x = y) -> NoDup l -> NoDup (map f l).
Proof.
  intros Hinj Hl. induction Hl as [|x l Hx Hl IH]; simpl; constructor; auto.
  intros Hin. apply list_elem_of_In, in_map_iff in Hin.
  destruct Hin as (y & Hy & Hin). apply Hinj in Hy. subst y.
  apply Hx, list_elem_of_In, Hin.
Qed.

Lemma group_keys_one_row_per_key {A K V} `{EqDecision K} (key : A -> K)
    (kv : K -> V) (l : list A) :
  (forall x y, kv x = kv y -> x = y) ->
  one_row_per_key (map (fun x => kv (key x)) l)
    (map (fun kg => kv (fst kg)) (group_by key l)).
Proof.
  intros Hinj.
  assert (E : map (fun kg => kv (fst kg)) (group_by key l)
              = map kv (remove_dups (map key l)))
    by (rewrite <- group_by_keys, map_map; reflexivity).
  rewrite E. split.
  - apply NoDup_map_inj; [exact Hinj | apply NoDup_remove_dups].
  - intros k. rewrite !in_map_iff. split.
    + intros (x & <- & Hx).
      apply list_elem_of_In, elem_of_remove_dups, list_elem_of_In, in_map_iff in Hx.
      destruct Hx as (a & <- & Ha). exists a. auto.
    + intros (a & <- & Ha). exists (key a). split; [reflexivity|].
      apply list_elem_of_In, elem_of_remove_dups, list_elem_of_In, in_map, Ha.
Qed.

Lemma grouped_one_row_per_key {A K V} `{EqDecision K} (key : A -> K)
    (kv : K -> V) (f : K * list A -> row) (c : row -> V) (l : list A) :
  (forall x y, kv x = kv y -> x = y) ->
  (forall kg, c (f kg) = kv (fst kg)) ->
  one_row_per_key (map (fun x => kv (key x)) l) (map c (map f (group_by key l))).
Proof.
  intros Hinj Hc. rewrite map_map.
  rewrite (map_ext _ (fun kg => kv (fst kg))) by exact Hc.
  apply group_keys_one_row_per_key, Hinj.
Qed.

Lemma ranking_keys now n (l : list (string * list trade)) :
  map (col 1) (map (Final.ranking_row now) (row_number_from n l))
  = map (fun kg => TEXT (fst kg)) l.
Proof.
  revert n. induction l as [|x l IH]; intros n; simpl; [reflexivity|].
  f_equal. apply IH.
Qed.

Lemma insert_desc_perm {A} (f : A -> option Q) x l :
  Permutation (insert_desc f x l) (x :: l).
Proof.
  induction l as [|y ys IH]; simpl; [reflexivity|].
  destruct (f x), (f y); try reflexivity.
  - destruct (Qlt_bool _ _); [reflexivity|]. rewrite IH. apply perm_swap.
  - rewrite IH. apply perm_swap.
  - rewrite IH. apply perm_swap.
Qed.

Lemma order_by_desc_perm {A} (f : A -> option Q) l :
  Permutation (order_by_desc f l) l.
Proof.
  induction l as [|x l IH]; simpl; [reflexivity|].
  rewrite insert_desc_perm. constructor. exact IH.
Qed.

Lemma row_number_snd {A} n (l : list A) : map snd (row_number_from n l) = l.
Proof.
  revert n. induction l as [|x l IH]; intros n; simpl; [reflexivity|].
  rewrite IH. reflexivity.
Qed.

Lemma one_row_per_key_perm {K} (current found found' : list K) :
  Permutation found found' ->
  one_row_per_key current found -> one_row_per_key current found'.
Proof.
  intros Hp [Hn Hk]. split.
  - rewrite <- Hp. exact Hn.
  - intros k. rewrite <- Hk. split; apply Permutation_in; [symmetry|]; exact Hp.
Qed.

Section FinalKeys.
Variable SQRT : Q -> Q.

(** The rows each [SELECT] of [Final] returns: one per group key of the
    closed trades it reads. *)
Lemma final_selects_one_row_per_key ts now :
  one_row_per_key (map (fun t => TEXT (pair t)) (closed ts))
    (map (col 1) (Final.performance_rankings_select ts now)) /\
  (exists r, Final.risk_metrics_select ts now = [r]) /\
  one_row_per_key (map (fun t => TEXT (strategy t)) (closed ts))
    (map (col 0) (Final.strategy_performance_select ts now)) /\
  (forall p, exists r, Final.timing_analysis_select p ts now = [r]) /\
  one_row_per_key
    (map (fun t => (TEXT (pair t), TEXT (base_currency t), TEXT (quote_currency t)))
         (closed ts))
    (map (fun r => (col 0 r, col 1 r, col 2 r))
         (Final.pair_analytics_select SQRT ts now)) /\
  one_row_per_key (map (fun t => TEXT (pair t)) (Final.with_stop_loss ts))
    (map (col 1) (Final.stop_loss_analytics_select ts now)) /\
  one_row_per_key
    (map (fun t => text_or_null (Final.category_of t)) (Final.timed ts))
    (map (col 1) (Final.duration_patterns_select ts now)) /\
  (forall rows, bot_health_rows ts now = Ok rows -> NoDup (map (col 0) rows)).
Proof.
  split; [|split; [|split; [|split; [|split; [|split; [|split]]]]]].
  - unfold Final.performance_rankings_select, ROW_NUMBER.
    rewrite ranking_keys.
    eapply one_row_per_key_perm;
      [| apply (group_keys_one_row_per_key pair TEXT (closed ts));
         intros x y [= ->]; reflexivity].
    apply Permutation_map. symmetry. apply order_by_desc_perm.
  - eexists. reflexivity.
  - apply (grouped_one_row_per_key strategy TEXT); [intros x y [= ->]|intros kg]; reflexivity.
  - intros [[[b w0] we] wd]. eexists. reflexivity.
  - apply (grouped_one_row_per_key Final.pair_key
             (fun k => (TEXT (fst (fst k)), TEXT (snd (fst k)), TEXT (snd k)))).
    + intros [[a b] c] [[a' b'] c'] [= -> -> ->]. reflexivity.
    + intros kg. reflexivity.
  - apply (grouped_one_row_per_key pair TEXT); [intros x y [= ->]|intros kg]; reflexivity.
  - apply (grouped_one_row_per_key Final.category_of text_or_null).
    + intros [x|] [y|]; simpl; congruence.
    + intros kg. reflexivity.
  - intros rows. unfold bot_health_rows.
    destruct (0 <? COUNT (closed ts)); [|intros [= <-]; constructor].
    destruct (win_rate (closed ts)), (AVG (map profit_pct (closed ts))),
      (MIN (map profit_pct (closed ts))); try discriminate.
    intros [= <-]. simpl.
    repeat (constructor; [rewrite ?elem_of_cons, elem_of_nil; intuition discriminate|]).
    constructor.
Qed.

End FinalKeys.

Lemma filter_kept p old : List.filter p (kept p old) = [].
Proof.
  unfold kept. induction old as [|r old IH]; simpl; [reflexivity|].
  destruct (p r) eqn:E; simpl; [exact IH|]. rewrite E. exact IH.
Qed.

Lemma filter_all {A} (p : A -> bool) l :
  (forall x, In x l -> p x = true) -> List.filter p l = l.
Proof.
  induction l as [|x l IH]; intros H; simpl; [reflexivity|].
  rewrite (H x) by (left; reflexivity). f_equal. apply IH.
  intros y Hy. apply H. right. exact Hy.
Qed.

Lemma filter_every_row t : List.filter every_row t = t.
Proof. apply filter_all. reflexivity. Qed.

Section FinalCycleReplace.
Variable UNIQUE : string -> list (list nat).
Variable SQRT : Q -> Q.

(** In [trading_analytics_automation_final.py], a cycle whose eight
    derivations all succeed leaves in every analytics table exactly one row
    per group key of the recomputation over the closed trades of the store:
    the rankings hold one [by_pair] row per pair, the strategy table one
    row per strategy, the pair table one row per pair with its currencies,
    the stop-loss table one row per pair with a stop-loss, the duration
    table one row per bucket, the risk and timing tables their single
    overall row, and the bot-health table no metric twice.  What the tables
    held before the cycle does not matter. *)
Theorem final_completed_cycle_one_row_per_key
    (w : world) (ts : list trade) (ss : list snapshot) (m : Z) (wf : world) :
  let n := COUNT (new_closed (last_processed_trade_id w) ts) in
  trades (disk w) = Some ts ->
  analysis_snapshots (disk w) = Some ss ->
  0 < n ->
  max_closed_trade_id ts = Some m ->
  Final.update_all UNIQUE SQRT (opening w n (Some m)) = (Ok tt, wf) ->
  let d := disk (snd (Final.check_for_new_trades UNIQUE SQRT w)) in
  let now := CURRENT_TIMESTAMP w in
  table_keyed d "performance_rankings" (of_type "by_pair") (col 1)
    (map (fun t => TEXT (pair t)) (closed ts)) /\
  table_keyed d "strategy_performance" every_row (col 0)
    (map (fun t => TEXT (strategy t)) (closed ts)) /\
  table_keyed d "pair_analytics" every_row
    (fun r => (col 0 r, col 1 r, col 2 r))
    (map (fun t => (TEXT (pair t), TEXT (base_currency t), TEXT (quote_currency t)))
         (closed ts)) /\
  table_keyed d "stop_loss_analytics" every_row (col 1)
    (map (fun t => TEXT (pair t)) (Final.with_stop_loss ts)) /\
  table_keyed d "duration_patterns" every_row (col 1)
    (map (fun t => text_or_null (Final.category_of t)) (Final.timed ts)) /\
  (exists t,
      analytics d !! "risk_metrics" = Some t /\
      List.filter (of_type "overall") t = Final.risk_metrics_select ts now /\
      COUNT (List.filter (of_type "overall") t) = 1) /\
  (exists r, analytics d !! "timing_analysis" = Some [r]) /\
  (exists t, analytics d !! "bot_health_metrics" = Some t /\
             bot_health_rows ts now = Ok t /\ NoDup (map (col 0) t)).
Proof.
  intros n Ht Hs Hn Hm Hu d now.
  assert (Hd : analytics d = analytics (conn wf)).
  { subst d. rewrite <- Hm in Hu.
    rewrite (final_check_completed UNIQUE SQRT w ts ss wf Ht Hn Hs Hu).
    reflexivity. }
  assert (Hts : trades (conn (opening w n (Some m))) = Some ts).
  { unfold opening, insert_snapshot. simpl. rewrite Hs. simpl. exact Ht. }
  assert (Hnow : CURRENT_TIMESTAMP (opening w n (Some m)) = now).
  { unfold opening, insert_snapshot. simpl. rewrite Hs. reflexivity. }
  destruct (final_update_all_replaces UNIQUE SQRT _ wf ts Hts Hu)
    as ((o1 & _ & R1) & (o2 & _ & R2) & R3 & R4 & R5 & R6 & R7 & (rows & Hr & R8)).
  rewrite Hnow in *. rewrite <- Hd in *.
  destruct (final_selects_one_row_per_key SQRT ts now)
    as (K1 & _ & K3 & K4 & K5 & K6 & K7 & K8).
  split; [|split; [|split; [|split; [|split; [|split; [|split]]]]]].
  - eexists. split; [exact R1|].
    rewrite List.filter_app. fold (of_type "by_pair").
    rewrite filter_kept. simpl. rewrite filter_all; [exact K1|].
    intros r Hr'. unfold Final.performance_rankings_select in Hr'.
    apply in_map_iff in Hr'. destruct Hr' as (x & <- & _). reflexivity.
  - eexists. split; [exact R3|]. rewrite filter_every_row. exact K3.
  - eexists. split; [exact R5|]. rewrite filter_every_row. exact K5.
  - eexists. split; [exact R6|]. rewrite filter_every_row. exact K6.
  - eexists. split; [exact R7|]. rewrite filter_every_row. exact K7.
  - eexists. split; [exact R2|].
    rewrite List.filter_app. fold (of_type "overall").
    rewrite filter_kept. simpl. split; reflexivity.
  - destruct (K4 (Final.timing_params ts)) as [r Hr']. exists r.
    exact (eq_trans R4 (f_equal Some Hr')).
  - exists rows. split; [exact R8|]. split; [exact Hr|]. apply K8. exact Hr.
Qed.

End FinalCycleReplace.

Lemma final_completed_cycle_one_row_per_key_witness :
  table_keyed
    (disk (snd (Final.check_for_new_trades no_unique sqrt6 before_second_cycle)))
    "performance_rankings" (of_type "by_pair") (col 1)
    [TEXT "BTC/USD"; TEXT "BTC/USD"].
Proof.
  refine (proj1 (final_completed_cycle_one_row_per_key no_unique sqrt6
                   before_second_cycle pruned (log_of before_second_cycle) 3
                   (snd (Final.update_all no_unique sqrt6
                           (opening before_second_cycle 1 (Some 3))))
                   _ _ _ _ _)).
  - vm_compute. reflexivity.
  - vm_compute. reflexivity.
  - vm_compute. reflexivity.
  - vm_compute. reflexivity.
  - vm_compute. reflexivity.
Defined.

(** * The theorems at work *)

Lemma C10_failed_detection_reports_no_new_trades_witness :
  fst (select_trades (idle (world_of (Some 3) no_trades_db)))
    = Raise (no_such_table "trades") /\
  fst (cycle_of no_unique sqrt6 fixed (world_of (Some 3) no_trades_db))
    = Ok false /\
  last_processed_trade_id
    (snd (cycle_of no_unique sqrt6 fixed (world_of (Some 3) no_trades_db)))
    = Some 3.
Proof.
  split; [reflexivity|].
  destruct (C10_failed_detection_reports_no_new_trades no_unique sqrt6 fixed
              (world_of (Some 3) no_trades_db) (no_such_table "trades") eq_refl)
    as (H1 & _ & _ & _ & H5).
  split; [exact H1 | exact H5].
Defined.

Lemma C4_caught_up_cycle_is_a_noop_witness :
  max_closed_trade_id three_trades = Some 3 /\
  fst (cycle_of no_unique sqrt6 final (world_of (Some 3) fresh_db)) = Ok false /\
  disk (snd (cycle_of no_unique sqrt6 final (world_of (Some 3) fresh_db)))
    = fresh_db.
Proof.
  split; [reflexivity|].
  destruct (C4_caught_up_cycle_is_a_noop no_unique sqrt6 final
              (world_of (Some 3) fresh_db) three_trades 3 eq_refl eq_refl eq_refl)
    as (_ & H2 & _ & _ & H5 & _).
  split; [exact H2 | exact H5].
Defined.


Lemma C7_zero_denominator_guards_witness :
  COUNT one_win <= 1 /\
  profit_factor one_win = Some 0%Q /\
  sl_effectiveness_pct one_win = Some 0%Q /\
  volatility sqrt6 one_win = Some 0%Q.
Proof.
  assert (Hn : COUNT one_win <= 1) by (vm_compute; discriminate).
  destruct (C7_zero_denominator_guards sqrt6 one_win "BTC/USD"
              ("BTC/USD", "BTC", "USD") "t") as (H1 & H2 & H3 & _).
  split; [exact Hn|]. split; [|split].
  - apply H1. intros s [= <-]. reflexivity.
  - apply H2. intros c [= <-]. reflexivity.
  - apply H3. exact Hn.
Defined.

(** * More on the cycle *)

Section Cycles.
Variable UNIQUE : string -> list (list nat).
Variable SQRT : Q -> Q.

(** The five ways a cycle of either file can go. *)
Lemma cycle_cases v w :
  (trades (disk w) = None /\ cycle_of UNIQUE SQRT v w = (Ok false, idle w)) \/
  (exists ts,
      trades (disk w) = Some ts /\
      new_closed (last_processed_trade_id w) ts = [] /\
      cycle_of UNIQUE SQRT v w = (Ok false, idle w)) \/
  (exists ts,
      trades (disk w) = Some ts /\
      new_closed (last_processed_trade_id w) ts <> [] /\
      analysis_snapshots (disk w) = None /\
      cycle_of UNIQUE SQRT v w = (Ok true, idle w)) \/
  (exists ts ss x m r wf,
      let n := COUNT (new_closed (last_processed_trade_id w) ts) in
      trades (disk w) = Some ts /\
      analysis_snapshots (disk w) = Some ss /\
      last_processed_trade_id w = Some x /\
      0 < n /\ x < m /\
      max_closed_trade_id ts = Some m /\
      target_of v (last_processed_trade_id w) ts = Some m /\
      update_all_of UNIQUE SQRT v (opening w n (Some m)) = (r, wf) /\
      cycle_of UNIQUE SQRT v w =
        (Ok true,
         match r with
         | Ok _ =>
             settled_world (Some m)
               (ss ++ [mark_completed (Some m) (attempt ss n (Some m))]) wf
         | Raise e =>
             settled_world (Some x)
               (ss ++ [mark_failed e (attempt ss n (Some m))]) wf
         end)).
Proof.
  destruct (trades (disk w)) as [ts|] eqn:Ht.
  2:{ left. split; [reflexivity|]. apply cycle_query_fails. exact Ht. }
  right.
  destruct (Z_lt_le_dec 0 (COUNT (new_closed (last_processed_trade_id w) ts)))
    as [Hc|Hc].
  2:{ left. exists ts. split; [reflexivity|]. split.
      - destruct (new_closed (last_processed_trade_id w) ts); [reflexivity|].
        unfold COUNT in Hc. simpl in Hc. lia.
      - apply cycle_idle with (ts := ts); assumption. }
  right.
  destruct (analysis_snapshots (disk w)) as [ss|] eqn:Hs.
  2:{ left. exists ts. split; [reflexivity|]. split.
      - apply COUNT_pos_nonempty. exact Hc.
      - split; [reflexivity|]. apply cycle_no_log with (ts := ts); assumption. }
  right.
  destruct (last_processed_trade_id w) as [x|] eqn:Hx.
  2:{ unfold new_closed in Hc. rewrite filter_false in Hc.
      unfold COUNT in Hc. simpl in Hc. lia. }
  destruct (new_trades_raise_target ts x Hc) as (m & Hm & Hxm & Hm').
  assert (Htg : target_of v (last_processed_trade_id w) ts = Some m)
    by (rewrite Hx; destruct v; assumption).
  destruct (update_all_of UNIQUE SQRT v
              (opening w (COUNT (new_closed (Some x) ts)) (Some m)))
    as [r wf] eqn:Hu.
  exists ts, ss, x, m, r, wf. cbv zeta.
  rewrite Hx in Htg.
  repeat (split; [first [reflexivity | assumption]|]).
  destruct r as [[]|e].
  - rewrite <- Hx in Hu, Hc, Htg |- *.
    rewrite (cycle_completed UNIQUE SQRT v w ts ss m wf Ht Hc Hs Htg Hu).
    reflexivity.
  - rewrite <- Hx in Hu, Hc, Htg |- *.
    rewrite (cycle_raised UNIQUE SQRT v w ts ss m e wf Ht Hc Hs Htg Hu).
    rewrite Hx. reflexivity.
Qed.

(** [check_for_new_trades] never raises, and returns [True] exactly when
    the trade table can be read and holds a closed trade whose id lies
    above the in-memory watermark -- whether or not the processing of those
    trades then succeeds. *)
Theorem cycle_reports_new_closed_trades v w :
  exists b,
    fst (cycle_of UNIQUE SQRT v w) = Ok b /\
    (b = true <->
     exists ts x t,
       trades (disk w) = Some ts /\
       last_processed_trade_id w = Some x /\
       In t ts /\ is_open t = false /\ x < trade_id t).
Proof.
  assert (Hnew : forall ts,
            new_closed (last_processed_trade_id w) ts <> [] <->
            exists x t, last_processed_trade_id w = Some x /\
                        In t ts /\ is_open t = false /\ x < trade_id t).
  { intros ts. split.
    - intros Hne.
      destruct (new_closed (last_processed_trade_id w) ts) as [|t l] eqn:E;
        [congruence|].
      assert (Hin : In t (new_closed (last_processed_trade_id w) ts))
        by (rewrite E; left; reflexivity).
      apply new_closed_spec in Hin. destruct Hin as (Hin & x & Hx & Hlt & Hop).
      exists x, t. auto.
    - intros (x & t & Hx & Hin & Hop & Hlt) E.
      assert (Hin' : In t (new_closed (last_processed_trade_id w) ts))
        by (apply new_closed_spec; eauto 6).
      rewrite E in Hin'. destruct Hin'. }
  destruct (cycle_cases v w)
    as [(Ht & ->) | [(ts & Ht & Hn & ->) | [(ts & Ht & Hn & _ & ->) |
        (ts & ss & x & m & r & wf & Ht & _ & Hx & Hc & _ & _ & _ & _ & ->)]]];
    simpl.
  - exists false. split; [reflexivity|]. split; [discriminate|].
    intros (ts & x & t & Ht' & _). congruence.
  - exists false. split; [reflexivity|]. split; [discriminate|].
    intros (ts' & x & t & Ht' & H). exfalso.
    assert (ts' = ts) by congruence. subst ts'.
    apply (proj2 (Hnew ts)); [|exact Hn]. exists x, t. exact H.
  - exists true. split; [reflexivity|]. split; [|reflexivity]. intros _.
    destruct (proj1 (Hnew ts) Hn) as (x & t & H). exists ts, x, t. auto.
  - exists true. split; [reflexivity|]. split; [|reflexivity]. intros _.
    destruct (proj1 (Hnew ts) (COUNT_pos_nonempty _ Hc)) as (x' & t & H).
    exists ts, x', t. auto.
Qed.

End Cycles.

Section Log.
Variable UNIQUE : string -> list (list nat).
Variable SQRT : Q -> Q.

Lemma step_log v w ev ss :
  analysis_snapshots (disk w) = Some ss ->
  analysis_snapshots (disk (step UNIQUE SQRT v w ev)) = Some ss \/
  exists s,
    analysis_snapshots (disk (step UNIQUE SQRT v w ev)) = Some (ss ++ [s]) /\
    finished s /\ snapshot_id s = next_rowid ss.
Proof.
  intros Hs. destruct ev as [|ts'|now]; simpl; [|left; exact Hs|left; exact Hs].
  destruct (cycle_cases UNIQUE SQRT v w)
    as [(Ht & ->) | [(ts & Ht & Hn & ->) | [(ts & Ht & Hn & Hs' & ->) |
        (ts & ss' & x & m & r & wf & Ht & Hs' & Hx & Hc & _ & _ & _ & Hu & ->)]]];
    simpl; try (left; exact Hs).
  rewrite Hs in Hs'. injection Hs' as <-. right. destruct r as [[]|e]; simpl.
  - eexists. split; [reflexivity|]. split; [|reflexivity].
    split; [reflexivity|]. left. simpl. eauto.
  - eexists. split; [reflexivity|]. split; [|reflexivity].
    split; [reflexivity|]. right. simpl. split; [reflexivity|].
    exists e. split; [reflexivity|].
    destruct (update_all_of_only UNIQUE SQRT v
                (opening w (COUNT (new_closed (last_processed_trade_id w) ts))
                   (Some m))) as [_ He].
    apply He. rewrite Hu. reflexivity.
Qed.

(** The snapshot log is append-only.  Along every run of either engine --
    cycles, rewrites of the trade store, clock changes -- the snapshots
    that were in the log stay as they were, in place; each snapshot a cycle
    adds ends up [completed] at a target or [failed] with a non-empty
    message, never [processing]; and ids that were distinct stay
    distinct. *)
Theorem snapshot_log_is_append_only v evs w ss :
  analysis_snapshots (disk w) = Some ss ->
  exists added,
    analysis_snapshots (disk (run UNIQUE SQRT v evs w)) = Some (ss ++ added) /\
    Forall finished added /\
    (NoDup (map snapshot_id ss) -> NoDup (map snapshot_id (ss ++ added))).
Proof.
  revert w ss. induction evs as [|ev evs IH]; intros w ss Hs; simpl.
  - exists []. rewrite app_nil_r. split; [exact Hs|]. split; [constructor|auto].
  - destruct (step_log v w ev ss Hs) as [H1 | (s & H1 & Hf & Hid)].
    + exact (IH _ _ H1).
    + destruct (IH _ _ H1) as (added & Hlog & Hfin & Hnd).
      exists (s :: added). rewrite <- app_assoc in Hlog, Hnd. simpl in Hlog, Hnd.
      split; [exact Hlog|]. split; [constructor; assumption|].
      intros Hss. apply Hnd. rewrite map_app. simpl.
      apply NoDup_app. split; [exact Hss|]. split; [|apply NoDup_singleton].
      intros i Hi Hi'. apply list_elem_of_singleton in Hi'. subst i.
      apply list_elem_of_In, in_map_iff in Hi. destruct Hi as (s0 & Hs0 & Hin).
      pose proof (next_rowid_fresh ss s0 Hin). lia.
Qed.

End Log.

Lemma snapshot_log_is_append_only_witness :
  exists added,
    analysis_snapshots
      (disk (run no_unique sqrt6 fixed [tick; trade_store (Some pruned); tick]
               (started fixed two_pairs_db "t")))
      = Some ([] ++ added) /\
    Forall finished added.
Proof.
  destruct (snapshot_log_is_append_only no_unique sqrt6 fixed
              [tick; trade_store (Some pruned); tick]
              (started fixed two_pairs_db "t") [] eq_refl)
    as (added & H1 & H2 & _).
  exists added. split; assumption.
Defined.

Section Sequel.
Variable UNIQUE : string -> list (list nat).
Variable SQRT : Q -> Q.

(** What the derivations leave alone, at the opening of a cycle. *)
Lemma opening_frame v w n m ss r wf :
  analysis_snapshots (disk w) = Some ss ->
  update_all_of UNIQUE SQRT v (opening w n (Some m)) = (r, wf) ->
  trades (conn wf) = trades (disk w) /\
  CURRENT_TIMESTAMP wf = CURRENT_TIMESTAMP w.
Proof.
  intros Hs Hu.
  destruct (update_all_of_only UNIQUE SQRT v (opening w n (Some m))) as [Hf _].
  rewrite Hu in Hf. simpl in Hf. destruct Hf as (_ & _ & Htr & _ & Hct).
  rewrite Htr, Hct. unfold opening, insert_snapshot. simpl. rewrite Hs.
  split; reflexivity.
Qed.

Lemma target_is_max_closed v w ts m :
  0 < COUNT (new_closed (last_processed_trade_id w) ts) ->
  target_of v (last_processed_trade_id w) ts = Some m ->
  max_closed_trade_id ts = Some m /\
  exists x, last_processed_trade_id w = Some x /\ x < m.
Proof.
  intros Hc Htg. destruct (last_processed_trade_id w) as [x|] eqn:Hx.
  2:{ unfold new_closed in Hc. rewrite filter_false in Hc.
      unfold COUNT in Hc. simpl in Hc. lia. }
  destruct (new_trades_raise_target ts x Hc) as (m0 & Hm & Hxm & Hm').
  assert (m0 = m) by (destruct v; simpl in Htg; congruence). subst m0.
  split; [exact Hm|]. exists x. auto.
Qed.

(** A cycle that completes leaves nothing to do.  The watermark it sets is
    the greatest closed trade id of the store, so the next cycle -- of
    either file, on the same trade store -- finds no new trade, returns
    [False] and changes nothing. *)
Theorem completed_cycle_then_idle v w ts ss m wf :
  let n := COUNT (new_closed (last_processed_trade_id w) ts) in
  trades (disk w) = Some ts ->
  analysis_snapshots (disk w) = Some ss ->
  0 < n ->
  target_of v (last_processed_trade_id w) ts = Some m ->
  update_all_of UNIQUE SQRT v (opening w n (Some m)) = (Ok tt, wf) ->
  let w1 := snd (cycle_of UNIQUE SQRT v w) in
  last_processed_trade_id w1 = Some m /\
  max_closed_trade_id ts = Some m /\
  trades (disk w1) = Some ts /\
  new_closed (last_processed_trade_id w1) ts = [] /\
  cycle_of UNIQUE SQRT v w1 = (Ok false, w1).
Proof.
  intros n Ht Hs Hn Htg Hu w1.
  destruct (target_is_max_closed v w ts m Hn Htg) as (Hm & _).
  destruct (opening_frame v w n m ss _ wf Hs Hu) as (Htr & _).
  assert (Hw1 : w1 = settled_world (Some m)
                       (ss ++ [mark_completed (Some m) (attempt ss n (Some m))]) wf).
  { subst w1. rewrite (cycle_completed UNIQUE SQRT v w ts ss m wf Ht Hn Hs Htg Hu).
    reflexivity. }
  assert (Ht1 : trades (disk w1) = Some ts)
    by (rewrite Hw1; simpl; rewrite Htr; exact Ht).
  assert (Hl1 : last_processed_trade_id w1 = Some m) by (rewrite Hw1; reflexivity).
  assert (Hn1 : new_closed (last_processed_trade_id w1) ts = [])
    by (rewrite Hl1; apply caught_up; exact Hm).
  repeat (split; [assumption|]).
  rewrite (cycle_idle UNIQUE SQRT v w1 ts Ht1).
  - rewrite Hw1. reflexivity.
  - rewrite Hn1. unfold COUNT. simpl. lia.
Qed.

(** A failed cycle is retried.  After a cycle in which a derivation raised,
    a cycle on the same trade store and snapshot log -- whatever was done
    to the analytics tables in between -- finds the same new trades, aims
    at the same target, and, when its derivations succeed this time,
    completes: the log then ends with the failed snapshot followed by the
    completed one, and the watermark is the target. *)
Theorem failed_cycle_is_retried v w ts ss m e wf w1 wf' :
  let n := COUNT (new_closed (last_processed_trade_id w) ts) in
  trades (disk w) = Some ts ->
  analysis_snapshots (disk w) = Some ss ->
  0 < n ->
  target_of v (last_processed_trade_id w) ts = Some m ->
  update_all_of UNIQUE SQRT v (opening w n (Some m)) = (Raise e, wf) ->
  let w0 := snd (cycle_of UNIQUE SQRT v w) in
  last_processed_trade_id w1 = last_processed_trade_id w0 ->
  trades (disk w1) = trades (disk w0) ->
  analysis_snapshots (disk w1) = analysis_snapshots (disk w0) ->
  update_all_of UNIQUE SQRT v (opening w1 n (Some m)) = (Ok tt, wf') ->
  let r2 := cycle_of UNIQUE SQRT v w1 in
  COUNT (new_closed (last_processed_trade_id w1) ts) = n /\
  target_of v (last_processed_trade_id w1) ts = Some m /\
  fst r2 = Ok true /\
  last_processed_trade_id (snd r2) = Some m /\
  exists s1 s2,
    analysis_snapshots (disk (snd r2)) = Some (ss ++ [s1; s2]) /\
    status s1 = "failed" /\ error_message s1 = Some e /\
    status s2 = "completed" /\ last_trade_id s2 = Some m /\
    records_processed s1 = n /\ records_processed s2 = n /\
    snapshot_id s1 < snapshot_id s2.
Proof.
  intros n Ht Hs Hn Htg Hu w0 Hl1 Ht1 Hs1 Hu' r2.
  destruct (opening_frame v w n m ss _ wf Hs Hu) as (Htr & _).
  assert (Hw0 : w0 = settled_world (last_processed_trade_id w)
                       (ss ++ [mark_failed e (attempt ss n (Some m))]) wf).
  { subst w0. rewrite (cycle_raised UNIQUE SQRT v w ts ss m e wf Ht Hn Hs Htg Hu).
    reflexivity. }
  rewrite Hw0 in Hl1, Ht1, Hs1. simpl in Hl1, Ht1, Hs1.
  rewrite Htr, Ht in Ht1.
  assert (Hn1 : COUNT (new_closed (last_processed_trade_id w1) ts) = n)
    by (rewrite Hl1; reflexivity).
  assert (Htg1 : target_of v (last_processed_trade_id w1) ts = Some m)
    by (rewrite Hl1; exact Htg).
  assert (Hc1 : 0 < COUNT (new_closed (last_processed_trade_id w1) ts))
    by (rewrite Hn1; exact Hn).
  rewrite <- Hn1 in Hu'.
  split; [exact Hn1|]. split; [exact Htg1|].
  subst r2.
  rewrite (cycle_completed UNIQUE SQRT v w1 ts _ m wf' Ht1 Hc1 Hs1 Htg1 Hu').
  simpl. split; [reflexivity|]. split; [reflexivity|].
  rewrite <- app_assoc. simpl. eexists _, _. split; [reflexivity|]. simpl.
  repeat (split; [first [reflexivity | exact Hn1]|]).
  pose proof (next_rowid_fresh
                (ss ++ [mark_failed e (attempt ss n (Some m))])
                (mark_failed e (attempt ss n (Some m)))) as Hfresh.
  simpl in Hfresh. apply Hfresh. apply in_or_app. right. left. reflexivity.
Qed.

End Sequel.

Lemma completed_cycle_then_idle_witness :
  let w1 := snd (cycle_of no_unique sqrt6 fixed (started fixed fresh_db "t")) in
  last_processed_trade_id w1 = Some 3 /\
  cycle_of no_unique sqrt6 fixed w1 = (Ok false, w1).
Proof.
  intros w1.
  destruct (completed_cycle_then_idle no_unique sqrt6 fixed
              (started fixed fresh_db "t") three_trades [] 3
              (snd (Fixed.update_all no_unique sqrt6
                      (opening (started fixed fresh_db "t") 3 (Some 3)))))
    as (H1 & _ & _ & _ & H5).
  - reflexivity.
  - reflexivity.
  - vm_compute. reflexivity.
  - vm_compute. reflexivity.
  - vm_compute. reflexivity.
  - split; [exact H1 | exact H5].
Defined.

Lemma failed_cycle_is_retried_witness :
  let w0 := snd (cycle_of no_unique sqrt6 final (started final broken_db "t")) in
  let r2 := cycle_of no_unique sqrt6 final (create_table "bot_health_metrics" w0) in
  fst r2 = Ok true /\ last_processed_trade_id (snd r2) = Some 3.
Proof.
  intros w0 r2.
  destruct (failed_cycle_is_retried no_unique sqrt6 final
              (started final broken_db "t") three_trades [] 3
              "no such table: bot_health_metrics"
              (snd (Final.update_all no_unique sqrt6
                      (opening (started final broken_db "t") 3 (Some 3))))
              (create_table "bot_health_metrics" w0)
              (snd (Final.update_all no_unique sqrt6
                      (opening (create_table "bot_health_metrics" w0) 3 (Some 3)))))
    as (_ & _ & H3 & H4 & _).
  - reflexivity.
  - reflexivity.
  - vm_compute. reflexivity.
  - vm_compute. reflexivity.
  - vm_compute. reflexivity.
  - vm_compute. reflexivity.
  - vm_compute. reflexivity.
  - vm_compute. reflexivity.
  - vm_compute. reflexivity.
  - split; [exact H3 | exact H4].
Defined.

(** * Insert or replace *)

Lemma filter_filter_and {A} (p q : A -> bool) l :
  List.filter p (List.filter q l) = List.filter (fun x => q x && p x) l.
Proof.
  induction l as [|x l IH]; simpl; [reflexivity|].
  destruct (q x); simpl; [destruct (p x)|]; rewrite IH; reflexivity.
Qed.

(** [INSERT OR REPLACE] of rows with distinct keys, into a table whose
    [UNIQUE] constraint is that key: the rows whose key is not inserted
    stay, in place, and the new rows follow. *)
Lemma upsert_by_key {K} `{EqDecision K} ucs (k : row -> K) new old :
  (forall r x, In r new -> conflicts ucs r x = bool_decide (k r = k x)) ->
  NoDup (map k new) ->
  replace_rows ucs new old = (stale k new old ++ new)%list.
Proof.
  unfold replace_rows, stale. revert old.
  induction new as [|r rs IH]; intros old Hk Hnd; cbn [fold_left map].
  - rewrite app_nil_r. rewrite filter_all; [reflexivity|].
    intros x _. apply negb_true_iff, bool_decide_eq_false_2, not_elem_of_nil.
  - apply NoDup_cons in Hnd. destruct Hnd as [Hr Hnd].
    rewrite IH; [|intros r' x Hr'; apply Hk; right; exact Hr' | exact Hnd].
    unfold replace_row. rewrite List.filter_app, filter_filter_and.
    cbn [List.filter].
    rewrite (bool_decide_eq_false_2 _ Hr). simpl. rewrite <- app_assoc. simpl.
    f_equal. apply List.filter_ext. intros x.
    rewrite (Hk r x) by (left; reflexivity).
    destruct (decide (k r = k x)) as [E|E].
    + rewrite (bool_decide_eq_true_2 _ E). simpl.
      symmetry. apply negb_false_iff, bool_decide_eq_true_2.
      rewrite E. left.
    + rewrite (bool_decide_eq_false_2 _ E). simpl. f_equal.
      apply bool_decide_ext. rewrite elem_of_cons. split; [auto|].
      intros [Hx|Hx]; [congruence | exact Hx].
Qed.

Lemma upsert_upserts ucs name q :
  upserts (execute_insert_or_replace_select ucs name q) name
    (fun old ts now => replace_rows ucs (q ts now) old).
Proof.
  intros w old ts Ho Ht.
  unfold execute_insert_or_replace_select, execute_insert_or_replace.
  destruct (analytics (conn w) !! name) as [t0|] eqn:E; [|discriminate].
  injection Ho as ->. rewrite Ht. eexists. split; [reflexivity|]. simpl. auto.
Qed.

Lemma upserts_seq m1 m2 name f g :
  upserts m1 name f -> upserts m2 name g ->
  upserts (m1 ;; m2) name (fun old ts now => g (f old ts now) ts now).
Proof.
  intros H1 H2 w old ts Ho Ht. unfold bind.
  destruct (H1 w old ts Ho Ht) as (w1 & E1 & A1 & T1 & C1). rewrite E1.
  destruct (H2 w1 (f old ts (CURRENT_TIMESTAMP w)) ts) as (w2 & E2 & A2 & T2 & C2).
  { rewrite A1. apply lookup_insert_eq. }
  { exact T1. }
  exists w2. split; [exact E2|]. rewrite A2, A1, insert_insert_eq, C1, C2. auto.
Qed.

Lemma for_each_upsert ucs name rows w t :
  analytics (conn w) !! name = Some t ->
  exists w',
    for_each (fun r => execute_insert_or_replace ucs name [r]) rows w = (Ok tt, w') /\
    analytics (conn w') = <[name := replace_rows ucs rows t]> (analytics (conn w)) /\
    trades (conn w') = trades (conn w) /\
    CURRENT_TIMESTAMP w' = CURRENT_TIMESTAMP w.
Proof.
  revert w t. induction rows as [|r rs IH]; intros w t Ht; cbn [for_each].
  - exists w. split; [reflexivity|]. unfold replace_rows. simpl.
    rewrite insert_id by exact Ht. auto.
  - unfold bind at 1. unfold execute_insert_or_replace at 1.
    destruct (analytics (conn w) !! name) as [t0|] eqn:E; [|discriminate].
    injection Ht as ->.
    destruct (IH (set_conn (set_table name (replace_rows ucs [r] t) (conn w)) true w)
                (replace_rows ucs [r] t)) as (w' & E' & A' & T' & C').
    { simpl. apply lookup_insert_eq. }
    exists w'. split; [exact E'|]. rewrite A'. simpl.
    rewrite insert_insert_eq. auto.
Qed.

Lemma bot_health_rows_ok ts now : exists rows, bot_health_rows ts now = Ok rows.
Proof.
  destruct (Z_lt_le_dec 0 (COUNT (closed ts))) as [H|H].
  - destruct (bot_health_rows_spec ts now H) as (wr & ap & worst & _ & _ & _ & E).
    eauto.
  - unfold bot_health_rows. destruct (Z.ltb_spec 0 (COUNT (closed ts))); [lia|].
    eauto.
Qed.

Section FixedUpserts.
Variable UNIQUE : string -> list (list nat).
Variable SQRT : Q -> Q.

Lemma fixed_bot_health_upserts :
  upserts (Fixed.update_bot_health_metrics UNIQUE) "bot_health_metrics"
    (fun old ts now => replace_rows (UNIQUE "bot_health_metrics") (health_rows ts now) old).
Proof.
  intros w old ts Ho Ht.
  unfold Fixed.update_bot_health_metrics, bind, select_trades, current_timestamp.
  rewrite Ht. unfold health_rows.
  destruct (bot_health_rows_ok ts (CURRENT_TIMESTAMP w)) as [rows Hr]. rewrite Hr.
  destruct (for_each_upsert (UNIQUE "bot_health_metrics") "bot_health_metrics"
              rows w old Ho) as (w' & E & A & T & C).
  exists w'. split; [exact E|]. rewrite T. auto.
Qed.

Lemma upserts_step m name f (k : M unit) w old ts :
  upserts m name f ->
  analytics (conn w) !! name = Some old ->
  trades (conn w) = Some ts ->
  exists w1,
    (m ;; k) w = k w1 /\
    analytics (conn w1) =
      <[name := f old ts (CURRENT_TIMESTAMP w)]> (analytics (conn w)) /\
    trades (conn w1) = Some ts /\
    CURRENT_TIMESTAMP w1 = CURRENT_TIMESTAMP w.
Proof.
  intros Hm Ho Ht. destruct (Hm w old ts Ho Ht) as (w1 & E & H).
  exists w1. unfold bind. rewrite E. split; [reflexivity | exact H].
Qed.

Lemma fixed_rankings_upserts :
  upserts (Fixed.update_performance_rankings UNIQUE) "performance_rankings"
    (fun old ts now =>
       replace_rows (UNIQUE "performance_rankings")
         (Fixed.performance_rankings_select ts now) old).
Proof. apply upsert_upserts. Qed.

Lemma fixed_risk_upserts :
  upserts (Fixed.update_risk_metrics UNIQUE SQRT) "risk_metrics"
    (fun old ts now =>
       replace_rows (UNIQUE "risk_metrics")
         (Fixed.risk_metrics_select SQRT ts now) old).
Proof. apply upsert_upserts. Qed.

Lemma fixed_strategy_upserts :
  upserts (Fixed.update_strategy_performance UNIQUE SQRT) "strategy_performance"
    (fun old ts now =>
       replace_rows (UNIQUE "strategy_performance")
         (Fixed.strategy_performance_select SQRT ts now) old).
Proof. apply upsert_upserts. Qed.

Lemma fixed_timing_upserts :
  upserts (Fixed.update_timing_analysis UNIQUE) "timing_analysis"
    (fun old ts now =>
       replace_rows (UNIQUE "timing_analysis")
         (Fixed.day_of_week_select ts now)
         (replace_rows (UNIQUE "timing_analysis")
            (Fixed.hour_of_day_select ts now) old)).
Proof.
  apply (upserts_seq _ _ _ _ _ (upsert_upserts _ _ _) (upsert_upserts _ _ _)).
Qed.

Lemma fixed_pair_upserts :
  upserts (Fixed.update_pair_analytics UNIQUE SQRT) "pair_analytics"
    (fun old ts now =>
       replace_rows (UNIQUE "pair_analytics")
         (Fixed.pair_analytics_select SQRT ts now) old).
Proof. apply upsert_upserts. Qed.

Lemma fixed_stop_loss_upserts :
  upserts (Fixed.update_stop_loss_analytics UNIQUE) "stop_loss_analytics"
    (fun old ts now =>
       replace_rows (UNIQUE "stop_loss_analytics")
         (Fixed.stop_loss_analytics_select ts now) old).
Proof. apply upsert_upserts. Qed.

Lemma fixed_duration_upserts :
  upserts (Fixed.update_duration_patterns UNIQUE) "duration_patterns"
    (fun old ts now =>
       replace_rows (UNIQUE "duration_patterns")
         (Fixed.duration_patterns_select ts now) old).
Proof. apply upsert_upserts. Qed.

Ltac carry A H :=
  match type of H with
  | _ !! ?n = ?x =>
      match type of A with
      | ?a = <[_ := _]> _ =>
          let H' := fresh in
          assert (H' : a !! n = x)
            by (rewrite A, lookup_insert_ne by discriminate; exact H);
          clear H; rename H' into H
      end
  end.

(** In [Fixed] the eight derivations cannot fail on a database that has
    the trade table and the eight analytics tables, and each table is
    written by [INSERT OR REPLACE] of the rows its [SELECT] returns. *)
Lemma fixed_update_all_upserts w ts o1 o2 o3 o4 o5 o6 o7 o8 :
  trades (conn w) = Some ts ->
  analytics (conn w) !! "performance_rankings" = Some o1 ->
  analytics (conn w) !! "risk_metrics" = Some o2 ->
  analytics (conn w) !! "strategy_performance" = Some o3 ->
  analytics (conn w) !! "timing_analysis" = Some o4 ->
  analytics (conn w) !! "pair_analytics" = Some o5 ->
  analytics (conn w) !! "stop_loss_analytics" = Some o6 ->
  analytics (conn w) !! "duration_patterns" = Some o7 ->
  analytics (conn w) !! "bot_health_metrics" = Some o8 ->
  let now := CURRENT_TIMESTAMP w in
  exists wf,
    Fixed.update_all UNIQUE SQRT w = (Ok tt, wf) /\
    analytics (conn wf) !! "performance_rankings" =
      Some (replace_rows (UNIQUE "performance_rankings")
              (Fixed.performance_rankings_select ts now) o1) /\
    analytics (conn wf) !! "risk_metrics" =
      Some (replace_rows (UNIQUE "risk_metrics")
              (Fixed.risk_metrics_select SQRT ts now) o2) /\
    analytics (conn wf) !! "strategy_performance" =
      Some (replace_rows (UNIQUE "strategy_performance")
              (Fixed.strategy_performance_select SQRT ts now) o3) /\
    analytics (conn wf) !! "timing_analysis" =
      Some (replace_rows (UNIQUE "timing_analysis")
              (Fixed.day_of_week_select ts now)
              (replace_rows (UNIQUE "timing_analysis")
                 (Fixed.hour_of_day_select ts now) o4)) /\
    analytics (conn wf) !! "pair_analytics" =
      Some (replace_rows (UNIQUE "pair_analytics")
              (Fixed.pair_analytics_select SQRT ts now) o5) /\
    analytics (conn wf) !! "stop_loss_analytics" =
      Some (replace_rows (UNIQUE "stop_loss_analytics")
              (Fixed.stop_loss_analytics_select ts now) o6) /\
    analytics (conn wf) !! "duration_patterns" =
      Some (replace_rows (UNIQUE "duration_patterns")
              (Fixed.duration_patterns_select ts now) o7) /\
    analytics (conn wf) !! "bot_health_metrics" =
      Some (replace_rows (UNIQUE "bot_health_metrics") (health_rows ts now) o8).
Proof.
  intros Ht0 L1 L2 L3 L4 L5 L6 L7 L8 now. unfold Fixed.update_all.
  destruct (fixed_rankings_upserts w o1 ts L1 Ht0) as (w1 & E1 & A1 & Ht1 & C1).
  unfold bind at 1. rewrite E1. clear E1.
  carry A1 L2.
  carry A1 L3.
  carry A1 L4.
  carry A1 L5.
  carry A1 L6.
  carry A1 L7.
  carry A1 L8.
  assert (R1 := eq_trans (f_equal (fun a => a !! "performance_rankings") A1) (lookup_insert_eq _ _ _)).
  cbv beta in R1. clear A1 L1.
  destruct (fixed_risk_upserts w1 o2 ts L2 Ht1) as (w2 & E2 & A2 & Ht2 & C2).
  unfold bind at 1. rewrite E2. clear E2.
  carry A2 R1.
  carry A2 L3.
  carry A2 L4.
  carry A2 L5.
  carry A2 L6.
  carry A2 L7.
  carry A2 L8.
  assert (R2 := eq_trans (f_equal (fun a => a !! "risk_metrics") A2) (lookup_insert_eq _ _ _)).
  cbv beta in R2. clear A2 L2.
  rewrite ?C1 in R2. rewrite C1 in C2.
  destruct (fixed_strategy_upserts w2 o3 ts L3 Ht2) as (w3 & E3 & A3 & Ht3 & C3).
  unfold bind at 1. rewrite E3. clear E3.
  carry A3 R1.
  carry A3 R2.
  carry A3 L4.
  carry A3 L5.
  carry A3 L6.
  carry A3 L7.
  carry A3 L8.
  assert (R3 := eq_trans (f_equal (fun a => a !! "strategy_performance") A3) (lookup_insert_eq _ _ _)).
  cbv beta in R3. clear A3 L3.
  rewrite ?C2 in R3. rewrite C2 in C3.
  destruct (fixed_timing_upserts w3 o4 ts L4 Ht3) as (w4 & E4 & A4 & Ht4 & C4).
  unfold bind at 1. rewrite E4. clear E4.
  carry A4 R1.
  carry A4 R2.
  carry A4 R3.
  carry A4 L5.
  carry A4 L6.
  carry A4 L7.
  carry A4 L8.
  assert (R4 := eq_trans (f_equal (fun a => a !! "timing_analysis") A4) (lookup_insert_eq _ _ _)).
  cbv beta in R4. clear A4 L4.
  rewrite ?C3 in R4. rewrite C3 in C4.
  destruct (fixed_pair_upserts w4 o5 ts L5 Ht4) as (w5 & E5 & A5 & Ht5 & C5).
  unfold bind at 1. rewrite E5. clear E5.
  carry A5 R1.
  carry A5 R2.
  carry A5 R3.
  carry A5 R4.
  carry A5 L6.
  carry A5 L7.
  carry A5 L8.
  assert (R5 := eq_trans (f_equal (fun a => a !! "pair_analytics") A5) (lookup_insert_eq _ _ _)).
  cbv beta in R5. clear A5 L5.
  rewrite ?C4 in R5. rewrite C4 in C5.
  destruct (fixed_stop_loss_upserts w5 o6 ts L6 Ht5) as (w6 & E6 & A6 & Ht6 & C6).
  unfold bind at 1. rewrite E6. clear E6.
  carry A6 R1.
  carry A6 R2.
  carry A6 R3.
  carry A6 R4.
  carry A6 R5.
  carry A6 L7.
  carry A6 L8.
  assert (R6 := eq_trans (f_equal (fun a => a !! "stop_loss_analytics") A6) (lookup_insert_eq _ _ _)).
  cbv beta in R6. clear A6 L6.
  rewrite ?C5 in R6. rewrite C5 in C6.
  destruct (fixed_duration_upserts w6 o7 ts L7 Ht6) as (w7 & E7 & A7 & Ht7 & C7).
  unfold bind at 1. rewrite E7. clear E7.
  carry A7 R1.
  carry A7 R2.
  carry A7 R3.
  carry A7 R4.
  carry A7 R5.
  carry A7 R6.
  carry A7 L8.
  assert (R7 := eq_trans (f_equal (fun a => a !! "duration_patterns") A7) (lookup_insert_eq _ _ _)).
  cbv beta in R7. clear A7 L7.
  rewrite ?C6 in R7. rewrite C6 in C7.
  destruct (fixed_bot_health_upserts w7 o8 ts L8 Ht7) as (w8 & E8 & A8 & Ht8 & C8).
  carry A8 R1.
  carry A8 R2.
  carry A8 R3.
  carry A8 R4.
  carry A8 R5.
  carry A8 R6.
  carry A8 R7.
  assert (R8 := eq_trans (f_equal (fun a => a !! "bot_health_metrics") A8) (lookup_insert_eq _ _ _)).
  cbv beta in R8. clear A8 L8.
  rewrite ?C7 in R8. rewrite C7 in C8.
  exists w8. split; [exact E8|].
  exact (conj R1 (conj R2 (conj R3 (conj R4 (conj R5 (conj R6 (conj R7 R8))))))).
Qed.

End FixedUpserts.

Section FixedCompletes.
Variable UNIQUE : string -> list (list nat).
Variable SQRT : Q -> Q.


End FixedCompletes.


Section FixedTables.
Variable UNIQUE : string -> list (list nat).
Variable SQRT : Q -> Q.

(** The tables a cycle of [Fixed] leaves on disk, for any schema. *)
Lemma fixed_cycle_upserts w ts ss o1 o2 o3 o4 o5 o6 o7 o8 :
  let n := COUNT (new_closed (last_processed_trade_id w) ts) in
  trades (disk w) = Some ts ->
  analysis_snapshots (disk w) = Some ss ->
  0 < n ->
  analytics (disk w) !! "performance_rankings" = Some o1 ->
  analytics (disk w) !! "risk_metrics" = Some o2 ->
  analytics (disk w) !! "strategy_performance" = Some o3 ->
  analytics (disk w) !! "timing_analysis" = Some o4 ->
  analytics (disk w) !! "pair_analytics" = Some o5 ->
  analytics (disk w) !! "stop_loss_analytics" = Some o6 ->
  analytics (disk w) !! "duration_patterns" = Some o7 ->
  analytics (disk w) !! "bot_health_metrics" = Some o8 ->
  let a := analytics (disk (snd (Fixed.check_for_new_trades UNIQUE SQRT w))) in
  let now := CURRENT_TIMESTAMP w in
  a !! "performance_rankings" =
    Some (replace_rows (UNIQUE "performance_rankings")
            (Fixed.performance_rankings_select ts now) o1) /\
  a !! "risk_metrics" =
    Some (replace_rows (UNIQUE "risk_metrics")
            (Fixed.risk_metrics_select SQRT ts now) o2) /\
  a !! "strategy_performance" =
    Some (replace_rows (UNIQUE "strategy_performance")
            (Fixed.strategy_performance_select SQRT ts now) o3) /\
  a !! "timing_analysis" =
    Some (replace_rows (UNIQUE "timing_analysis")
            (Fixed.day_of_week_select ts now)
            (replace_rows (UNIQUE "timing_analysis")
               (Fixed.hour_of_day_select ts now) o4)) /\
  a !! "pair_analytics" =
    Some (replace_rows (UNIQUE "pair_analytics")
            (Fixed.pair_analytics_select SQRT ts now) o5) /\
  a !! "stop_loss_analytics" =
    Some (replace_rows (UNIQUE "stop_loss_analytics")
            (Fixed.stop_loss_analytics_select ts now) o6) /\
  a !! "duration_patterns" =
    Some (replace_rows (UNIQUE "duration_patterns")
            (Fixed.duration_patterns_select ts now) o7) /\
  a !! "bot_health_metrics" =
    Some (replace_rows (UNIQUE "bot_health_metrics") (health_rows ts now) o8).
Proof.
  intros n Ht Hs Hn L1 L2 L3 L4 L5 L6 L7 L8 a now.
  destruct (last_processed_trade_id w) as [x|] eqn:Hx.
  2:{ subst n. unfold new_closed in Hn. rewrite filter_false in Hn.
      unfold COUNT in Hn. simpl in Hn. lia. }
  destruct (new_trades_raise_target ts x Hn) as (m & Hm & Hxm & Hm').
  assert (Ha : analytics (conn (opening w n (Some m))) = analytics (disk w)).
  { unfold opening, insert_snapshot. simpl. rewrite Hs. reflexivity. }
  assert (Hto : trades (conn (opening w n (Some m))) = Some ts).
  { unfold opening, insert_snapshot. simpl. rewrite Hs. simpl. exact Ht. }
  assert (Hnow : CURRENT_TIMESTAMP (opening w n (Some m)) = now).
  { unfold opening, insert_snapshot. simpl. rewrite Hs. reflexivity. }
  rewrite <- Ha in L1, L2, L3, L4, L5, L6, L7, L8.
  destruct (fixed_update_all_upserts UNIQUE SQRT _ ts o1 o2 o3 o4 o5 o6 o7 o8
              Hto L1 L2 L3 L4 L5 L6 L7 L8) as (wf & Hu & R).
  rewrite Hnow in R.
  assert (Hr : a = analytics (conn wf)).
  { subst a n. rewrite <- Hx in Hu, Hn.
    assert (Htg : target_of fixed (last_processed_trade_id w) ts = Some m)
      by (rewrite Hx; exact Hm').
    change (Fixed.check_for_new_trades UNIQUE SQRT w)
      with (cycle_of UNIQUE SQRT fixed w).
    rewrite (cycle_completed UNIQUE SQRT fixed w ts ss m wf Ht Hn Hs Htg Hu).
    reflexivity. }
  rewrite Hr. exact R.
Qed.

End FixedTables.

Lemma value_eqb_text s v : value_eqb (TEXT s) v = bool_decide (TEXT s = v).
Proof.
  destruct v; cbn [value_eqb];
    try (symmetry; apply bool_decide_eq_false_2; discriminate).
  apply bool_decide_ext. split; [intros ->; reflexivity | intros [= ->]; reflexivity].
Qed.

Lemma conflicts_key0 r x s :
  col 0 r = TEXT s -> conflicts [[0%nat]] r x = bool_decide (key0 r = key0 x).
Proof.
  intros E. unfold conflicts, collide, key0. simpl.
  rewrite E, value_eqb_text, andb_true_r, orb_false_r. reflexivity.
Qed.

Lemma conflicts_key01 r x s0 s1 :
  col 0 r = TEXT s0 -> col 1 r = TEXT s1 ->
  conflicts [[0%nat; 1%nat]] r x = bool_decide (key01 r = key01 x).
Proof.
  intros E0 E1. unfold conflicts, collide, key01. simpl.
  rewrite E0, E1, !value_eqb_text, andb_true_r, orb_false_r.
  destruct (decide (TEXT s0 = col 0 x)) as [H0|H0];
    destruct (decide (TEXT s1 = col 1 x)) as [H1|H1].
  - rewrite (bool_decide_eq_true_2 _ H0), (bool_decide_eq_true_2 _ H1).
    symmetry. apply bool_decide_eq_true_2. congruence.
  - rewrite (bool_decide_eq_true_2 _ H0), (bool_decide_eq_false_2 _ H1).
    symmetry. apply bool_decide_eq_false_2. congruence.
  - rewrite (bool_decide_eq_false_2 _ H0).
    symmetry. apply bool_decide_eq_false_2. congruence.
  - rewrite (bool_decide_eq_false_2 _ H0).
    symmetry. apply bool_decide_eq_false_2. congruence.
Qed.

Lemma fixed_ranking_keys now n (l : list (string * list trade)) :
  map key01 (map (Final.ranking_row now) (row_number_from n l))
  = map (fun kg => (TEXT "by_pair", TEXT (fst kg))) l.
Proof.
  revert n. induction l as [|x l IH]; intros n; simpl; [reflexivity|].
  f_equal. apply IH.
Qed.

Section FixedKeys.
Variable SQRT : Q -> Q.

(** The rows each [SELECT] of [Fixed] returns carry text keys, no two the
    same. *)
Lemma fixed_select_keys ts now :
  (NoDup (map key01 (Fixed.performance_rankings_select ts now)) /\
   forall r, In r (Fixed.performance_rankings_select ts now) ->
     exists s0 s1, col 0 r = TEXT s0 /\ col 1 r = TEXT s1) /\
  (NoDup (map key0 (Fixed.risk_metrics_select SQRT ts now)) /\
   forall r, In r (Fixed.risk_metrics_select SQRT ts now) ->
     exists s, col 0 r = TEXT s) /\
  (NoDup (map key0 (Fixed.strategy_performance_select SQRT ts now)) /\
   forall r, In r (Fixed.strategy_performance_select SQRT ts now) ->
     exists s, col 0 r = TEXT s) /\
  (NoDup (map key0 (Fixed.pair_analytics_select SQRT ts now)) /\
   forall r, In r (Fixed.pair_analytics_select SQRT ts now) ->
     exists s, col 0 r = TEXT s) /\
  (NoDup (map key0 (Fixed.stop_loss_analytics_select ts now)) /\
   forall r, In r (Fixed.stop_loss_analytics_select ts now) ->
     exists s, col 0 r = TEXT s) /\
  (NoDup (map key0 (Fixed.duration_patterns_select ts now)) /\
   forall r, In r (Fixed.duration_patterns_select ts now) ->
     exists s, col 0 r = TEXT s) /\
  (NoDup (map key0 (health_rows ts now)) /\
   forall r, In r (health_rows ts now) -> exists s, col 0 r = TEXT s).
Proof.
  split; [|split; [|split; [|split; [|split; [|split]]]]].
  - split.
    + unfold Fixed.performance_rankings_select, ROW_NUMBER.
      rewrite fixed_ranking_keys.
      rewrite (Permutation_map _ (order_by_desc_perm _ _)).
      rewrite <- (map_map fst (fun k => (TEXT "by_pair", TEXT k))).
      apply NoDup_map_inj; [intros x y [= ->]; reflexivity | apply group_by_NoDup].
    + intros r Hr. unfold Fixed.performance_rankings_select in Hr.
      apply in_map_iff in Hr. destruct Hr as (x & <- & _). eexists _, _.
      split; reflexivity.
  - split; [apply NoDup_singleton|].
    intros r [<-|[]]. eexists. reflexivity.
  - split.
    + apply (proj1 (grouped_one_row_per_key strategy TEXT
                      (Fixed.strategy_row SQRT now) key0 (closed ts)
                      ltac:(intros x y [= ->]; reflexivity)
                      ltac:(intros kg; reflexivity))).
    + intros r Hr. apply in_map_iff in Hr. destruct Hr as (x & <- & _).
      eexists. reflexivity.
  - split.
    + apply (proj1 (grouped_one_row_per_key pair TEXT
                      (Fixed.pair_row SQRT now) key0 (closed ts)
                      ltac:(intros x y [= ->]; reflexivity)
                      ltac:(intros kg; reflexivity))).
    + intros r Hr. apply in_map_iff in Hr. destruct Hr as (x & <- & _).
      eexists. reflexivity.
  - split.
    + apply (proj1 (grouped_one_row_per_key pair TEXT
                      (Fixed.stop_loss_row now) key0 (closed ts)
                      ltac:(intros x y [= ->]; reflexivity)
                      ltac:(intros kg; reflexivity))).
    + intros r Hr. apply in_map_iff in Hr. destruct Hr as (x & <- & _).
      eexists. reflexivity.
  - split.
    + apply (proj1 (grouped_one_row_per_key Final.category_of text_or_null
                      (Fixed.duration_row now) key0 (Final.timed ts)
                      ltac:(intros [x|] [y|]; simpl; congruence)
                      ltac:(intros kg; reflexivity))).
    + intros r Hr. apply in_map_iff in Hr. destruct Hr as ([k g] & <- & Hin).
      apply group_by_In in Hin. destruct Hin as (Hk & _).
      apply in_map_iff in Hk. destruct Hk as (t & <- & Ht).
      unfold Final.timed in Ht. apply filter_In in Ht. destruct Ht as (_ & Hd).
      apply bool_decide_eq_true_1 in Hd. destruct Hd as [d Hd].
      unfold Final.category_of. rewrite Hd. eexists. reflexivity.
  - unfold health_rows.
    destruct (bot_health_rows ts now) as [rows|e] eqn:E;
      [|split; [constructor | intros r []]].
    split.
    + apply (proj2 (proj2 (proj2 (proj2 (proj2 (proj2 (proj2
               (final_selects_one_row_per_key SQRT ts now)))))))). exact E.
    + revert E. unfold bot_health_rows.
      destruct (0 <? COUNT (closed ts)); [|intros [= <-] r []].
      destruct (win_rate (closed ts)), (AVG (map profit_pct (closed ts))),
        (MIN (map profit_pct (closed ts))); try discriminate.
      intros [= <-] r Hr. simpl in Hr.
      destruct Hr as [<-|[<-|[<-|[<-|[<-|[<-|[]]]]]]]; eexists; reflexivity.
Qed.

End FixedKeys.

Section FixedByKey.
Variable SQRT : Q -> Q.

Lemma upserted_intro {K} `{EqDecision K} d d' name ucs (k : row -> K) new old :
  analytics d !! name = Some old ->
  analytics d' !! name = Some (replace_rows ucs new old) ->
  (forall r x, In r new -> conflicts ucs r x = bool_decide (k r = k x)) ->
  NoDup (map k new) ->
  upserted d d' name k new.
Proof.
  intros Ho Hn Hk Hnd. exists old. split; [exact Ho|]. split; [|exact Hnd].
  rewrite <- (upsert_by_key ucs k new old Hk Hnd). exact Hn.
Qed.

(** With tables [UNIQUE] on their group keys, what a cycle of
    [trading_analytics_automation_fixed.py] does to a table is determined
    key by key: the rows whose key is not in the current recomputation
    stay as they were, stale; every key of the current recomputation has
    exactly one row, the one just computed.  No old row with a current key
    survives, and nothing else is deleted. *)
Theorem fixed_cycle_replaces_by_key w ts ss :
  let n := COUNT (new_closed (last_processed_trade_id w) ts) in
  trades (disk w) = Some ts ->
  analysis_snapshots (disk w) = Some ss ->
  has_tables (disk w) ->
  0 < n ->
  let d := disk w in
  let d' := disk (snd (Fixed.check_for_new_trades keyed SQRT w)) in
  let now := CURRENT_TIMESTAMP w in
  upserted d d' "performance_rankings" key01
    (Fixed.performance_rankings_select ts now) /\
  upserted d d' "risk_metrics" key0 (Fixed.risk_metrics_select SQRT ts now) /\
  upserted d d' "strategy_performance" key0
    (Fixed.strategy_performance_select SQRT ts now) /\
  upserted d d' "pair_analytics" key0
    (Fixed.pair_analytics_select SQRT ts now) /\
  upserted d d' "stop_loss_analytics" key0
    (Fixed.stop_loss_analytics_select ts now) /\
  upserted d d' "duration_patterns" key0
    (Fixed.duration_patterns_select ts now) /\
  upserted d d' "bot_health_metrics" key0 (health_rows ts now).
Proof.
  intros n Ht Hs Htab Hn d d' now.
  destruct (Htab "performance_rankings") as [o1 L1]; [simpl; tauto|].
  destruct (Htab "risk_metrics") as [o2 L2]; [simpl; tauto|].
  destruct (Htab "strategy_performance") as [o3 L3]; [simpl; tauto|].
  destruct (Htab "timing_analysis") as [o4 L4]; [simpl; tauto|].
  destruct (Htab "pair_analytics") as [o5 L5]; [simpl; tauto|].
  destruct (Htab "stop_loss_analytics") as [o6 L6]; [simpl; tauto|].
  destruct (Htab "duration_patterns") as [o7 L7]; [simpl; tauto|].
  destruct (Htab "bot_health_metrics") as [o8 L8]; [simpl; tauto|].
  destruct (fixed_cycle_upserts keyed SQRT w ts ss o1 o2 o3 o4 o5 o6 o7 o8
              Ht Hs Hn L1 L2 L3 L4 L5 L6 L7 L8)
    as (R1 & R2 & R3 & _ & R5 & R6 & R7 & R8).
  destruct (fixed_select_keys SQRT ts now)
    as ((N1 & T1) & (N2 & T2) & (N3 & T3) & (N5 & T5) & (N6 & T6) & (N7 & T7)
        & (N8 & T8)).
  split; [|split; [|split; [|split; [|split; [|split]]]]].
  - apply (upserted_intro d d' _ _ key01 _ o1 L1 R1); [|exact N1].
    intros r x Hr. destruct (T1 r Hr) as (s0 & s1 & E0 & E1).
    apply (conflicts_key01 r x s0 s1 E0 E1).
  - apply (upserted_intro d d' _ _ key0 _ o2 L2 R2); [|exact N2].
    intros r x Hr. destruct (T2 r Hr) as (s & E). apply (conflicts_key0 r x s E).
  - apply (upserted_intro d d' _ _ key0 _ o3 L3 R3); [|exact N3].
    intros r x Hr. destruct (T3 r Hr) as (s & E). apply (conflicts_key0 r x s E).
  - apply (upserted_intro d d' _ _ key0 _ o5 L5 R5); [|exact N5].
    intros r x Hr. destruct (T5 r Hr) as (s & E). apply (conflicts_key0 r x s E).
  - apply (upserted_intro d d' _ _ key0 _ o6 L6 R6); [|exact N6].
    intros r x Hr. destruct (T6 r Hr) as (s & E). apply (conflicts_key0 r x s E).
  - apply (upserted_intro d d' _ _ key0 _ o7 L7 R7); [|exact N7].
    intros r x Hr. destruct (T7 r Hr) as (s & E). apply (conflicts_key0 r x s E).
  - apply (upserted_intro d d' _ _ key0 _ o8 L8 R8); [|exact N8].
    intros r x Hr. destruct (T8 r Hr) as (s & E). apply (conflicts_key0 r x s E).
Qed.

End FixedByKey.

Lemma fixed_cycle_replaces_by_key_witness :
  upserted
    (disk (run keyed sqrt6 fixed [tick; trade_store (Some pruned)]
             (started fixed two_pairs_db "t")))
    (disk (run keyed sqrt6 fixed [tick; trade_store (Some pruned); tick]
             (started fixed two_pairs_db "t")))
    "pair_analytics" key0 (Fixed.pair_analytics_select sqrt6 pruned "t").
Proof.
  refine (proj1 (proj2 (proj2 (proj2
            (fixed_cycle_replaces_by_key sqrt6
               (run keyed sqrt6 fixed [tick; trade_store (Some pruned)]
                  (started fixed two_pairs_db "t"))
               pruned
               (log_of (run keyed sqrt6 fixed [tick; trade_store (Some pruned)]
                          (started fixed two_pairs_db "t")))
               _ _ _ _))))).
  - vm_compute. reflexivity.
  - vm_compute. reflexivity.
  - intros name Hin. simpl in Hin.
    destruct Hin as [<-|[<-|[<-|[<-|[<-|[<-|[<-|[<-|[]]]]]]]]];
      vm_compute; eauto.
  - vm_compute. reflexivity.
Defined.

(** * Rankings *)

Lemma no_less_trans {A} (f : A -> option Q) x y z :
  no_less f x y -> no_less f y z -> no_less f x z.
Proof.
  unfold no_less. destruct (f x), (f y), (f z); try tauto.
  intros H1 H2. eapply Qle_trans; eassumption.
Qed.

Lemma insert_desc_descending {A} (f : A -> option Q) x l :
  descending f l -> descending f (insert_desc f x l).
Proof.
  induction l as [|y ys IH]; intros Hl; simpl.
  - split; [constructor | exact I].
  - destruct Hl as [Hy Hys].
    assert (Hkeep : no_less f y x ->
              descending f (y :: insert_desc f x ys)).
    { intros Hyx. split; [|apply IH; exact Hys].
      apply List.Forall_forall. intros z Hz.
      apply (Permutation_in _ (insert_desc_perm f x ys)) in Hz.
      destruct Hz as [<-|Hz]; [exact Hyx|].
      rewrite List.Forall_forall in Hy. apply Hy, Hz. }
    assert (Hfront : no_less f x y -> descending f (x :: y :: ys)).
    { intros Hxy. split; [|split; assumption].
      constructor; [exact Hxy|].
      apply List.Forall_forall. intros z Hz. rewrite List.Forall_forall in Hy.
      apply (no_less_trans f x y z Hxy), Hy, Hz. }
    destruct (f x) as [a|] eqn:Ex, (f y) as [b|] eqn:Ey.
    + destruct (Qlt_bool b a) eqn:E.
      * apply Hfront. unfold no_less. rewrite Ex, Ey.
        apply Qlt_le_weak, Qlt_bool_iff, E.
      * apply Hkeep. unfold no_less. rewrite Ex, Ey.
        unfold Qlt_bool in E. apply negb_false_iff, Qle_bool_iff in E. exact E.
    + apply Hfront. unfold no_less. rewrite Ex, Ey. exact I.
    + apply Hkeep. unfold no_less. rewrite Ex, Ey. exact I.
    + apply Hkeep. unfold no_less. rewrite Ex, Ey. exact I.
Qed.

Lemma order_by_desc_descending {A} (f : A -> option Q) l :
  descending f (order_by_desc f l).
Proof.
  induction l as [|x l IH]; simpl; [exact I|].
  apply insert_desc_descending, IH.
Qed.

Lemma descending_map {A B} (f : A -> option Q) (g : B -> option Q)
    (h : A -> B) l :
  (forall x, g (h x) = f x) -> descending f l -> descending g (map h l).
Proof.
  intros Hg. induction l as [|x l IH]; simpl; [auto|].
  intros [Hx Hl]. split; [|apply IH, Hl].
  apply List.Forall_forall. intros y Hy. apply in_map_iff in Hy.
  destruct Hy as (z & <- & Hz). rewrite List.Forall_forall in Hx.
  specialize (Hx z Hz). unfold no_less in *. rewrite !Hg. exact Hx.
Qed.

Lemma descending_split {A} (f : A -> option Q) pre x post :
  descending f (pre ++ x :: post) ->
  Forall (no_less f x) post /\ Forall (fun y => no_less f y x) pre.
Proof.
  induction pre as [|y pre IH]; simpl.
  - intros [Hx _]. split; [exact Hx | constructor].
  - intros [Hy Hl]. destruct (IH Hl) as [H1 H2]. split; [exact H1|].
    constructor; [|exact H2].
    rewrite List.Forall_forall in Hy. apply Hy. apply in_or_app. right. left.
    reflexivity.
Qed.

Lemma rank_of_row now n (l : list (string * list trade)) pre r post :
  map (Final.ranking_row now) (row_number_from n l) = (pre ++ r :: post)%list ->
  col 12 r = INTEGER (n + COUNT pre).
Proof.
  revert n l. induction pre as [|p pre IH]; intros n l H.
  - destruct l as [|x l]; [discriminate|]. simpl in H. injection H as <- _.
    unfold COUNT. simpl. transitivity (INTEGER n); [reflexivity|]. f_equal. lia.
  - destruct l as [|x l]; [discriminate|]. simpl in H. injection H as _ H.
    rewrite (IH _ _ H). unfold COUNT. simpl length. f_equal. lia.
Qed.

Lemma row_number_descending {A} (f : A -> option Q) n (l : list A) :
  descending f l -> descending (fun x => f (snd x)) (row_number_from n l).
Proof.
  revert n. induction l as [|x l IH]; intros n; simpl; [auto|].
  intros [Hx Hl]. split; [|apply IH, Hl].
  apply List.Forall_forall. intros [m y] Hy.
  assert (Hy' : In y l).
  { rewrite <- (row_number_snd (n + 1) l). apply (in_map snd _ _ Hy). }
  rewrite List.Forall_forall in Hx. exact (Hx y Hy').
Qed.

Lemma group_nonempty {A K} `{EqDecision K} (key : A -> K) (l : list A) k g :
  In (k, g) (group_by key l) -> g <> [].
Proof.
  intros H. apply group_by_In in H. destruct H as (Hk & ->).
  apply in_map_iff in Hk. destruct Hk as (x & <- & Hx).
  intros E. assert (Hin : In x (List.filter (fun y => bool_decide (key y = key x)) l)).
  { apply filter_In. split; [exact Hx|]. apply bool_decide_eq_true_2. reflexivity. }
  rewrite E in Hin. destruct Hin.
Qed.

(** The rankings are ranked.  In both files the rows of the rankings come
    out in the order of their rank: the row in position [i] carries
    [rank_position = i], counting from 1, its mean profit pct is a number,
    no row after it has a greater mean profit pct and no row before it a
    smaller one. *)
Theorem rankings_are_ranked ts now pre r post :
  Final.performance_rankings_select ts now = (pre ++ r :: post)%list ->
  Fixed.performance_rankings_select ts now = (pre ++ r :: post)%list /\
  col 12 r = INTEGER (1 + COUNT pre) /\
  exists a,
    col 4 r = REAL a /\
    Forall (fun r' => exists b, col 4 r' = REAL b /\ (b <= a)%Q) post /\
    Forall (fun r' => exists c, col 4 r' = REAL c /\ (a <= c)%Q) pre.
Proof.
  intros H. split; [exact H|].
  unfold Final.performance_rankings_select, ROW_NUMBER in H.
  split; [exact (rank_of_row now 1 _ pre r post H)|].
  set (f := fun kg : string * list trade => AVG (map profit_pct (snd kg))) in *.
  set (L := order_by_desc f (group_by pair (closed ts))) in *.
  assert (Hsorted : descending (fun r => real_of (col 4 r))
                      (map (Final.ranking_row now) (row_number_from 1 L))).
  { apply (descending_map (fun x => f (snd x))).
    - intros [n kg].
      change (real_of (num (AVG (map profit_pct (snd kg))))
              = AVG (map profit_pct (snd kg))).
      destruct (AVG (map profit_pct (snd kg))); reflexivity.
    - apply row_number_descending, order_by_desc_descending. }
  assert (Hreal : forall r', In r' (pre ++ r :: post) -> exists a, col 4 r' = REAL a).
  { intros r' Hr'. rewrite <- H in Hr'. apply in_map_iff in Hr'.
    destruct Hr' as ([n [k g]] & <- & Hin).
    assert (Hg : In (k, g) L).
    { rewrite <- (row_number_snd 1 L). apply (in_map snd _ _ Hin). }
    apply (Permutation_in _ (order_by_desc_perm f _)) in Hg.
    apply group_nonempty in Hg. simpl. destruct g as [|t g]; [congruence|].
    eexists. reflexivity. }
  rewrite H in Hsorted. apply descending_split in Hsorted.
  destruct Hsorted as [Hpost Hpre].
  destruct (Hreal r) as [a Ha]; [apply in_or_app; right; left; reflexivity|].
  exists a. split; [exact Ha|]. split.
  - apply List.Forall_forall. intros r' Hr'.
    rewrite List.Forall_forall in Hpost. specialize (Hpost r' Hr').
    destruct (Hreal r') as [b Hb]; [apply in_or_app; right; right; exact Hr'|].
    exists b. split; [exact Hb|]. unfold no_less in Hpost.
    rewrite Ha, Hb in Hpost. exact Hpost.
  - apply List.Forall_forall. intros r' Hr'.
    rewrite List.Forall_forall in Hpre. specialize (Hpre r' Hr').
    destruct (Hreal r') as [c Hc]; [apply in_or_app; left; exact Hr'|].
    exists c. split; [exact Hc|]. unfold no_less in Hpre.
    rewrite Ha, Hc in Hpre. exact Hpre.
Qed.

Lemma rankings_are_ranked_witness :
  exists r1 r2,
    Final.performance_rankings_select two_pairs "t" = [r1; r2] /\
    col 1 r1 = TEXT "BTC/USD" /\ col 12 r1 = INTEGER 1 /\
    col 1 r2 = TEXT "ETH/USD" /\ col 12 r2 = INTEGER 2.
Proof.
  eexists _, _. split; [reflexivity|].
  split; [reflexivity|]. split.
  - exact (proj1 (proj2 (rankings_are_ranked two_pairs "t" [] _ [_] eq_refl))).
  - split; [reflexivity|].
    exact (proj1 (proj2 (rankings_are_ranked two_pairs "t" [_] _ [] eq_refl))).
Defined.

(** * Rates and counts *)

Lemma filter_length_le_all {A} (p : A -> bool) l :
  (length (List.filter p l) <= length l)%nat /\
  (length (List.filter p l) = 0%nat <-> forall x, In x l -> p x = false) /\
  (length (List.filter p l) = length l <-> forall x, In x l -> p x = true).
Proof.
  induction l as [|x l (IH1 & IH2 & IH3)]; simpl.
  - repeat split; auto; intros _ y [].
  - destruct (p x) eqn:E; simpl.
    + split; [lia|]. split.
      * split; [discriminate|]. intros H. specialize (H x (or_introl eq_refl)).
        congruence.
      * split.
        -- intros H y [<-|Hy]; [exact E|]. apply IH3; [lia | exact Hy].
        -- intros H. f_equal. apply IH3. intros y Hy. apply H. right. exact Hy.
    + split; [lia|]. split.
      * split.
        -- intros H y [<-|Hy]; [exact E|]. apply IH2; assumption.
        -- intros H. apply IH2. intros y Hy. apply H. right. exact Hy.
      * split; [lia|]. intros H. specialize (H x (or_introl eq_refl)). congruence.
Qed.

Lemma ratio_bounds (a : Z) (p : positive) (q : Q) :
  (q == inject_Z a / inject_Z (Zpos p))%Q ->
  0 <= a <= Zpos p ->
  (0 <= q)%Q /\ (q <= 1)%Q /\
  ((q == 0)%Q <-> a = 0) /\ ((q == 1)%Q <-> a = Zpos p).
Proof.
  intros Hq Ha. rewrite <- Qmake_Qdiv in Hq.
  repeat split.
  - rewrite Hq. unfold Qle. simpl. lia.
  - rewrite Hq. unfold Qle. simpl. lia.
  - rewrite Hq. unfold Qeq. simpl. lia.
  - intros ->. rewrite Hq. reflexivity.
  - rewrite Hq. unfold Qeq. simpl. lia.
  - intros ->. rewrite Hq. unfold Qeq. simpl. lia.
Qed.

(** A win rate is a rate.  The win rate of a group is [NULL] exactly when
    the group is empty; otherwise it lies between 0 and 1, is 0 exactly
    when no trade of the group has a positive profit pct, and 1 exactly
    when all have. *)
Theorem win_rate_is_a_rate (g : list trade) :
  (win_rate g = None <-> g = []) /\
  forall q, win_rate g = Some q ->
    (0 <= q)%Q /\ (q <= 1)%Q /\
    ((q == 0)%Q <-> forall t, In t g -> (profit_pct t <= 0)%Q) /\
    ((q == 1)%Q <-> forall t, In t g -> (0 < profit_pct t)%Q).
Proof.
  split.
  - unfold win_rate, AVG. destruct g; simpl; split; congruence.
  - intros q Hq.
    assert (Hg : g <> []) by (intros ->; discriminate).
    destruct (win_rate_spec g Hg) as (q' & Hq' & Hv).
    rewrite Hq in Hq'. injection Hq' as <-.
    destruct (filter_length_le_all (fun t => Qlt_bool 0 (profit_pct t)) g)
      as (Hle & Hzero & Hall).
    unfold COUNT in Hv.
    assert (Hpos : exists p, Z.of_nat (length g) = Zpos p).
    { destruct g as [|t g']; [congruence|]. simpl length.
      exists (Pos.of_succ_nat (length g')). reflexivity. }
    destruct Hpos as [p Hp]. rewrite Hp in Hv.
    destruct (ratio_bounds _ p q Hv) as (H0 & H1 & Hz & Ho); [lia|].
    split; [exact H0|]. split; [exact H1|]. split.
    + rewrite Hz. rewrite <- Nat2Z.inj_0, Nat2Z.inj_iff, Hzero.
      split; intros H t Ht; specialize (H t Ht).
      * unfold Qlt_bool in H. apply negb_false_iff, Qle_bool_iff in H. exact H.
      * unfold Qlt_bool. apply negb_false_iff, Qle_bool_iff. exact H.
    + rewrite Ho, <- Hp, Nat2Z.inj_iff, Hall.
      split; intros H t Ht; specialize (H t Ht); apply Qlt_bool_iff; exact H.
Qed.

Lemma win_rate_is_a_rate_witness :
  exists q, win_rate three_trades = Some q /\ (0 <= q)%Q /\ (q <= 1)%Q.
Proof.
  eexists. split; [reflexivity|].
  destruct (proj2 (win_rate_is_a_rate three_trades) _ eq_refl) as (H0 & H1 & _).
  split; [exact H0 | exact H1].
Defined.

Lemma filter_either_length {A} (p q : A -> bool) l :
  (forall x, In x l -> p x && q x = false) ->
  length (List.filter (fun x => p x || q x) l)
  = (length (List.filter p l) + length (List.filter q l))%nat.
Proof.
  induction l as [|x l IH]; intros H; simpl; [reflexivity|].
  assert (Hx := H x (or_introl eq_refl)).
  assert (IH' := IH (fun y Hy => H y (or_intror Hy))).
  destruct (p x), (q x); simpl in *; try discriminate; lia.
Qed.

Lemma keyed_counts {A K} `{EqDecision K} (key : A -> K) (l : list A) ks :
  NoDup ks ->
  fold_right Z.add 0
    (map (fun k => COUNT (List.filter (fun x => bool_decide (key x = k)) l)) ks)
  = COUNT (List.filter (fun x => bool_decide (key x ∈ ks)) l).
Proof.
  unfold COUNT. induction 1 as [|k ks Hk Hks IH]; cbn [map fold_right].
  - rewrite (List.filter_ext (fun x => bool_decide (key x ∈ [])) (fun _ => false)).
    + rewrite filter_false. reflexivity.
    + intros x. apply bool_decide_eq_false_2, not_elem_of_nil.
  - rewrite IH, <- Nat2Z.inj_add. f_equal.
    rewrite <- filter_either_length.
    + f_equal. apply List.filter_ext. intros x.
      destruct (decide (key x = k)) as [E|E].
      * rewrite (bool_decide_eq_true_2 _ E). simpl.
        symmetry. apply bool_decide_eq_true_2. rewrite E. left.
      * rewrite (bool_decide_eq_false_2 _ E). simpl.
        apply bool_decide_ext. rewrite elem_of_cons. tauto.
    + intros x _. destruct (decide (key x = k)) as [E|E].
      * rewrite (bool_decide_eq_true_2 _ E). simpl.
        apply bool_decide_eq_false_2. rewrite E. exact Hk.
      * rewrite (bool_decide_eq_false_2 _ E). reflexivity.
Qed.

Lemma group_by_counts {A K} `{EqDecision K} (key : A -> K) (l : list A) :
  fold_right Z.add 0 (map (fun kg => COUNT (snd kg)) (group_by key l)) = COUNT l.
Proof.
  unfold group_by. rewrite map_map. cbn [snd].
  rewrite (keyed_counts key l _ (NoDup_remove_dups _)). f_equal.
  apply filter_all. intros x Hx.
  apply bool_decide_eq_true_2, elem_of_remove_dups, list_elem_of_In, in_map, Hx.
Qed.

Lemma column_total_groups {A K} `{EqDecision K} (key : A -> K) (l : list A)
    (f : K * list A -> row) c :
  (forall kg, int_of (col c (f kg)) = COUNT (snd kg)) ->
  column_total c (map f (group_by key l)) = COUNT l.
Proof.
  intros Hf. unfold column_total. rewrite map_map.
  rewrite (map_ext _ (fun kg => COUNT (snd kg))) by exact Hf.
  apply group_by_counts.
Qed.

Lemma sum_perm (l l' : list Z) :
  Permutation l l' -> fold_right Z.add 0 l = fold_right Z.add 0 l'.
Proof. induction 1; simpl; lia. Qed.

Lemma ranking_counts now n (l : list (string * list trade)) :
  map (fun r => int_of (col 6 r)) (map (Final.ranking_row now) (row_number_from n l))
  = map (fun kg => COUNT (snd kg)) l.
Proof.
  revert n. induction l as [|x l IH]; intros n; simpl; [reflexivity|].
  f_equal. apply IH.
Qed.

Lemma wins_and_losses (g : list trade) :
  int_of (int (SUMi (map win_i g))) + int_of (int (SUMi (map loss_i g))) = COUNT g.
Proof.
  assert (H : fold_right Z.add 0 (map win_i g) + fold_right Z.add 0 (map loss_i g)
              = COUNT g).
  { unfold COUNT. induction g as [|t g IH]; [reflexivity|].
    cbn [map fold_right length]. rewrite Nat2Z.inj_succ.
    assert (Ht : win_i t + loss_i t = 1).
    { unfold win_i, loss_i, Qlt_bool. destruct (Qle_bool (profit_pct t) 0); reflexivity. }
    lia. }
  destruct g as [|t g]; [reflexivity|]. exact H.
Qed.

Section Counts.
Variable SQRT : Q -> Q.

(** Every closed trade is counted once.  In each table that groups the
    closed trades, the trade counts of the rows add up to the number of
    closed trades (for the duration table, of closed trades with a
    duration), and in every row that reports wins and losses the two add
    up to the trade count of the row. *)
Theorem trade_counts_add_up ts now :
  column_total 6 (Final.performance_rankings_select ts now) = COUNT (closed ts) /\
  column_total 1 (Final.strategy_performance_select ts now) = COUNT (closed ts) /\
  column_total 3 (Final.pair_analytics_select SQRT ts now) = COUNT (closed ts) /\
  column_total 4 (Final.duration_patterns_select ts now) = COUNT (Final.timed ts) /\
  column_total 1 (Fixed.strategy_performance_select SQRT ts now) = COUNT (closed ts) /\
  column_total 1 (Fixed.pair_analytics_select SQRT ts now) = COUNT (closed ts) /\
  column_total 1 (Fixed.stop_loss_analytics_select ts now) = COUNT (closed ts) /\
  column_total 1 (Fixed.duration_patterns_select ts now) = COUNT (Final.timed ts) /\
  (forall r, In r (Final.strategy_performance_select ts now) ->
     int_of (col 2 r) + int_of (col 3 r) = int_of (col 1 r)) /\
  (forall r, In r (Final.pair_analytics_select SQRT ts now) ->
     int_of (col 4 r) + int_of (col 5 r) = int_of (col 3 r)) /\
  (forall r, In r (Fixed.strategy_performance_select SQRT ts now) ->
     int_of (col 2 r) + int_of (col 3 r) = int_of (col 1 r)).
Proof.
  split.
  { unfold Final.performance_rankings_select, ROW_NUMBER, column_total.
    rewrite ranking_counts.
    rewrite (sum_perm _ _ (Permutation_map _ (order_by_desc_perm _ _))).
    apply group_by_counts. }
  repeat (split; [apply column_total_groups; intros kg; reflexivity|]).
  split; [|split]; intros r Hr; apply in_map_iff in Hr;
    destruct Hr as ([k g] & <- & _); apply (wins_and_losses g).
Qed.

End Counts.

(** * The best and the worst hour *)

Lemma descending_last {A} (f : A -> option Q) (l : list A) d x :
  descending f l -> In x l -> x = List.last l d \/ no_less f x (List.last l d).
Proof.
  intros Hd Hx. destruct l as [|y l]; [destruct Hx|].
  destruct (exists_last (l := y :: l)) as (pre & z & E); [discriminate|].
  rewrite E in *. rewrite last_last.
  apply in_app_or in Hx. destruct Hx as [Hx|[<-|[]]]; [|left; reflexivity].
  right. apply descending_split in Hd. destruct Hd as [_ Hpre].
  rewrite List.Forall_forall in Hpre. apply Hpre, Hx.
Qed.

Lemma last_cons_default {A} (x : A) (l : list A) :
  List.last l x = List.last (x :: l) x.
Proof. destruct l; reflexivity. Qed.

Lemma find_group {K V} `{EqDecision K} (F : K -> V) (ks : list K) (p : K) :
  List.find (fun r => bool_decide (fst r = p)) (map (fun k => (k, F k)) ks)
  = if bool_decide (p ∈ ks) then Some (p, F p) else None.
Proof.
  induction ks as [|k ks IH]; cbn [map List.find fst].
  - rewrite bool_decide_eq_false_2 by apply not_elem_of_nil. reflexivity.
  - destruct (decide (k = p)) as [->|E].
    + rewrite (bool_decide_eq_true_2 (p = p)) by reflexivity.
      rewrite bool_decide_eq_true_2 by left. reflexivity.
    + rewrite (bool_decide_eq_false_2 _ E), IH.
      apply f_equal with (f := fun b : bool => if b then Some (p, F p) else None).
      apply bool_decide_ext. rewrite elem_of_cons. split; [auto|].
      intros [H|H]; [congruence | exact H].
Qed.

Lemma period_perf_mean_or_zero ts p :
  mean_or_zero ts p (Final.period_perf p (Final.period_data ts)).
Proof.
  unfold Final.period_perf, Final.period_data, group_by.
  rewrite map_map. cbn [fst snd].
  rewrite (find_group
    (fun k => AVG (map profit_pct
       (List.filter (fun x => bool_decide (Final.period_type x = k))
          (Final.dated ts))))).
  split.
  - intros (t & Ht & Hp). rewrite bool_decide_eq_true_2; [reflexivity|].
    rewrite elem_of_remove_dups. apply list_elem_of_In, in_map_iff.
    exists t. split; [exact Hp | exact Ht].
  - intros Hno. rewrite bool_decide_eq_false_2; [reflexivity|].
    rewrite elem_of_remove_dups. intros H. apply list_elem_of_In, in_map_iff in H.
    destruct H as (t & Hp & Ht). exact (Hno t Ht Hp).
Qed.

Lemma hour_of_range d : 0 <= hour_of d < 24.
Proof. unfold hour_of. apply Z.mod_pos_bound. lia. Qed.

Lemma dated_has_date ts t : In t (Final.dated ts) -> is_Some (open_date t).
Proof.
  unfold Final.dated. intros H. apply filter_In in H. destruct H as [_ H].
  apply bool_decide_eq_true in H. exact H.
Qed.

Lemma hour_group ts k g :
  In (k, g) (group_by (fun t => option_map hour_of (open_date t))
               (Final.dated ts)) ->
  exists h a, k = Some h /\ 0 <= h < 24 /\ hour_mean ts h = Some a /\
    AVG (map profit_pct g) = Some a.
Proof.
  intros H. pose proof (group_nonempty _ _ _ _ H) as Hne.
  apply group_by_In in H. destruct H as (Hk & ->).
  apply in_map_iff in Hk. destruct Hk as (t & Hk & Ht).
  destruct (dated_has_date _ _ Ht) as [d Hd]. rewrite Hd in Hk. simpl in Hk.
  subst k. exists (hour_of d). eexists. split; [reflexivity|].
  split; [apply hour_of_range|]. unfold hour_mean.
  split; apply AVG_nonempty; intros E; apply map_eq_nil in E; exact (Hne E).
Qed.

(** The best and the worst hour.  The timing analysis of
    trading_analytics_automation_final.py stores 0 for both hours and for
    both period performances where no closed trade has an open date.
    Otherwise the best and the worst hour are hours of the day in which a
    dated closed trade was opened, no hour of such a trade has a greater
    mean profit pct than the best hour and none a smaller one than the
    worst, and each period performance is the mean profit pct of the dated
    closed trades of that period, or 0 where there is none. *)
Theorem timing_best_and_worst_hour ts :
  (Final.dated ts = [] ->
   Final.timing_params ts = (0, 0, Some 0%Q, Some 0%Q)) /\
  (Final.dated ts <> [] ->
   exists best worst weekend weekday b c,
     Final.timing_params ts = (best, worst, weekend, weekday) /\
     0 <= best < 24 /\ 0 <= worst < 24 /\
     hour_mean ts best = Some b /\ hour_mean ts worst = Some c /\
     (forall t, In t (Final.dated ts) ->
        exists d a, open_date t = Some d /\
          hour_mean ts (hour_of d) = Some a /\ (c <= a)%Q /\ (a <= b)%Q) /\
     mean_or_zero ts "weekend" weekend /\
     mean_or_zero ts "weekday" weekday).
Proof.
  split.
  - intros E. unfold Final.timing_params, Final.hourly_data. rewrite E.
    reflexivity.
  - intros Hne. unfold Final.timing_params, Final.hourly_data.
    set (key := fun t : trade => option_map hour_of (open_date t)).
    set (f := fun kg : option Z * list trade => AVG (map profit_pct (snd kg))).
    set (G := group_by key (Final.dated ts)).
    pose proof (order_by_desc_perm f G) as Hperm.
    pose proof (order_by_desc_descending f G) as Hdesc.
    destruct (order_by_desc f G) as [|first rest] eqn:EL.
    { exfalso. apply Permutation_nil in Hperm.
      destruct (Final.dated ts) as [|t l] eqn:Ed; [congruence|].
      assert (Hin : In (key t, List.filter (fun x => bool_decide (key x = key t)) (t :: l)) G).
      { apply group_by_In. split; [left; reflexivity | reflexivity]. }
      rewrite Hperm in Hin. destruct Hin. }
    assert (HinG : forall x, In x (first :: rest) -> In x G).
    { intros x Hx. apply (Permutation_in _ Hperm), Hx. }
    rewrite (last_cons_default first rest).
    set (lastx := List.last (first :: rest) first).
    assert (Hlast : In lastx (first :: rest)).
    { unfold lastx. destruct (exists_last (l := first :: rest)) as (pre & z & E);
        [discriminate|]. rewrite E, last_last. apply in_or_app. right. left.
      reflexivity. }
    destruct first as [kb gb]. destruct lastx as [kw gw] eqn:Elast.
    destruct (hour_group ts kb gb (HinG _ (or_introl eq_refl)))
      as (best & b & -> & Hbr & Hbm & Hbf).
    destruct (hour_group ts kw gw (HinG _ Hlast))
      as (worst & c & -> & Hwr & Hwm & Hwf).
    exists best, worst, (Final.period_perf "weekend" (Final.period_data ts)),
      (Final.period_perf "weekday" (Final.period_data ts)), b, c.
    split; [reflexivity|]. split; [exact Hbr|]. split; [exact Hwr|].
    split; [exact Hbm|]. split; [exact Hwm|].
    split; [|split; apply period_perf_mean_or_zero].
    intros t Ht. destruct (dated_has_date _ _ Ht) as [d Hd].
    set (x := (key t, List.filter (fun y => bool_decide (key y = key t)) (Final.dated ts))).
    assert (HxG : In x G).
    { apply group_by_In. split; [apply in_map, Ht | reflexivity]. }
    assert (HxL : In x ((Some best, gb) :: rest)).
    { apply (Permutation_in _ (Permutation_sym Hperm)), HxG. }
    destruct (hour_group ts _ _ HxG) as (h & a & Hk & _ & Hm & Hf).
    assert (Eh : h = hour_of d).
    { unfold key in Hk. rewrite Hd in Hk. simpl in Hk. congruence. }
    subst h. change (f x = Some a) in Hf.
    change (f (Some best, gb) = Some b) in Hbf.
    change (f (Some worst, gw) = Some c) in Hwf.
    exists d, a. split; [exact Hd|]. split; [exact Hm|]. split.
    + destruct (descending_last f _ (Some best, gb) x Hdesc HxL) as [E|Hle].
      * fold lastx in E. rewrite Elast in E. rewrite E, Hwf in Hf.
        injection Hf as <-. apply Qle_refl.
      * fold lastx in Hle. rewrite Elast in Hle. unfold no_less in Hle.
        rewrite Hf, Hwf in Hle. exact Hle.
    + destruct HxL as [E|Hr].
      * rewrite <- E, Hbf in Hf. injection Hf as <-. apply Qle_refl.
      * destruct Hdesc as [Hfirst _]. rewrite List.Forall_forall in Hfirst.
        specialize (Hfirst x Hr). unfold no_less in Hfirst.
        rewrite Hbf, Hf in Hfirst. exact Hfirst.
Qed.

Lemma timing_best_and_worst_hour_witness :
  Final.dated three_trades <> [] /\
  exists best worst weekend weekday b c,
    Final.timing_params three_trades = (best, worst, weekend, weekday) /\
    0 <= best < 24 /\ 0 <= worst < 24 /\
    hour_mean three_trades best = Some b /\
    hour_mean three_trades worst = Some c /\
    (forall t, In t (Final.dated three_trades) ->
       exists d a, open_date t = Some d /\
         hour_mean three_trades (hour_of d) = Some a /\
         (c <= a)%Q /\ (a <= b)%Q) /\
    mean_or_zero three_trades "weekend" weekend /\
    mean_or_zero three_trades "weekday" weekday.
Proof.
  assert (H : Final.dated three_trades <> []).
  { intros E. vm_compute in E. discriminate E. }
  split; [exact H|].
  exact (proj2 (timing_best_and_worst_hour three_trades) H).
Defined.
